(** * Synapx FNOL claims agent: extraction, validation and routing core

    A shallow embedding of [src/field_extractor.py], [src/routing_engine.py],
    [src/pdf_parser.py], of the methods of [ClaimsProcessingAgent] in
    [agent.py] that process claims and summarise the results, and of
    [process_form] in [api_server.py], followed by the properties of the
    specification and further properties of the code.

    Conventions of the embedding:
    - a Python [str] is a [string]; characters are 7-bit ASCII code points
      (a character of code 128 or more is an uncased symbol that is neither
      white space nor a word character);
    - a Python value stored in a field dictionary is a [pyval];
    - a [dict] keyed by strings is a [gmap string pyval];
    - a Python [float] is a binary64 number ([spec_float] at precision 53);
    - a call that may raise returns a [result]. *)

From Stdlib Require Import ZArith NArith QArith Qabs Bool List Ascii String Lia.
From Stdlib Require Import DecimalString.
From Stdlib Require Import Floats.SpecFloat.
From stdpp Require Import gmap strings list sorting.

Import ListNotations.
Close Scope Q_scope.
Local Open Scope string_scope.
Local Open Scope Z_scope.

(** ** Python values and exceptions *)

Inductive pyval :=
| PNone
| PStr (s : string)
| PInt (z : Z)
| PFloat (f : spec_float).

Inductive exn :=
| AttributeError
| TypeError
| ValueError
| OverflowError.

Inductive result (A : Type) :=
| Ok (a : A)
| Raise (e : exn).
Arguments Ok {A} a.
Arguments Raise {A} e.

#[global] Instance result_ret : MRet result := fun A a => Ok a.
#[global] Instance result_bind : MBind result := fun A B k r =>
  match r with
  | Ok a => k a
  | Raise e => Raise e
  end.

(** [bool(v)]: the truth value Python gives to [v]. *)
Definition truthy (v : pyval) : bool :=
  match v with
  | PNone => false
  | PStr s => negb (String.eqb s "")
  | PInt z => negb (z =? 0)
  | PFloat (S754_zero _) => false
  | PFloat _ => true
  end.

(** [v is None] *)
Definition is_none (v : pyval) : bool :=
  match v with
  | PNone => true
  | _ => false
  end.

(** [d.get(k)] and [d.get(k, dflt)]. *)
Definition dict_get (d : gmap string pyval) (k : string) : pyval :=
  default PNone (d !! k).

Definition dict_get_default (d : gmap string pyval) (k : string) (dflt : pyval) : pyval :=
  default dflt (d !! k).

(** ** String methods *)

Module PyStr.

Definition code (c : ascii) : N := N_of_ascii c.

Definition in_range (lo hi c : ascii) : bool :=
  ((code lo <=? code c) && (code c <=? code hi))%N.

Definition is_upper (c : ascii) : bool := in_range "A" "Z" c.
Definition is_lower (c : ascii) : bool := in_range "a" "z" c.
Definition is_alpha (c : ascii) : bool := is_upper c || is_lower c.
Definition is_digit (c : ascii) : bool := in_range "0" "9" c.

(** [str.isspace] on one ASCII character: TAB, LF, VT, FF, CR, the four
    separators FS, GS, RS, US and the space. *)
Definition is_space (c : ascii) : bool :=
  in_range "009" "013" c || in_range "028" "032" c.

(** The white space of the C locale, which [float] skips around a number:
    TAB, LF, VT, FF, CR and the space. *)
Definition is_c_space (c : ascii) : bool :=
  in_range "009" "013" c || Ascii.eqb c " ".

(** The class [\w]. *)
Definition is_word (c : ascii) : bool :=
  is_alpha c || is_digit c || Ascii.eqb c "_".

Definition lower_char (c : ascii) : ascii :=
  if is_upper c then ascii_of_N (code c + 32) else c.

Definition upper_char (c : ascii) : ascii :=
  if is_lower c then ascii_of_N (code c - 32) else c.

Fixpoint map_chars (f : ascii -> ascii) (s : string) : string :=
  match s with
  | EmptyString => EmptyString
  | String c s' => String (f c) (map_chars f s')
  end.

(** [s.lower()] *)
Definition lower (s : string) : string := map_chars lower_char s.

Fixpoint lstrip_by (p : ascii -> bool) (s : string) : string :=
  match s with
  | EmptyString => EmptyString
  | String c s' => if p c then lstrip_by p s' else s
  end.

Fixpoint rstrip_by (p : ascii -> bool) (s : string) : string :=
  match s with
  | EmptyString => EmptyString
  | String c s' =>
      match rstrip_by p s' with
      | EmptyString => if p c then EmptyString else String c EmptyString
      | r => String c r
      end
  end.

Definition strip_by (p : ascii -> bool) (s : string) : string :=
  rstrip_by p (lstrip_by p s).

(** [s.strip()] *)
Definition strip (s : string) : string := strip_by is_space s.

Fixpoint startswith (p s : string) : bool :=
  match p, s with
  | EmptyString, _ => true
  | String a p', String b s' => Ascii.eqb a b && startswith p' s'
  | String _ _, EmptyString => false
  end.

(** [needle in hay] *)
Fixpoint contains (needle hay : string) : bool :=
  startswith needle hay ||
  match hay with
  | EmptyString => false
  | String _ hay' => contains needle hay'
  end.

(** [s.replace(c, "")] for a one-character [c]. *)
Fixpoint remove_char (c : ascii) (s : string) : string :=
  match s with
  | EmptyString => EmptyString
  | String a s' => if Ascii.eqb a c then remove_char c s' else String a (remove_char c s')
  end.

(** [s.endswith(suffix)] *)
Fixpoint endswith (suffix s : string) : bool :=
  String.eqb suffix s ||
  match s with
  | EmptyString => false
  | String _ s' => endswith suffix s'
  end.

(** [s.title()]: a letter is upper-cased when the character before it is
    not a letter and lower-cased otherwise. *)
Fixpoint title_from (prev_cased : bool) (s : string) : string :=
  match s with
  | EmptyString => EmptyString
  | String c s' =>
      String (if prev_cased then lower_char c else upper_char c)
             (title_from (is_alpha c) s')
  end.

Definition title (s : string) : string := title_from false s.

(** [sep.join(l)] *)
Fixpoint join (sep : string) (l : list string) : string :=
  match l with
  | [] => EmptyString
  | [x] => x
  | x :: l' => x ++ sep ++ join sep l'
  end.

(** [x in l] for a list of strings. *)
Definition in_list (x : string) (l : list string) : bool :=
  existsb (String.eqb x) l.

End PyStr.

(** ** Floating-point numbers: [float(s)], comparison with an [int], the
    format [,.2f] *)

Module PyFloat.
Import PyStr.

Definition prec : Z := 53.
Definition emax : Z := 1024.

(** The binary64 number nearest to [n / d] (ties to even), as produced by
    the correctly rounded decimal conversion of [float]. *)
Definition of_ratio (neg : bool) (n d : positive) : spec_float :=
  SFdiv prec emax (S754_finite neg n 0) (S754_finite false d 0).

(** The value [n * 10 ^ e10], rounded once. *)
Definition of_decimal (neg : bool) (n e10 : Z) : spec_float :=
  match n with
  | Zpos p =>
      if 0 <=? e10 then of_ratio neg (p * Z.to_pos (10 ^ e10)) 1
      else of_ratio neg p (Z.to_pos (10 ^ (- e10)))
  | _ => S754_zero neg
  end.

(** [float(z)] for an [int]; the infinite result stands for the
    [OverflowError] of the conversion. *)
Definition of_int (z : Z) : spec_float := binary_normalize prec emax z 0 false.

Definition digit_val (c : ascii) : Z := Z.of_N (code c - 48).

(** The rest of a [digitpart] after its first digit: digits, each possibly
    preceded by one underscore.  Returns the accumulated value, the number
    of digits read and the unread suffix. *)
Fixpoint digits_from (acc n : Z) (s : string) : Z * Z * string :=
  match s with
  | String c s' =>
      if is_digit c then digits_from (acc * 10 + digit_val c) (n + 1) s'
      else if Ascii.eqb c "_" then
        match s' with
        | String d s'' =>
            if is_digit d then digits_from (acc * 10 + digit_val d) (n + 1) s''
            else (acc, n, s)
        | EmptyString => (acc, n, s)
        end
      else (acc, n, s)
  | EmptyString => (acc, n, s)
  end.

Definition digitpart (acc : Z) (s : string) : option (Z * Z * string) :=
  match s with
  | String c s' =>
      if is_digit c then Some (digits_from (acc * 10 + digit_val c) 1 s') else None
  | EmptyString => None
  end.

(** [sign]: returns whether the sign is minus and the unread suffix. *)
Definition parse_sign (s : string) : bool * string :=
  match s with
  | String "-" s' => (true, s')
  | String "+" s' => (false, s')
  | _ => (false, s)
  end.

(** [number]: [[digitpart] "." digitpart | digitpart ["."]].  Returns the
    integer made of all the digits, the number of fraction digits and the
    unread suffix. *)
Definition parse_number (s : string) : option (Z * Z * string) :=
  match digitpart 0 s with
  | Some (ip, _, String "." r) =>
      match digitpart ip r with
      | Some (v, k, r') => Some (v, k, r')
      | None => Some (ip, 0, r)
      end
  | Some (ip, _, r) => Some (ip, 0, r)
  | None =>
      match s with
      | String "." r => digitpart 0 r
      | _ => None
      end
  end.

(** [exponent]: [("e" | "E") [sign] digitpart], read up to the end of the
    string. *)
Definition parse_exponent (s : string) : option Z :=
  match s with
  | EmptyString => Some 0
  | String c r =>
      if Ascii.eqb (lower_char c) "e" then
        let '(neg, r') := parse_sign r in
        match digitpart 0 r' with
        | Some (v, _, EmptyString) => Some (if neg then - v else v)
        | _ => None
        end
      else None
  end.

(** [float(s)] for a string; [None] stands for [ValueError]. *)
Definition float_of_string (s : string) : option spec_float :=
  let '(neg, body) := parse_sign (strip_by is_c_space s) in
  let word := lower body in
  if in_list word ["inf"; "infinity"] then Some (S754_infinity neg)
  else if String.eqb word "nan" then Some S754_nan
  else
    match parse_number body with
    | Some (n, k, r) =>
        match parse_exponent r with
        | Some e => Some (of_decimal neg n (e - k))
        | None => None
        end
    | None => None
    end.

(** The exact comparison of a float with an integer; [None] for NaN. *)
Definition compare_int (f : spec_float) (z : Z) : option comparison :=
  match f with
  | S754_nan => None
  | S754_infinity s => Some (if s then Lt else Gt)
  | S754_zero _ => Some (0 ?= z)
  | S754_finite s m e =>
      let v := if s then Zneg m else Zpos m in
      Some (if 0 <=? e then v * 2 ^ e ?= z else v ?= z * 2 ^ (- e))
  end.

(** [f < z] *)
Definition lt_int (f : spec_float) (z : Z) : bool :=
  match compare_int f z with Some Lt => true | _ => false end.

(** [f >= z] *)
Definition ge_int (f : spec_float) (z : Z) : bool :=
  match compare_int f z with Some (Eq | Gt) => true | _ => false end.

Definition round_half_even (n d : Z) : Z :=
  let q := n / d in
  match 2 * (n mod d) ?= d with
  | Lt => q
  | Gt => q + 1
  | Eq => if Z.even q then q else q + 1
  end.

(** The magnitude [m * 2 ^ e] in hundredths, rounded half to even. *)
Definition cents (m : positive) (e : Z) : Z :=
  if 0 <=? e then Zpos m * 2 ^ e * 100
  else round_half_even (Zpos m * 100) (2 ^ (- e)).

Definition digits_of (z : Z) : string :=
  NilZero.string_of_uint (N.to_uint (Z.to_N z)).

Fixpoint commas (k : nat) (s : string) : string :=
  match s with
  | EmptyString => EmptyString
  | String c s' =>
      match k with
      | O => String "," (String c (commas 2 s'))
      | S k' => String c (commas k' s')
      end
  end.

(** Digits in groups of three, separated by commas. *)
Definition group3 (s : string) : string :=
  commas (S ((String.length s - 1) mod 3)%nat) s.

Definition two_digits (z : Z) : string :=
  digits_of (z / 10) ++ digits_of (z mod 10).

(** [format(f, ",.2f")] *)
Definition format_f2 (f : spec_float) : string :=
  match f with
  | S754_nan => "nan"
  | S754_infinity s => if s then "-inf" else "inf"
  | S754_zero s => (if s then "-" else "") ++ "0.00"
  | S754_finite s m e =>
      let c := cents m e in
      (if s then "-" else "") ++ group3 (digits_of (c / 100)) ++ "."
        ++ two_digits (c mod 100)
  end.

(** [format(z, ",")] for a non-negative [int]. *)
Definition format_int (z : Z) : string := group3 (digits_of z).

End PyFloat.

(** ** Regular expressions

    The fragment of Python's [re] syntax used by the extractor, matched with
    the flag [IGNORECASE].  [matches r s] lists, in the order in which the
    backtracking matcher of [re] tries them, the suffixes of [s] left unread
    by a match of [r] at the start of [s].  Every pattern of the source has
    one capturing group between an uncaptured prefix and an uncaptured
    suffix, which is how a [pattern] is laid out. *)

Module Re.
Import PyStr.

Inductive item :=
| One (c : ascii)
| Range (lo hi : ascii)
| Space
| Word.

Inductive regex :=
| Eps
| Lit (c : ascii)
| Cls (negated : bool) (items : list item)
| Seq (r1 r2 : regex)
| Alt (r1 r2 : regex)
| Rep (greedy : bool) (lo : nat) (hi : option nat) (r : regex)
| Look (r : regex)
| Eol.

Record pattern := Pattern { pre : regex; grp : regex; post : regex }.

Definition item_match (it : item) (c : ascii) : bool :=
  match it with
  | One a => Ascii.eqb (lower_char c) (lower_char a)
  | Range lo hi => in_range lo hi (lower_char c) || in_range lo hi (upper_char c)
  | Space => is_space c
  | Word => is_word c
  end.

Definition lit_match (a c : ascii) : bool :=
  Ascii.eqb (lower_char c) (lower_char a).

Definition cls_match (negated : bool) (items : list item) (c : ascii) : bool :=
  xorb negated (existsb (fun it => item_match it c) items).

Definition char_step (p : ascii -> bool) (s : string) : list string :=
  match s with
  | String c s' => if p c then [s'] else []
  | EmptyString => []
  end.

Definition dec_hi (hi : option nat) : option nat :=
  match hi with
  | Some h => Some (Nat.pred h)
  | None => None
  end.

(** Between [lo] and [hi] repetitions of [body].  A repetition beyond the
    mandatory ones has to consume input. *)
Fixpoint rep_loop (body : string -> list string) (greedy : bool)
    (fuel lo : nat) (hi : option nat) (s : string) : list string :=
  match fuel with
  | O => []
  | S fuel' =>
      let stop := match lo with O => [s] | S _ => [] end in
      let again :=
        match hi with
        | Some O => []
        | _ =>
            flat_map
              (fun s' =>
                 match lo with
                 | S lo' => rep_loop body greedy fuel' lo' (dec_hi hi) s'
                 | O =>
                     if (String.length s' <? String.length s)%nat
                     then rep_loop body greedy fuel' O (dec_hi hi) s'
                     else []
                 end)
              (body s)
        end in
      if greedy then again ++ stop else stop ++ again
  end.

Fixpoint matches (r : regex) (s : string) : list string :=
  match r with
  | Eps => [s]
  | Lit a => char_step (lit_match a) s
  | Cls negated items => char_step (cls_match negated items) s
  | Seq r1 r2 => flat_map (matches r2) (matches r1 s)
  | Alt r1 r2 => matches r1 s ++ matches r2 s
  | Rep greedy lo hi r' =>
      rep_loop (matches r') greedy (S (lo + String.length s)) lo hi s
  | Look r' =>
      match matches r' s with
      | [] => []
      | _ :: _ => [s]
      end
  | Eol =>
      match s with
      | EmptyString => [s]
      | String c _ => if Ascii.eqb c "010" then [s] else []
      end
  end.

(** The part of [s] read when [rest] is what is left of it. *)
Definition consumed (s rest : string) : string :=
  substring 0 (String.length s - String.length rest) s.

(** The values of group 1 for the matches of [p] at the start of [s]. *)
Definition match_at (p : pattern) (s : string) : list string :=
  flat_map
    (fun s1 =>
       flat_map
         (fun s2 => map (fun _ => consumed s1 s2) (matches (post p) s2))
         (matches (grp p) s1))
    (matches (pre p) s).

(** [re.search(p, s).group(1)], or [None] when there is no match. *)
Fixpoint search (p : pattern) (s : string) : option string :=
  match match_at p s with
  | g :: _ => Some g
  | [] =>
      match s with
      | EmptyString => None
      | String _ s' => search p s'
      end
  end.

(** Syntax helpers. *)
Fixpoint lits (s : string) : regex :=
  match s with
  | EmptyString => Eps
  | String c EmptyString => Lit c
  | String c s' => Seq (Lit c) (lits s')
  end.

Fixpoint seqs (l : list regex) : regex :=
  match l with
  | [] => Eps
  | [r] => r
  | r :: l' => Seq r (seqs l')
  end.

Fixpoint alts (l : list regex) : regex :=
  match l with
  | [] => Cls false []
  | [r] => r
  | r :: l' => Alt r (alts l')
  end.

Definition star (r : regex) : regex := Rep true 0 None r.
Definition plus (r : regex) : regex := Rep true 1 None r.
Definition lazy_plus (r : regex) : regex := Rep false 1 None r.
Definition opt (r : regex) : regex := Rep true 0 (Some 1%nat) r.
Definition times (n : nat) (r : regex) : regex := Rep true n (Some n) r.
Definition between (n m : nat) (r : regex) : regex := Rep true n (Some m) r.
Definition at_least (n : nat) (r : regex) : regex := Rep true n None r.

(** [\s*], [\s+], [[:\s]*], [[0-9]] *)
Definition ws : regex := star (Cls false [Space]).
Definition ws1 : regex := plus (Cls false [Space]).
Definition label_end : regex := star (Cls false [One ":"; Space]).
Definition digit : regex := Cls false [Range "0" "9"].
Definition none_of (l : list ascii) : regex := Cls true (map One l).

End Re.

(** ** [FieldExtractor] ([src/field_extractor.py]) *)

Module FieldExtractor.
Import PyStr Re.

Definition MANDATORY_FIELDS : list string :=
  [ "policy_number";
    "policyholder_name";
    "incident_date";
    "incident_location";
    "claim_type";
    "estimated_damage" ].

Definition nl : ascii := "010".

(** [[0-9]{2}[/-][0-9]{2}[/-][0-9]{4}] *)
Definition date_re : regex :=
  seqs [ times 2 digit; Cls false [One "/"; One "-"]; times 2 digit;
         Cls false [One "/"; One "-"]; times 4 digit ].

Definition alnum_items : list item :=
  [Range "a" "z"; Range "A" "Z"; Range "0" "9"].

(** [(?:POLICY\s*(?:NUMBER|#)|POLICY_NUMBER)[:\s]*([0-9A-Za-z-]+)] *)
Definition policy_number_re : pattern :=
  Pattern
    (seqs [ alts [ seqs [lits "POLICY"; ws; alts [lits "NUMBER"; lits "#"]];
                   lits "POLICY_NUMBER" ];
            label_end ])
    (plus (Cls false [Range "0" "9"; Range "A" "Z"; Range "a" "z"; One "-"]))
    Eps.

(** [(?:NAME\s*OF\s*INSURED|POLICYHOLDER\s*NAME)[:\s]*([^,\n]+)] *)
Definition policyholder_name_re : pattern :=
  Pattern
    (seqs [ alts [ seqs [lits "NAME"; ws; lits "OF"; ws; lits "INSURED"];
                   seqs [lits "POLICYHOLDER"; ws; lits "NAME"] ];
            label_end ])
    (plus (none_of [","%char; nl]))
    Eps.

(** [(?:EFFECTIVE\s*DATE|COVERAGE\s*PERIOD)[:\s]*([0-9]{2}[/-][0-9]{2}[/-][0-9]{4})] *)
Definition effective_date_re : pattern :=
  Pattern
    (seqs [ alts [ seqs [lits "EFFECTIVE"; ws; lits "DATE"];
                   seqs [lits "COVERAGE"; ws; lits "PERIOD"] ];
            label_end ])
    date_re
    Eps.

(** [(?:DATE\s*OF\s*(?:LOSS|ACCIDENT)|DATE)[:\s]*([0-9]{2}[/-][0-9]{2}[/-][0-9]{4})] *)
Definition incident_date_re : pattern :=
  Pattern
    (seqs [ alts [ seqs [lits "DATE"; ws; lits "OF"; ws;
                         alts [lits "LOSS"; lits "ACCIDENT"]];
                   lits "DATE" ];
            label_end ])
    date_re
    Eps.

(** [(?:TIME)[:\s]*([0-9]{1,2}:[0-9]{2}\s*(?:AM|PM)?)] *)
Definition incident_time_re : pattern :=
  Pattern
    (seqs [ lits "TIME"; label_end ])
    (seqs [ between 1 2 digit; Lit ":"; times 2 digit; ws;
            opt (alts [lits "AM"; lits "PM"]) ])
    Eps.

(** [(?:LOCATION\s*OF\s*(?:LOSS|ACCIDENT)|STREET|ADDRESS|LOC)[:\s]*([^;\n]+?)(?=\n|;|$)] *)
Definition incident_location_re : pattern :=
  Pattern
    (seqs [ alts [ seqs [lits "LOCATION"; ws; lits "OF"; ws;
                         alts [lits "LOSS"; lits "ACCIDENT"]];
                   lits "STREET"; lits "ADDRESS"; lits "LOC" ];
            label_end ])
    (lazy_plus (none_of [";"%char; nl]))
    (Look (alts [Lit nl; Lit ";"; Eol])).

(** [(?:CITY|CITY,\s*STATE)[:\s]*([^,\n]+(?:,[^,\n]+)* )] (a space is added here between a star and the closing parenthesis after it) *)
Definition city_state_zip_re : pattern :=
  Pattern
    (seqs [ alts [ lits "CITY"; seqs [lits "CITY,"; ws; lits "STATE"] ];
            label_end ])
    (seqs [ plus (none_of [","%char; nl]);
            star (seqs [Lit ","; plus (none_of [","%char; nl])]) ])
    Eps.

(** [(?:NAME\s*OF\s*(?:CLAIMANT|CONTACT)|CONTACT\s*NAME)[:\s]*([^,\n]+)] *)
Definition claimant_name_re : pattern :=
  Pattern
    (seqs [ alts [ seqs [lits "NAME"; ws; lits "OF"; ws;
                         alts [lits "CLAIMANT"; lits "CONTACT"]];
                   seqs [lits "CONTACT"; ws; lits "NAME"] ];
            label_end ])
    (plus (none_of [","%char; nl]))
    Eps.

(** [(?:OTHER\s*(?:VEHICLE|PARTY)|THIRD\s*PARTY)[:\s]*([^\n]+)] *)
Definition third_party_re : pattern :=
  Pattern
    (seqs [ alts [ seqs [lits "OTHER"; ws; alts [lits "VEHICLE"; lits "PARTY"]];
                   seqs [lits "THIRD"; ws; lits "PARTY"] ];
            label_end ])
    (plus (none_of [nl]))
    Eps.

(** [(?:(?:PRIMARY\s*|SECONDARY\s* )?PHONE)[:\s]*([0-9]{3}[.-]?[0-9]{3}[.-]?[0-9]{4})] (a space is added here between a star and the closing parenthesis after it) *)
Definition contact_phone_re : pattern :=
  Pattern
    (seqs [ opt (alts [ seqs [lits "PRIMARY"; ws]; seqs [lits "SECONDARY"; ws] ]);
            lits "PHONE"; label_end ])
    (seqs [ times 3 digit; opt (Cls false [One "."; One "-"]);
            times 3 digit; opt (Cls false [One "."; One "-"]);
            times 4 digit ])
    Eps.

(** [(?:E-MAIL|EMAIL)[:\s]*([a-zA-Z0-9._%+-]+@[a-zA-Z0-9.-]+\.[a-zA-Z]{2,})] *)
Definition contact_email_re : pattern :=
  Pattern
    (seqs [ alts [lits "E-MAIL"; lits "EMAIL"]; label_end ])
    (seqs [ plus (Cls false (alnum_items ++
                               [One "."; One "_"; One "%"; One "+"; One "-"]));
            Lit "@";
            plus (Cls false (alnum_items ++ [One "."; One "-"]));
            Lit ".";
            at_least 2 (Cls false [Range "a" "z"; Range "A" "Z"]) ])
    Eps.

(** [(?:INSURED\s*VEHICLE|ASSET\s*TYPE)[:\s]*([^\n]+)] *)
Definition asset_type_re : pattern :=
  Pattern
    (seqs [ alts [ seqs [lits "INSURED"; ws; lits "VEHICLE"];
                   seqs [lits "ASSET"; ws; lits "TYPE"] ];
            label_end ])
    (plus (none_of [nl]))
    Eps.

(** [(?:V\.I\.N\.|VIN)[:\s]*([A-HJ-NPR-Z0-9]{17})] *)
Definition vehicle_vin_re : pattern :=
  Pattern
    (seqs [ alts [lits "V.I.N."; lits "VIN"]; label_end ])
    (times 17 (Cls false [ Range "A" "H"; Range "J" "N"; One "P";
                           Range "R" "Z"; Range "0" "9" ]))
    Eps.

(** [(?:PLATE\s*NUMBER)[:\s]*([A-Za-z0-9]{2,8})] *)
Definition vehicle_plate_re : pattern :=
  Pattern
    (seqs [ lits "PLATE"; ws; lits "NUMBER"; label_end ])
    (between 2 8 (Cls false [Range "A" "Z"; Range "a" "z"; Range "0" "9"]))
    Eps.

(** [(?:CLAIM\s*TYPE|LINE\s*OF\s*BUSINESS)[:\s]*([^\n]+)] *)
Definition claim_type_re : pattern :=
  Pattern
    (seqs [ alts [ seqs [lits "CLAIM"; ws; lits "TYPE"];
                   seqs [lits "LINE"; ws; lits "OF"; ws; lits "BUSINESS"] ];
            label_end ])
    (plus (none_of [nl]))
    Eps.

(** [(?:ESTIMATE\s*(?:AMOUNT|DAMAGE)|ESTIMATED\s*(?:DAMAGE|LOSS))[:\s]*\$?([0-9]{1,3}(?:,[0-9]{3})*(?:\.[0-9]{2})?)] *)
Definition estimated_damage_re : pattern :=
  Pattern
    (seqs [ alts [ seqs [lits "ESTIMATE"; ws; alts [lits "AMOUNT"; lits "DAMAGE"]];
                   seqs [lits "ESTIMATED"; ws; alts [lits "DAMAGE"; lits "LOSS"]] ];
            label_end;
            opt (Lit "$") ])
    (seqs [ between 1 3 digit;
            star (seqs [Lit ","; times 3 digit]);
            opt (seqs [Lit "."; times 2 digit]) ])
    Eps.

(** [(?:DESCRIBE\s*(?:LOSS|ACCIDENT|DAMAGE)|DESCRIPTION)[:\s]*([^;]+(?:[;][^;]+)?)] *)
Definition accident_description_re : pattern :=
  Pattern
    (seqs [ alts [ seqs [lits "DESCRIBE"; ws;
                         alts [lits "LOSS"; lits "ACCIDENT"; lits "DAMAGE"]];
                   lits "DESCRIPTION" ];
            label_end ])
    (seqs [ plus (none_of [";"%char]);
            opt (seqs [Lit ";"; plus (none_of [";"%char])]) ])
    Eps.

Definition FIELD_PATTERNS : list (string * pattern) :=
  [ ("policy_number", policy_number_re);
    ("policyholder_name", policyholder_name_re);
    ("effective_date", effective_date_re);
    ("incident_date", incident_date_re);
    ("incident_time", incident_time_re);
    ("incident_location", incident_location_re);
    ("city_state_zip", city_state_zip_re);
    ("claimant_name", claimant_name_re);
    ("third_party", third_party_re);
    ("contact_phone", contact_phone_re);
    ("contact_email", contact_email_re);
    ("asset_type", asset_type_re);
    ("vehicle_vin", vehicle_vin_re);
    ("vehicle_plate", vehicle_plate_re);
    ("claim_type", claim_type_re);
    ("estimated_damage", estimated_damage_re);
    ("accident_description", accident_description_re) ].

(** [(\w+\s+street)] *)
Definition street_pattern : pattern :=
  Pattern Eps (seqs [plus (Cls false [Word]); ws1; lits "street"]) Eps.

(** [intersection\s+of\s+([^.]+)] *)
Definition intersection_pattern : pattern :=
  Pattern (seqs [lits "intersection"; ws1; lits "of"; ws1])
          (plus (none_of ["."%char]))
          Eps.

(** A method of [str] called on a value: any other value has no such
    attribute. *)
Definition as_str (v : pyval) : result string :=
  match v with
  | PStr s => Ok s
  | _ => Raise AttributeError
  end.

(** The loop over [FIELD_PATTERNS] (source lines 55-63). *)
Definition match_patterns (text : string) : gmap string pyval :=
  fold_left
    (fun extracted '(field_name, pattern) =>
       match search pattern text with
       | Some g => <[field_name := PStr (strip g)]> extracted
       | None => <[field_name := PNone]> extracted
       end)
    FIELD_PATTERNS ∅.

(** The fallback for the location (source lines 65-80). *)
Definition location_fallback (extracted : gmap string pyval)
    : result (gmap string pyval) :=
  if negb (truthy (dict_get extracted "incident_location"))
     && truthy (dict_get extracted "accident_description")
  then
    d ← as_str (dict_get extracted "accident_description");
    let desc := lower d in
    if contains "driveway" desc then
      Ok (<["incident_location" := PStr "Driveway"]> extracted)
    else if contains "street" desc then
      match search street_pattern desc with
      | Some g => Ok (<["incident_location" := PStr (title g)]> extracted)
      | None => Ok extracted
      end
    else if contains "parking" desc then
      Ok (<["incident_location" := PStr "Parking lot/garage"]> extracted)
    else if contains "intersection" desc then
      match search intersection_pattern desc with
      | Some g => Ok (<["incident_location" := PStr (title g)]> extracted)
      | None => Ok extracted
      end
    else Ok extracted
  else Ok extracted.

(** The clean-up of the damage amount (source lines 82-91). *)
Definition damage_value (extracted : gmap string pyval)
    : result (gmap string pyval) :=
  if truthy (dict_get extracted "estimated_damage") then
    s ← as_str (dict_get extracted "estimated_damage");
    match PyFloat.float_of_string (remove_char "$" (remove_char "," s)) with
    | Some f => Ok (<["estimated_damage_value" := PFloat f]> extracted)
    | None => Ok (<["estimated_damage_value" := PInt 0]> extracted)
    end
  else Ok (<["estimated_damage_value" := PInt 0]> extracted).

Definition extract_fields (text : string) : result (gmap string pyval) :=
  extracted ← location_fallback (match_patterns text);
  damage_value extracted.

Definition placeholder_values : list string :=
  ["not"; "not provided"; "n/a"; "na"; "unknown"; "incomplete"; "insufficient"; "missing"].

(** [isinstance(value, str) and value.lower().strip() in placeholder_values] *)
Definition is_placeholder (value : pyval) : bool :=
  match value with
  | PStr s => in_list (strip (lower s)) placeholder_values
  | _ => false
  end.

Definition validate_fields (extracted_fields : gmap string pyval) : list string :=
  fold_left
    (fun missing field =>
       let value := dict_get extracted_fields field in
       if negb (truthy value) then (missing ++ [field])%list
       else if is_placeholder value then (missing ++ [field])%list
       else missing)
    MANDATORY_FIELDS [].

Definition fraud_keywords : list string :=
  ["fraud"; "inconsistent"; "staged"; "suspicious"; "falsified"].

Definition check_for_fraud_indicators (text : string) : list string :=
  let text_lower := lower text in
  fold_left
    (fun indicators keyword =>
       if contains keyword text_lower then (indicators ++ [keyword])%list else indicators)
    fraud_keywords [].

End FieldExtractor.

(** ** [RoutingEngine] ([src/routing_engine.py]) *)

Module RoutingEngine.
Import PyStr.

Definition FAST_TRACK_THRESHOLD : Z := 25000.

(** The dictionary [{"recommendedRoute": ..., "reasoning": ...}]. *)
Record decision := Decision_ { recommendedRoute : string; reasoning : string }.

(** [v < z] for an [int] [z]: undefined between [None] or a [str] and an
    [int]. *)
Definition less_than (v : pyval) (z : Z) : result bool :=
  match v with
  | PInt x => Ok (x <? z)
  | PFloat f => Ok (PyFloat.lt_int f z)
  | PNone | PStr _ => Raise TypeError
  end.

(** [format(v, ",.2f")] *)
Definition format_amount (v : pyval) : result string :=
  match v with
  | PFloat f => Ok (PyFloat.format_f2 f)
  | PInt x =>
      match PyFloat.of_int x with
      | S754_infinity _ => Raise OverflowError
      | f => Ok (PyFloat.format_f2 f)
      end
  | PNone => Raise TypeError
  | PStr _ => Raise ValueError
  end.

Definition determine_route (extracted_fields : gmap string pyval)
    (missing_fields fraud_indicators : list string) : result decision :=
  (* Rule 1: missing mandatory fields *)
  if negb (bool_decide (missing_fields = [])) then
    Ok (Decision_ "MANUAL_REVIEW"
          ("Missing mandatory fields: " ++ join ", " missing_fields))
  (* Rule 2: fraud indicators *)
  else if negb (bool_decide (fraud_indicators = [])) then
    Ok (Decision_ "INVESTIGATION_FLAG"
          ("Potential fraud indicators detected: " ++ join ", " fraud_indicators))
  else
    (* Rule 3: injury claims *)
    s ← FieldExtractor.as_str (dict_get_default extracted_fields "claim_type" (PStr ""));
    let claim_type := lower s in
    if contains "injury" claim_type || contains "bodily" claim_type
       || contains "personal" claim_type
    then
      Ok (Decision_ "SPECIALIST_QUEUE"
            "Claim type requires specialist handling (injury/bodily harm involved)")
    else
      (* Rule 4: damage amount *)
      let damage_value := dict_get_default extracted_fields "estimated_damage_value" (PInt 0) in
      low ← less_than damage_value FAST_TRACK_THRESHOLD;
      amount ← format_amount damage_value;
      if (low : bool) then
        Ok (Decision_ "FAST_TRACK"
              ("Low damage amount ($" ++ amount ++ " < $"
                 ++ PyFloat.format_int FAST_TRACK_THRESHOLD
                 ++ "). Eligible for expedited processing."))
      else
        Ok (Decision_ "STANDARD_REVIEW"
              ("High damage amount ($" ++ amount ++ " >= $"
                 ++ PyFloat.format_int FAST_TRACK_THRESHOLD
                 ++ "). Requires standard review.")).

Definition get_all_routes : list string :=
  [ "FAST_TRACK"; "STANDARD_REVIEW"; "MANUAL_REVIEW"; "INVESTIGATION_FLAG";
    "SPECIALIST_QUEUE" ].

End RoutingEngine.

(** ** [DocumentParser] ([src/pdf_parser.py])

    The file system, [pathlib] and [pdfplumber] are outside the program:
    they are the fields of an [env]. *)

Module DocumentParser.

Inductive error_class :=
| FileNotFoundError
| UnsupportedFormat
| ImportError
| ReadFailure.

(** An exception raised by the parser, with the text of [str(e)]. *)
Record doc_error := DocError { err_class : error_class; err_text : string }.

Record env := Env {
  (** [os.path.exists(path)] *)
  path_exists : string -> bool;
  (** [Path(path).suffix.lower()] *)
  path_suffix : string -> string;
  (** [open(path, 'r', encoding='utf-8').read()]: the text, or the message
      of the exception raised *)
  read_text : string -> string + string;
  HAS_PDFPLUMBER : bool;
  (** [page.extract_text()] for the pages of [pdfplumber.open(path)], or
      the message of the exception raised *)
  pdf_pages : string -> string + list (option string)
}.

Definition SUPPORTED_FORMATS : list string := [".pdf"; ".txt"].

Definition _parse_txt (fs : env) (file_path : string) : doc_error + string :=
  match read_text fs file_path with
  | inr text => inr text
  | inl msg => inl (DocError ReadFailure ("Error reading TXT file: " ++ msg))
  end.

Definition _parse_pdf (fs : env) (file_path : string) : doc_error + string :=
  if negb (HAS_PDFPLUMBER fs) then
    inl (DocError ImportError
           "pdfplumber is required for PDF parsing. Install with: pip install pdfplumber")
  else
    match pdf_pages fs file_path with
    | inr pages =>
        inr (fold_left
               (fun text page => text ++ default "" page ++ String "010" "")
               pages "")
    | inl msg => inl (DocError ReadFailure ("Error reading PDF file: " ++ msg))
    end.

Definition parse_document (fs : env) (file_path : string) : doc_error + string :=
  if negb (path_exists fs file_path) then
    inl (DocError FileNotFoundError ("Document not found: " ++ file_path))
  else
    let file_ext := path_suffix fs file_path in
    if String.eqb file_ext ".txt" then _parse_txt fs file_path
    else if String.eqb file_ext ".pdf" then _parse_pdf fs file_path
    else inl (DocError UnsupportedFormat ("Unsupported file format: " ++ file_ext)).

Definition is_supported_format (fs : env) (file_path : string) : bool :=
  let file_ext := path_suffix fs file_path in
  PyStr.in_list file_ext SUPPORTED_FORMATS.

End DocumentParser.

(** ** [ClaimsProcessingAgent] ([agent.py]) *)

Module ClaimsProcessingAgent.
Import PyStr.

(** The result dictionary; a key that a branch does not set is [None]. *)
Record claim_result := ClaimResult {
  error : option string;
  status : string;
  document_path : option string;
  extractedFields : gmap string pyval;
  missingFields : list string;
  fraudIndicators : option (list string);
  recommendedRoute : string;
  reasoning : string
}.

Definition _clean_extracted_fields (extracted_fields : gmap string pyval)
    : gmap string pyval :=
  filter
    (fun kv => Is_true (negb (is_none kv.2)
                        && negb (endswith "_value" kv.1)))
    extracted_fields.

(** [process_claim] with the counter [processed_count] passed along. *)
Definition process_claim (fs : DocumentParser.env) (processed_count : nat)
    (document_path : string) : result (claim_result * nat) :=
  match DocumentParser.parse_document fs document_path with
  | inl e =>
      Ok (ClaimResult
            (Some (DocumentParser.err_text e))
            "FAILED"
            None
            ∅
            FieldExtractor.MANDATORY_FIELDS
            None
            "MANUAL_REVIEW"
            ("Document parsing failed: " ++ DocumentParser.err_text e),
          processed_count)
  | inr document_text =>
      extracted_fields ← FieldExtractor.extract_fields document_text;
      let missing_fields := FieldExtractor.validate_fields extracted_fields in
      let fraud_indicators := FieldExtractor.check_for_fraud_indicators document_text in
      routing_decision ←
        RoutingEngine.determine_route extracted_fields missing_fields fraud_indicators;
      Ok (ClaimResult
            None
            "SUCCESS"
            (Some document_path)
            (_clean_extracted_fields extracted_fields)
            missing_fields
            (Some fraud_indicators)
            (RoutingEngine.recommendedRoute routing_decision)
            (RoutingEngine.reasoning routing_decision),
          S processed_count)
  end.

(** The directories, as [process_multiple_claims] sees them. *)
Record dirs := Dirs {
  (** [os.path.isdir(path)] *)
  isdir : string -> bool;
  (** [str(p)] for the paths [p] of [Path(path).glob(pattern)], in the
      order in which they are produced *)
  glob : string -> string -> list string
}.

(** The loop over the files, with the counter passed along; the messages
    printed are left out. *)
Fixpoint process_files (fs : DocumentParser.env) (processed_count : nat)
    (supported_files : list string) : result (list claim_result * nat) :=
  match supported_files with
  | [] => Ok ([], processed_count)
  | file_path :: rest =>
      '(r, n) ← process_claim fs processed_count file_path;
      '(results, n') ← process_files fs n rest;
      Ok (r :: results, n')
  end.

Definition process_multiple_claims (fs : DocumentParser.env) (ds : dirs)
    (processed_count : nat) (directory_path : string)
    : result (list claim_result * nat) :=
  if negb (isdir ds directory_path) then Raise ValueError
  else
    let supported_files :=
      flat_map (fun ext => glob ds directory_path ("*" ++ ext))
               DocumentParser.SUPPORTED_FORMATS in
    if bool_decide (supported_files = []) then Ok ([], processed_count)
    else process_files fs processed_count supported_files.

(** [str(n)] for a natural number. *)
Definition str_of_nat (n : nat) : string := NilZero.string_of_uint (Nat.to_uint n).

(** The order of Python on pairs of a string and a number: by the strings,
    compared character by character on their codes, then by the
    numbers. *)
Definition item_le (a b : string * nat) : Prop :=
  match String.compare a.1 b.1 with
  | Lt => True
  | Eq => (a.2 <= b.2)%nat
  | Gt => False
  end.

#[global] Instance item_le_dec a b : Decision (item_le a b).
Proof. unfold item_le. destruct (String.compare a.1 b.1); apply _. Defined.

(** The first loop of [print_summary], which counts the results by route.
    A result is given by [result.get("recommendedRoute")]: [None] when it
    has no route. *)
Definition count_routes (results : list (option string)) : gmap string nat :=
  fold_left
    (fun routes result =>
       let route := default "UNKNOWN" result in
       <[route := (default 0 (routes !! route) + 1)%nat]> routes)
    results ∅.

(** ["=" * 60] *)
Definition rule60 : string :=
  "============================================================".

(** A line of the routing distribution. *)
Definition route_line (item : string * nat) : string :=
  "  " ++ item.1 ++ ": " ++ str_of_nat item.2.

(** [print_summary]: the texts printed, one for each call of [print]. *)
Definition print_summary (results : list (option string)) : list string :=
  let routes := count_routes results in
  let total := "Total documents processed: " ++ str_of_nat (length results) in
  let last := rule60 ++ String "010" "" in
  app [ String "010" rule60; "CLAIMS PROCESSING SUMMARY"; rule60; total;
        String "010" "Routing Distribution:" ]
      (app (map route_line (merge_sort item_le (map_to_list routes))) [last]).

End ClaimsProcessingAgent.

(** ** [process_form] ([api_server.py])

    The body of the request is a JSON object whose values are null,
    strings or numbers, which is what [pyval] holds.  Flask, the decoding
    of the request and the encoding of the answer are outside the
    program. *)

Module ApiServer.
Import PyStr.

(** The answers of [process_form]. *)
Inductive response :=
(** status 200, the result *)
| Processed (extractedFields : gmap string pyval)
            (missingFields fraudIndicators : list string)
            (recommendedRoute reasoning : string)
(** status 400, the error "No data provided" *)
| NoData
(** status 500, the error [str(e)] *)
| ServerError (e : exn).

(** [float(v)] *)
Definition to_float (v : pyval) : result spec_float :=
  match v with
  | PStr s =>
      match PyFloat.float_of_string s with
      | Some f => Ok f
      | None => Raise ValueError
      end
  | PInt z =>
      match PyFloat.of_int z with
      | S754_infinity _ => Raise OverflowError
      | f => Ok f
      end
  | PFloat f => Ok f
  | PNone => Raise TypeError
  end.

(** The dictionary built from the form. *)
Definition form_fields (data : gmap string pyval) : gmap string pyval :=
  let get k := dict_get_default data k (PStr "") in
  <["policy_number" := get "policy_number"]>
  (<["policyholder_name" := get "policyholder_name"]>
  (<["incident_date" := get "incident_date"]>
  (<["incident_location" := get "incident_location"]>
  (<["claim_type" := get "claim_type"]>
  (<["estimated_damage" := get "estimated_damage"]>
  (<["vehicle_vin" := get "vehicle_vin"]>
  (<["accident_description" := get "accident_description"]> ∅))))))).

Definition process_form (data : gmap string pyval) : response :=
  if (size data =? 0)%nat then NoData
  else
    let extracted_fields := form_fields data in
    let missing_fields := FieldExtractor.validate_fields extracted_fields in
    let answer : result response :=
      description ←
        FieldExtractor.as_str (dict_get_default data "accident_description" (PStr ""));
      let fraud_indicators := FieldExtractor.check_for_fraud_indicators description in
      let damage_str := dict_get_default data "estimated_damage" (PStr "0") in
      value ← match to_float damage_str with
              | Ok f => Ok (PFloat f)
              | Raise ValueError => Ok (PInt 0)
              | Raise e => Raise e
              end;
      let extracted_fields := <["estimated_damage_value" := value]> extracted_fields in
      routing ←
        RoutingEngine.determine_route extracted_fields missing_fields fraud_indicators;
      Ok (Processed extracted_fields missing_fields fraud_indicators
            (RoutingEngine.recommendedRoute routing)
            (RoutingEngine.reasoning routing)) in
    match answer with
    | Ok r => r
    | Raise e => ServerError e
    end.

End ApiServer.

(** ** Vocabulary of the specification *)

Section Vocabulary.
Import PyStr FieldExtractor.

(** The test made on each mandatory field by the loop of
    [validate_fields]. *)
Definition is_missing (extracted_fields : gmap string pyval) (field : string) : bool :=
  negb (truthy (dict_get extracted_fields field))
  || is_placeholder (dict_get extracted_fields field).

(** "Missing" in the words of the specification: the stored value is
    absent, or it is a string whose trimmed, case-folded form is one of
    the placeholders. *)
Definition missing_as_specified (extracted_fields : gmap string pyval)
    (field : string) : Prop :=
  match extracted_fields !! field with
  | None | Some PNone => True
  | Some (PStr s) => In (strip (lower s)) placeholder_values
  | Some _ => False
  end.

(** [keyword] occurs in [text] up to the case of the letters of [text]. *)
Definition occurs_ignoring_case (keyword text : string) : Prop :=
  exists before mid after, text = before ++ mid ++ after /\ lower mid = keyword.

(** The rational number denoted by a finite number. *)
Definition Qvalue (v : pyval) : option Q :=
  match v with
  | PInt z => Some (inject_Z z)
  | PFloat (S754_zero _) => Some (inject_Z 0)
  | PFloat (S754_finite s m e) =>
      let n := if s then Zneg m else Zpos m in
      Some (if 0 <=? e then inject_Z (n * 2 ^ e) else Qmake n (Z.to_pos (2 ^ (- e))))
  | _ => None
  end.

(** A number strictly below the integer [z]; minus infinity is. *)
Definition below (v : pyval) (z : Z) : Prop :=
  match v with
  | PFloat (S754_infinity s) => s = true
  | _ => exists q, Qvalue v = Some q /\ (q < inject_Z z)%Q
  end.

(** A number equal to or above the integer [z]; plus infinity is. *)
Definition at_or_above (v : pyval) (z : Z) : Prop :=
  match v with
  | PFloat (S754_infinity s) => s = false
  | _ => exists q, Qvalue v = Some q /\ (inject_Z z <= q)%Q
  end.

(** A number that the format [,.2f] accepts: a float, or an integer that
    converts to a float without overflow. *)
Definition is_amount (v : pyval) : Prop :=
  match v with
  | PFloat _ => True
  | PInt z =>
      match PyFloat.of_int z with
      | S754_infinity _ => False
      | _ => True
      end
  | _ => False
  end.

(** Every character of [s] passes the test [p]. *)
Fixpoint all_chars (p : ascii -> bool) (s : string) : bool :=
  match s with
  | EmptyString => true
  | String c s' => p c && all_chars p s'
  end.

(** The characters that a match of [r] can read. *)
Fixpoint accepts (r : Re.regex) (c : ascii) : bool :=
  match r with
  | Re.Lit a => Re.lit_match a c
  | Re.Cls negated items => Re.cls_match negated items c
  | Re.Seq r1 r2 | Re.Alt r1 r2 => accepts r1 c || accepts r2 c
  | Re.Rep _ _ _ r' => accepts r' c
  | Re.Eps | Re.Look _ | Re.Eol => false
  end.

(** What a match reads: [rest] is what is left of [s] after a prefix made
    of characters that pass the test [p]. *)
Definition reads (p : ascii -> bool) (s rest : string) : Prop :=
  exists c, s = c ++ rest /\ all_chars p c = true.

(** A number that is zero or above: [v >= 0] holds. *)
Definition nonneg (v : pyval) : Prop :=
  match v with
  | PInt z => 0 <= z
  | PFloat f => PyFloat.ge_int f 0 = true
  | _ => False
  end.

(** What the loop over the patterns stores for one pattern. *)
Definition field_value (p : Re.pattern) (text : string) : pyval :=
  match Re.search p text with
  | Some g => PStr (strip g)
  | None => PNone
  end.

(** A digit, a comma or a dot. *)
Definition amount_char (c : ascii) : bool :=
  is_digit c || Ascii.eqb c "," || Ascii.eqb c ".".

(** The amount computed from the result of the search for the damage. *)
Definition parsed_amount (found : option string) : pyval :=
  match found with
  | Some g =>
      match PyFloat.float_of_string (remove_char "$" (remove_char "," (strip g))) with
      | Some f => PFloat f
      | None => PInt 0
      end
  | None => PInt 0
  end.

(** The location that the heuristics draw from a description. *)
Definition fallback_location (description : string) : option string :=
  let desc := lower description in
  if contains "driveway" desc then Some "Driveway"
  else if contains "street" desc then
    option_map title (Re.search street_pattern desc)
  else if contains "parking" desc then Some "Parking lot/garage"
  else if contains "intersection" desc then
    option_map title (Re.search intersection_pattern desc)
  else None.

(** What [extract_fields] stores under the names [keys]. *)
Definition extracted_values (text : string) (keys : list string)
    : result (list (option pyval)) :=
  extracted ← extract_fields text;
  Ok (map (fun k => extracted !! k) keys).

(** The route recommended for a document text by the steps 2 to 5 of
    [process_claim], with the missing fields and the fraud indicators. *)
Definition route_of_text (text : string) : result (string * list string * list string) :=
  extracted ← extract_fields text;
  let missing := validate_fields extracted in
  let fraud := check_for_fraud_indicators text in
  r ← RoutingEngine.determine_route extracted missing fraud;
  Ok (RoutingEngine.recommendedRoute r, missing, fraud).

(** The document of scenario A of the specification, with the given claim
    type and a last line. *)
Definition scenario (claim_type last_line : string) : string :=
  "POLICY NUMBER: ABC123" ++ String nl
  ("NAME OF INSURED: Jane Doe" ++ String nl
  ("DATE OF LOSS: 01/02/2024" ++ String nl
  ("LOCATION OF LOSS: 123 Main St" ++ String nl
  ("CLAIM TYPE: " ++ claim_type ++ String nl
  ("ESTIMATED DAMAGE: $5,000" ++ String nl last_line))))).

(** The strings of [l], one after the other. *)
Fixpoint flatten (l : list string) : string :=
  match l with
  | [] => EmptyString
  | x :: l' => x ++ flatten l'
  end.

(** [n] is within the bound [hi] of a repetition. *)
Definition within (hi : option nat) (n : nat) : Prop :=
  match hi with
  | Some h => (n <= h)%nat
  | None => True
  end.

(** The strings that a regular expression denotes, look-aheads and the end
    of line read nothing. *)
Fixpoint lang (r : Re.regex) (c : string) : Prop :=
  match r with
  | Re.Eps | Re.Look _ | Re.Eol => c = EmptyString
  | Re.Lit a => exists x, c = String x EmptyString /\ Re.lit_match a x = true
  | Re.Cls negated items =>
      exists x, c = String x EmptyString /\ Re.cls_match negated items x = true
  | Re.Seq r1 r2 => exists c1 c2, c = c1 ++ c2 /\ lang r1 c1 /\ lang r2 c2
  | Re.Alt r1 r2 => lang r1 c \/ lang r2 c
  | Re.Rep _ lo hi r' =>
      exists pieces, c = flatten pieces
                     /\ (lo <= length pieces)%nat
                     /\ within hi (length pieces)
                     /\ Forall (lang r') pieces
  end.

(** An expression that can match without reading a character. *)
Fixpoint nullable (r : Re.regex) : bool :=
  match r with
  | Re.Eps | Re.Look _ | Re.Eol => true
  | Re.Lit _ | Re.Cls _ _ => false
  | Re.Seq r1 r2 => nullable r1 && nullable r2
  | Re.Alt r1 r2 => nullable r1 || nullable r2
  | Re.Rep _ lo _ r' => match lo with O => true | S _ => nullable r' end
  end.

(** The characters with which a match of an expression can start. *)
Fixpoint first (r : Re.regex) (c : ascii) : bool :=
  match r with
  | Re.Eps | Re.Look _ | Re.Eol => false
  | Re.Lit a => Re.lit_match a c
  | Re.Cls negated items => Re.cls_match negated items c
  | Re.Seq r1 r2 => first r1 c || (nullable r1 && first r2 c)
  | Re.Alt r1 r2 => first r1 c || first r2 c
  | Re.Rep _ _ _ r' => first r' c
  end.

(** What a match reads is empty only for a nullable expression and
    otherwise starts with a character of the first set. *)
Definition starts_in (nul : bool) (fst : ascii -> bool) (c : string) : Prop :=
  match c with
  | EmptyString => nul = true
  | String x _ => fst x = true
  end.

(** The number written by a string of decimal digits after the digits
    that gave [acc]. *)
Fixpoint decimal_from (acc : Z) (s : string) : Z :=
  match s with
  | EmptyString => acc
  | String c s' => decimal_from (acc * 10 + PyFloat.digit_val c) s'
  end.

(** A plain decimal: digits, or digits, a dot and digits. *)
Definition plain_decimal (int_part frac_part : string) : Prop :=
  int_part <> EmptyString
  /\ all_chars is_digit int_part = true
  /\ all_chars is_digit frac_part = true.

(** The text of a plain decimal. *)
Definition decimal_text (int_part frac_part : string) : string :=
  match frac_part with
  | EmptyString => int_part
  | _ => int_part ++ String "." frac_part
  end.

(** The names of the mapping returned by [extract_fields]. *)
Definition EXTRACTED_KEYS : list string :=
  [ "policy_number"; "policyholder_name"; "effective_date"; "incident_date";
    "incident_time"; "incident_location"; "city_state_zip"; "claimant_name";
    "third_party"; "contact_phone"; "contact_email"; "asset_type";
    "vehicle_vin"; "vehicle_plate"; "claim_type"; "estimated_damage";
    "accident_description"; "estimated_damage_value" ].

(** A test that holds of the 256 characters. *)
Definition all_ascii (p : ascii -> bool) : bool :=
  forallb (fun n => p (ascii_of_nat n)) (seq 0 256).

(** Two digits, a slash or a hyphen, two digits, a slash or a hyphen, four
    digits. *)
Definition date_shape (s : string) : bool :=
  match s with
  | String a (String b (String s1 (String c (String d (String s2
      (String e (String f (String g (String h EmptyString))))))))) =>
      forallb is_digit [a; b; c; d; e; f; g; h]
      && forallb (fun x => Ascii.eqb x "/" || Ascii.eqb x "-") [s1; s2]
  | _ => false
  end.

(** A letter other than I, O and Q in either case, or a digit. *)
Definition vin_char (c : ascii) : bool :=
  (is_alpha c || is_digit c)
  && negb (existsb (Ascii.eqb (upper_char c)) ["I"; "O"; "Q"]%char).

(** A letter, a digit or a hyphen. *)
Definition policy_char (c : ascii) : bool :=
  is_alpha c || is_digit c || Ascii.eqb c "-".

(** A text without any letter. *)
Definition no_letter (text : string) : bool :=
  all_chars (fun c => negb (is_alpha c)) text.

(** The test of rule 3 on a claim type. *)
Definition is_injury_type (claim_type : string) : bool :=
  contains "injury" (lower claim_type)
  || contains "bodily" (lower claim_type)
  || contains "personal" (lower claim_type).

(** The test on the status of a result. *)
Definition succeeded (r : ClaimsProcessingAgent.claim_result) : bool :=
  String.eqb (ClaimsProcessingAgent.status r) "SUCCESS".

(** The reasoning of rule 1 when the six mandatory fields are missing. *)
Definition all_missing_reasoning : string :=
  "Missing mandatory fields: policy_number, policyholder_name, incident_date, incident_location, claim_type, estimated_damage".

(** A file system in which every path is a text file with the given
    text. *)
Definition txt_fs (text : string) : DocumentParser.env :=
  DocumentParser.Env (fun _ => true) (fun _ => ".txt") (fun _ => inr text) false
                     (fun _ => inl "").

(** A file system in which every path is a PDF with the given pages. *)
Definition pdf_fs (pages : list (option string)) : DocumentParser.env :=
  DocumentParser.Env (fun _ => true) (fun _ => ".pdf") (fun _ => inl "") true
                     (fun _ => inr pages).

(** A document like the one of scenario A, with a damage above the
    threshold. *)
Definition costly_scenario : string :=
  "POLICY NUMBER: ABC123" ++ String nl
  ("NAME OF INSURED: Jane Doe" ++ String nl
  ("DATE OF LOSS: 01/02/2024" ++ String nl
  ("LOCATION OF LOSS: 123 Main St" ++ String nl
  ("CLAIM TYPE: Auto" ++ String nl
  ("ESTIMATED DAMAGE: $50,000" ++ String nl ""))))).

(** The number of results with the given route, UNKNOWN standing for a
    result without a route. *)
Definition with_route (route : string) (results : list (option string)) : nat :=
  length (List.filter (fun result => String.eqb (default "UNKNOWN" result) route) results).

(** The characters of the texts that [float] reads: white space, letters
    (of inf, nan and the exponent), digits, the underscore, the dot and
    the signs. *)
Definition float_char (c : ascii) : bool :=
  PyStr.is_c_space c || PyStr.is_alpha c || PyStr.is_digit c
  || PyStr.in_list (String c EmptyString) ["_"; "."; "+"; "-"].


(** A form with the six mandatory fields, for a claim of type Auto. *)
Definition auto_form (damage : pyval) : gmap string pyval :=
  <["policy_number" := PStr "ABC123"]>
  (<["policyholder_name" := PStr "Jane Doe"]>
  (<["incident_date" := PStr "01/02/2024"]>
  (<["incident_location" := PStr "123 Main St"]>
  (<["claim_type" := PStr "Auto"]>
  (<["estimated_damage" := damage]> ∅))))).

(** A group of thousands: a comma and three digits. *)
Definition thousands_group (g : string) : Prop :=
  exists d, g = String "," d
            /\ String.length d = 3%nat
            /\ all_chars PyStr.is_digit d = true.

(** The cents: nothing, or a dot and two digits. *)
Definition cents_part (c : string) : Prop :=
  c = EmptyString
  \/ exists d, c = String "." d
               /\ String.length d = 2%nat
               /\ all_chars PyStr.is_digit d = true.

(** What a page of a PDF adds to the text of the document. *)
Definition page_text (page : option string) : string :=
  default "" page ++ String nl "".

(** [s.upper()] *)
Definition upper (s : string) : string := PyStr.map_chars PyStr.upper_char s.

(** A file system without any file. *)
Definition empty_fs : DocumentParser.env :=
  DocumentParser.Env (fun _ => false) (fun _ => "") (fun _ => inl "") false
                     (fun _ => inl "").

End Vocabulary.

(** * Properties *)

(** ** Strings *)

Section StringFacts.
Import PyStr.

Lemma append_nil (s : string) : "" ++ s = s.
Proof. reflexivity. Qed.

Lemma append_cons (c : ascii) (s t : string) : String c s ++ t = String c (s ++ t).
Proof. reflexivity. Qed.

Lemma append_assoc (s t u : string) : (s ++ t) ++ u = s ++ t ++ u.
Proof. induction s as [|c s IH]; [done | by rewrite !append_cons, IH]. Qed.

Lemma append_empty_r (s : string) : s ++ "" = s.
Proof. induction s as [|c s IH]; [done | by rewrite append_cons, IH]. Qed.

Lemma length_append (s t : string) :
  String.length (s ++ t) = (String.length s + String.length t)%nat.
Proof. induction s as [|c s IH]; [done |]. rewrite append_cons. simpl. by rewrite IH. Qed.

Lemma startswith_spec p s :
  startswith p s = true <-> exists post, s = p ++ post.
Proof.
  revert s. induction p as [|a p IH]; intros s; simpl.
  - split; [intros _; by exists s | done].
  - destruct s as [|b s]; simpl.
    + split; [done | by intros [post H]].
    + rewrite andb_true_iff, IH, Ascii.eqb_eq. split.
      * intros [-> [post ->]]. by exists post.
      * intros [post H]. injection H as -> ->. eauto.
Qed.

(** [needle in hay] holds exactly when [hay] has a slice equal to
    [needle]. *)
Lemma contains_spec needle hay :
  contains needle hay = true <-> exists before after, hay = before ++ needle ++ after.
Proof.
  induction hay as [|c hay IH]; simpl.
  - rewrite orb_false_r, startswith_spec. split.
    + intros [post H]. by exists "", post.
    + intros [[|b before] [after H]]; simpl in H; [eauto | done].
  - rewrite orb_true_iff, startswith_spec, IH. split.
    + intros [[post H] | (before & after & ->)].
      * by exists "", post.
      * by exists (String c before), after.
    + intros [[|b before] [after H]]; simpl in H.
      * left. eauto.
      * injection H as -> ->. right. eauto.
Qed.

Lemma map_chars_app f s1 s2 :
  map_chars f (s1 ++ s2) = map_chars f s1 ++ map_chars f s2.
Proof. induction s1 as [|c s1 IH]; simpl; [done | by rewrite IH]. Qed.

Lemma map_chars_app_inv f s a b :
  map_chars f s = a ++ b ->
  exists s1 s2, s = s1 ++ s2 /\ map_chars f s1 = a /\ map_chars f s2 = b.
Proof.
  revert s. induction a as [|c a IH]; intros s H; simpl in H.
  - by exists "", s.
  - destruct s as [|d s]; simpl in H; [done |].
    injection H as Hc H. destruct (IH _ H) as (s1 & s2 & -> & H1 & H2).
    exists (String d s1), s2. simpl. by rewrite Hc, H1.
Qed.

Lemma in_list_spec x l : in_list x l = true <-> In x l.
Proof.
  unfold in_list. rewrite existsb_exists. split.
  - intros (y & Hy & Heq). apply String.eqb_eq in Heq. by subst.
  - intros H. exists x. split; [done | apply String.eqb_refl].
Qed.

End StringFacts.

(** ** Loops that collect the elements passing a test *)

Section Collect.
Context {A : Type}.

Lemma fold_collect (step : list A -> A -> list A) (p : A -> bool) (l acc : list A) :
  (forall out x, step out x = if p x then (out ++ [x])%list else out) ->
  fold_left step l acc = (acc ++ List.filter p l)%list.
Proof.
  intros Hstep. revert acc. induction l as [|x l IH]; intros acc; simpl.
  - by rewrite app_nil_r.
  - rewrite IH, Hstep. destruct (p x); [by rewrite <- app_assoc | done].
Qed.

Lemma list_filter_sublist (p : A -> bool) (l : list A) :
  sublist (List.filter p l) l.
Proof.
  induction l as [|x l IH]; simpl; [constructor |].
  destruct (p x); by constructor.
Qed.

End Collect.

(** ** [validate_fields] *)

Section Validate.
Import PyStr FieldExtractor.

Lemma validate_fields_filter d :
  validate_fields d = List.filter (is_missing d) MANDATORY_FIELDS.
Proof.
  unfold validate_fields. rewrite (fold_collect _ (is_missing d)); [done |].
  intros missing field. unfold is_missing.
  by destruct (truthy _), (is_placeholder _).
Qed.

Lemma MANDATORY_FIELDS_NoDup : NoDup MANDATORY_FIELDS.
Proof. apply (bool_decide_unpack _). by vm_compute. Qed.

Lemma validate_fields_In d field :
  In field (validate_fields d) <->
  In field MANDATORY_FIELDS /\ is_missing d field = true.
Proof. rewrite validate_fields_filter. apply filter_In. Qed.

End Validate.

Section ValidateClaims.
Import PyStr FieldExtractor.

(** C6: the list returned by [validate_fields] is a subsequence of
    [MANDATORY_FIELDS], which is the declared list of six names: its
    elements come in that order, none is repeated and none is outside
    the mandatory set. *)
Theorem validate_fields_subsequence (extracted_fields : gmap string pyval) :
  MANDATORY_FIELDS
    = [ "policy_number"; "policyholder_name"; "incident_date";
        "incident_location"; "claim_type"; "estimated_damage" ]
  /\ sublist (validate_fields extracted_fields) MANDATORY_FIELDS
  /\ NoDup (validate_fields extracted_fields)
  /\ (forall field, In field (validate_fields extracted_fields) ->
                    In field MANDATORY_FIELDS).
Proof.
  split; [done |]. rewrite validate_fields_filter.
  pose proof (list_filter_sublist (is_missing extracted_fields) MANDATORY_FIELDS) as Hsub.
  split; [done |]. split.
  - exact (sublist_NoDup _ _ MANDATORY_FIELDS_NoDup Hsub).
  - intros field Hin. by apply filter_In in Hin as [Hin _].
Qed.

(** C7 as stated fails: a mandatory field holding the empty string is
    reported missing although the value is neither absent nor a
    placeholder. *)
Lemma validate_fields_not_only_absent_or_placeholder :
  ~ (forall (extracted_fields : gmap string pyval) (field : string),
       In field MANDATORY_FIELDS ->
       (In field (validate_fields extracted_fields)
        <-> missing_as_specified extracted_fields field)).
Proof.
  intros H.
  destruct (H {[ "policy_number" := PStr "" ]} "policy_number") as [Hmissing _];
    [by left |].
  assert (Hin : In "policy_number"
                   (validate_fields {[ "policy_number" := PStr "" ]})).
  { vm_compute. by left. }
  apply Hmissing in Hin. vm_compute in Hin.
  repeat (destruct Hin as [Hin | Hin]; [discriminate Hin |]). exact Hin.
Qed.

(** C7, amended: a mandatory field is reported missing exactly when its
    stored value is falsy (absent, [None], the empty string, a zero
    number) or is a string whose lower-cased, trimmed form is one of the
    eight placeholders; the values "N/A", " na " and "Unknown" count as
    missing. *)
Theorem validate_fields_missing_iff (extracted_fields : gmap string pyval)
    (field : string) :
  In field MANDATORY_FIELDS ->
  (In field (validate_fields extracted_fields)
   <-> truthy (dict_get extracted_fields field) = false
       \/ exists s, dict_get extracted_fields field = PStr s
                    /\ In (strip (lower s))
                          [ "not"; "not provided"; "n/a"; "na"; "unknown";
                            "incomplete"; "insufficient"; "missing" ])
  /\ (forall s, In s ["N/A"; " na "; "Unknown"] ->
                extracted_fields !! field = Some (PStr s) ->
                In field (validate_fields extracted_fields)).
Proof.
  intros Hfield. split.
  - rewrite validate_fields_In. unfold is_missing.
    rewrite orb_true_iff, negb_true_iff. split.
    + intros [_ [Hfalsy | Hplace]]; [by left | right].
      destruct (dict_get extracted_fields field) as [|s| |]; try discriminate Hplace.
      exists s. split; [done |]. by apply in_list_spec.
    + intros [Hfalsy | (s & Hs & Hin)]; (split; [done |]); [by left | right].
      rewrite Hs. by apply in_list_spec.
  - intros s Hs Hlookup. apply validate_fields_In. split; [done |].
    unfold is_missing, dict_get. rewrite Hlookup. simpl.
    simpl in Hs. destruct Hs as [<- | [<- | [<- | []]]]; by vm_compute.
Qed.

Lemma validate_fields_missing_iff_witness :
  In "claim_type" (validate_fields {[ "claim_type" := PStr " na " ]}).
Proof.
  refine (proj2 (validate_fields_missing_iff
                   {[ "claim_type" := PStr " na " ]} "claim_type" _) " na " _ _).
  - vm_compute. tauto.
  - vm_compute. tauto.
  - reflexivity.
Defined.

(** C10: a mandatory field that holds the empty string, a value that is
    neither absent nor a placeholder, is reported missing, as every falsy
    value is. *)
Theorem validate_fields_empty_string (extracted_fields : gmap string pyval)
    (field : string) :
  In field MANDATORY_FIELDS ->
  extracted_fields !! field = Some (PStr "") ->
  In field (validate_fields extracted_fields)
  /\ ~ In (strip (lower "")) placeholder_values
  /\ (forall v, truthy v = false ->
                extracted_fields !! field = Some v ->
                In field (validate_fields extracted_fields)).
Proof.
  intros Hfield Hlookup. split; [| split].
  - apply validate_fields_In. split; [done |].
    unfold is_missing, dict_get. by rewrite Hlookup.
  - vm_compute. intros H.
    repeat (destruct H as [H | H]; [discriminate H |]). exact H.
  - intros v Hv Hlookup'. apply validate_fields_In. split; [done |].
    unfold is_missing, dict_get. rewrite Hlookup'. simpl. by rewrite Hv.
Qed.

Lemma validate_fields_empty_string_witness :
  In "incident_date" (validate_fields {[ "incident_date" := PStr "" ]}).
Proof.
  refine (proj1 (validate_fields_empty_string
                   {[ "incident_date" := PStr "" ]} "incident_date" _ _)).
  - vm_compute. tauto.
  - reflexivity.
Defined.

End ValidateClaims.

(** ** [check_for_fraud_indicators] *)

Section Fraud.
Import PyStr FieldExtractor.

Lemma check_for_fraud_indicators_filter text :
  check_for_fraud_indicators text
  = List.filter (fun keyword => contains keyword (lower text)) fraud_keywords.
Proof.
  unfold check_for_fraud_indicators.
  by apply (fold_collect _ (fun keyword => contains keyword (lower text))).
Qed.

(** The test [keyword in text.lower()] finds the occurrences of a
    lower-case keyword up to case. *)
Lemma contains_lower keyword text :
  lower keyword = keyword ->
  contains keyword (lower text) = true <-> occurs_ignoring_case keyword text.
Proof.
  intros Hkw. rewrite contains_spec. unfold occurs_ignoring_case, lower. split.
  - intros (a & b & H).
    apply map_chars_app_inv in H as (before & rest & -> & <- & H).
    apply map_chars_app_inv in H as (mid & after & -> & Hmid & <-).
    by exists before, mid, after.
  - intros (before & mid & after & -> & <-).
    exists (map_chars lower_char before), (map_chars lower_char after).
    by rewrite !map_chars_app.
Qed.

(** C8: the result holds exactly the keywords of the fixed list that occur
    in the text up to case, with no condition on what surrounds the
    occurrence; each is listed once and in the order of the fixed list. *)
Theorem check_for_fraud_indicators_spec (text : string) :
  fraud_keywords = ["fraud"; "inconsistent"; "staged"; "suspicious"; "falsified"]
  /\ (forall keyword,
        In keyword (check_for_fraud_indicators text)
        <-> In keyword fraud_keywords /\ occurs_ignoring_case keyword text)
  /\ NoDup (check_for_fraud_indicators text)
  /\ sublist (check_for_fraud_indicators text) fraud_keywords.
Proof.
  split; [done |]. rewrite check_for_fraud_indicators_filter.
  pose proof (list_filter_sublist (fun keyword => contains keyword (lower text))
                fraud_keywords) as Hsub.
  split; [| split; [| done]].
  - intros keyword. rewrite filter_In. split.
    + intros [Hin Hc]. split; [done |]. apply contains_lower; [| done].
      simpl in Hin. by repeat (destruct Hin as [<- | Hin]; [by vm_compute |]).
    + intros [Hin Hc]. split; [done |]. apply contains_lower; [| done].
      simpl in Hin. by repeat (destruct Hin as [<- | Hin]; [by vm_compute |]).
  - refine (sublist_NoDup _ _ _ Hsub). apply (bool_decide_unpack _). by vm_compute.
Qed.

End Fraud.

(** ** [determine_route] *)

Section Routing.
Import PyStr RoutingEngine.

(** One direction of an equivalence between an order on [Q] and a
    boolean, after a case analysis on the integer comparison. *)
Ltac order_case Hp :=
  first
    [ done
    | let q := fresh "q" in
      let Hq := fresh "Hq" in
      intros (q & [= <-] & Hq); unfold Qlt, Qle in Hq; simpl in Hq;
      try rewrite Hp in Hq; first [done | exfalso; lia]
    | let Hb := fresh "Hb" in
      intros Hb; first
        [ discriminate Hb
        | eexists; split; [reflexivity |]; unfold Qlt, Qle; simpl;
          try rewrite Hp; lia ] ].

(** The comparison of the code agrees with the order of the rationals. *)
Lemma less_than_below v z b :
  less_than v z = Ok b ->
  (below v z <-> b = true) /\ (at_or_above v z <-> b = false)
  \/ v = PFloat S754_nan.
Proof.
  destruct v as [|s|x|f]; simpl; try discriminate.
  - intros [= <-]. left. unfold below, at_or_above, Qvalue.
    destruct (Z.ltb_spec x z); split; split; order_case I.
  - intros [= <-]. destruct f as [sg|sg| |sg m e]; [| | by right |]; left.
    + unfold below, at_or_above, Qvalue, PyFloat.lt_int, PyFloat.compare_int.
      destruct (Z.compare_spec 0 z); split; split; order_case I.
    + unfold below, at_or_above, PyFloat.lt_int, PyFloat.compare_int.
      by destruct sg.
    + unfold below, at_or_above, Qvalue, PyFloat.lt_int, PyFloat.compare_int.
      set (n := if sg then Z.neg m else Z.pos m).
      destruct (Z.leb_spec 0 e) as [He | He].
      * destruct (Z.compare_spec (n * 2 ^ e) z); split; split; order_case I.
      * assert (Hp : Z.pos (Z.to_pos (2 ^ (- e))) = 2 ^ (- e)).
        { apply Z2Pos.id, Z.pow_pos_nonneg; lia. }
        destruct (Z.compare_spec n (z * 2 ^ (- e))); split; split; order_case Hp.
Qed.

Lemma format_amount_ok v : is_amount v -> exists a, format_amount v = Ok a.
Proof.
  destruct v as [|s|x|f]; simpl; try done; [| by eauto].
  destruct (PyFloat.of_int x); by eauto.
Qed.

Lemma less_than_ok v : is_amount v -> exists b, less_than v FAST_TRACK_THRESHOLD = Ok b.
Proof. destruct v; simpl; try done; by eauto. Qed.

Lemma nonempty_test {A} `{EqDecision A} (l : list A) :
  l <> [] -> negb (bool_decide (l = [])) = true.
Proof. intros H. by rewrite bool_decide_eq_false_2. Qed.

(** C1 fails on the code: with no missing field and no fraud indicator,
    a mapping that stores [None] for [claim_type], the value the extractor
    stores for an absent field, makes [determine_route] raise
    [AttributeError]; the default of [get] only covers a mapping without
    the key. *)
Theorem determine_route_raises_on_None_claim_type :
  determine_route {[ "claim_type" := PNone; "estimated_damage_value" := PInt 0 ]} [] []
  = Raise AttributeError
  /\ exists r, determine_route {[ "estimated_damage_value" := PInt 0 ]} [] [] = Ok r
               /\ recommendedRoute r = "FAST_TRACK".
Proof. split; [by vm_compute | eexists; split; by vm_compute]. Qed.

(** C2: the rules are tried in the order missing fields, fraud
    indicators, claim type, damage: a non-empty list of missing fields
    gives MANUAL_REVIEW whatever the fraud indicators are, an empty list
    of missing fields with a non-empty list of fraud indicators gives
    INVESTIGATION_FLAG whatever the claim type is, and with both lists
    empty a claim type that contains "injury", "bodily" or "personal"
    gives SPECIALIST_QUEUE whatever the damage is. *)
Theorem determine_route_precedence (extracted_fields : gmap string pyval)
    (missing_fields fraud_indicators : list string) :
  (missing_fields <> [] ->
   exists r, determine_route extracted_fields missing_fields fraud_indicators = Ok r
             /\ recommendedRoute r = "MANUAL_REVIEW")
  /\ (missing_fields = [] -> fraud_indicators <> [] ->
      exists r, determine_route extracted_fields missing_fields fraud_indicators = Ok r
                /\ recommendedRoute r = "INVESTIGATION_FLAG")
  /\ (forall claim_type,
        missing_fields = [] -> fraud_indicators = [] ->
        dict_get_default extracted_fields "claim_type" (PStr "") = PStr claim_type ->
        contains "injury" (lower claim_type) = true
        \/ contains "bodily" (lower claim_type) = true
        \/ contains "personal" (lower claim_type) = true ->
        exists r, determine_route extracted_fields missing_fields fraud_indicators = Ok r
                  /\ recommendedRoute r = "SPECIALIST_QUEUE").
Proof.
  unfold determine_route. split; [| split].
  - intros Hm. rewrite (nonempty_test _ Hm). by eexists.
  - intros -> Hf. simpl. rewrite (nonempty_test _ Hf). by eexists.
  - intros claim_type -> -> Hct Hinjury. simpl. rewrite Hct. simpl.
    assert (Hany : contains "injury" (lower claim_type)
                   || contains "bodily" (lower claim_type)
                   || contains "personal" (lower claim_type) = true).
    { rewrite !orb_true_iff. tauto. }
    rewrite Hany. by eexists.
Qed.

Lemma determine_route_precedence_witness :
  (exists r, determine_route {[ "claim_type" := PStr "Auto" ]}
               ["policy_number"] ["fraud"; "staged"] = Ok r
             /\ recommendedRoute r = "MANUAL_REVIEW")
  /\ (exists r, determine_route {[ "claim_type" := PStr "Bodily Injury" ]}
                  [] ["staged"] = Ok r
                /\ recommendedRoute r = "INVESTIGATION_FLAG")
  /\ (exists r, determine_route
                  {[ "claim_type" := PStr "Bodily Injury";
                     "estimated_damage_value" := PInt 100 ]} [] [] = Ok r
                /\ recommendedRoute r = "SPECIALIST_QUEUE").
Proof.
  split; [| split].
  - apply (determine_route_precedence
             {[ "claim_type" := PStr "Auto" ]} ["policy_number"] ["fraud"; "staged"]).
    discriminate.
  - apply (determine_route_precedence
             {[ "claim_type" := PStr "Bodily Injury" ]} [] ["staged"]).
    + reflexivity.
    + discriminate.
  - apply (proj2 (proj2 (determine_route_precedence
                           {[ "claim_type" := PStr "Bodily Injury";
                              "estimated_damage_value" := PInt 100 ]} [] []))
             "Bodily Injury").
    + reflexivity.
    + reflexivity.
    + reflexivity.
    + left. reflexivity.
Defined.

(** C3: with no missing field, no fraud indicator and a claim type that
    contains none of "injury", "bodily", "personal", the damage value is
    compared with the threshold 25000: a value strictly below it gives
    FAST_TRACK, a value equal to or above it gives STANDARD_REVIEW. *)
Theorem determine_route_threshold (extracted_fields : gmap string pyval)
    (claim_type : string) (damage_value : pyval) :
  dict_get_default extracted_fields "claim_type" (PStr "") = PStr claim_type ->
  contains "injury" (lower claim_type) = false ->
  contains "bodily" (lower claim_type) = false ->
  contains "personal" (lower claim_type) = false ->
  dict_get_default extracted_fields "estimated_damage_value" (PInt 0) = damage_value ->
  is_amount damage_value ->
  FAST_TRACK_THRESHOLD = 25000
  /\ (below damage_value 25000 ->
      exists r, determine_route extracted_fields [] [] = Ok r
                /\ recommendedRoute r = "FAST_TRACK")
  /\ (at_or_above damage_value 25000 ->
      exists r, determine_route extracted_fields [] [] = Ok r
                /\ recommendedRoute r = "STANDARD_REVIEW").
Proof.
  intros Hct Hinjury Hbodily Hpersonal Hdv Hamount. split; [done |].
  unfold determine_route. simpl. rewrite Hct. simpl.
  rewrite Hinjury, Hbodily, Hpersonal, Hdv. simpl.
  destruct (less_than_ok _ Hamount) as [low Hlow].
  destruct (format_amount_ok _ Hamount) as [amount Hfmt].
  rewrite Hlow, Hfmt. simpl.
  destruct (less_than_below _ _ _ Hlow) as [[Hbelow Habove] | ->].
  - split; intros H.
    + apply Hbelow in H as ->. by eexists.
    + apply Habove in H as ->. by eexists.
  - split; intros (q & [=] & _).
Qed.

Lemma determine_route_threshold_witness :
  (exists r, determine_route
               {[ "claim_type" := PStr "Auto";
                  "estimated_damage_value" :=
                    PFloat (S754_finite false 6871944924820931 (-38)) ]} [] [] = Ok r
             /\ recommendedRoute r = "FAST_TRACK")
  /\ (exists r, determine_route
                  {[ "claim_type" := PStr "Auto";
                     "estimated_damage_value" :=
                       PFloat (S754_finite false 6871947673600000 (-38)) ]} [] [] = Ok r
                /\ recommendedRoute r = "STANDARD_REVIEW").
Proof.
  split.
  - apply (determine_route_threshold
             {[ "claim_type" := PStr "Auto";
                "estimated_damage_value" :=
                  PFloat (S754_finite false 6871944924820931 (-38)) ]}
             "Auto" (PFloat (S754_finite false 6871944924820931 (-38))));
      try reflexivity.
    eexists. split; [reflexivity | by vm_compute].
  - apply (determine_route_threshold
             {[ "claim_type" := PStr "Auto";
                "estimated_damage_value" :=
                  PFloat (S754_finite false 6871947673600000 (-38)) ]}
             "Auto" (PFloat (S754_finite false 6871947673600000 (-38))));
      try reflexivity.
    eexists. split; [reflexivity | by vm_compute].
Defined.

End Routing.

(** ** [process_claim] on an unreadable document *)

Section Unreadable.
Import DocumentParser ClaimsProcessingAgent.

(** C5: when the parser fails on the document, the result has status
    FAILED, no extracted field, the whole list of mandatory fields in
    declaration order as missing fields, the route MANUAL_REVIEW and a
    reasoning that reports the failure of the parse; the route is not
    FAST_TRACK. *)
Theorem process_claim_unreadable (fs : env) (processed_count : nat)
    (path : string) (e : doc_error) :
  parse_document fs path = inl e ->
  exists r,
    process_claim fs processed_count path = Ok (r, processed_count)
    /\ status r = "FAILED"
    /\ extractedFields r = ∅
    /\ missingFields r
       = [ "policy_number"; "policyholder_name"; "incident_date";
           "incident_location"; "claim_type"; "estimated_damage" ]
    /\ missingFields r = FieldExtractor.MANDATORY_FIELDS
    /\ recommendedRoute r = "MANUAL_REVIEW"
    /\ reasoning r = "Document parsing failed: " ++ err_text e
    /\ error r = Some (err_text e)
    /\ recommendedRoute r <> "FAST_TRACK".
Proof.
  intros Hparse. unfold process_claim. rewrite Hparse.
  eexists. split; [reflexivity |]. simpl. by repeat split.
Qed.

Lemma process_claim_unreadable_witness :
  exists r,
    process_claim empty_fs 0 "claim.pdf" = Ok (r, 0%nat)
    /\ status r = "FAILED"
    /\ extractedFields r = ∅
    /\ missingFields r
       = [ "policy_number"; "policyholder_name"; "incident_date";
           "incident_location"; "claim_type"; "estimated_damage" ]
    /\ missingFields r = FieldExtractor.MANDATORY_FIELDS
    /\ recommendedRoute r = "MANUAL_REVIEW"
    /\ reasoning r = "Document parsing failed: Document not found: claim.pdf"
    /\ error r = Some "Document not found: claim.pdf"
    /\ recommendedRoute r <> "FAST_TRACK".
Proof.
  apply (process_claim_unreadable empty_fs 0 "claim.pdf"
           (DocError FileNotFoundError "Document not found: claim.pdf")).
  reflexivity.
Defined.

End Unreadable.

(** ** The matcher *)

Section Matcher.
Import PyStr Re.

Lemma all_chars_app p s1 s2 :
  all_chars p (s1 ++ s2) = all_chars p s1 && all_chars p s2.
Proof. induction s1 as [|c s1 IH]; simpl; [done | by rewrite IH, andb_assoc]. Qed.

Lemma all_chars_weaken (p q : ascii -> bool) s :
  (forall c, p c = true -> q c = true) -> all_chars p s = true -> all_chars q s = true.
Proof.
  intros Hpq. induction s as [|c s IH]; simpl; [done |].
  rewrite !andb_true_iff. intros [Hc Hs]. auto.
Qed.

Lemma reads_refl p s : reads p s s.
Proof. by exists "". Qed.

Lemma reads_trans p s1 s2 s3 : reads p s1 s2 -> reads p s2 s3 -> reads p s1 s3.
Proof.
  intros (c1 & -> & H1) (c2 & -> & H2). exists (c1 ++ c2).
  split; [by rewrite append_assoc | by rewrite all_chars_app, H1, H2].
Qed.

Lemma reads_weaken (p q : ascii -> bool) s rest :
  (forall c, p c = true -> q c = true) -> reads p s rest -> reads q s rest.
Proof. intros Hpq (c & -> & Hc). exists c. eauto using all_chars_weaken. Qed.

Lemma char_step_reads p s rest : In rest (char_step p s) -> reads p s rest.
Proof.
  destruct s as [|c s]; simpl; [done |]. destruct (p c) eqn:Hc; [| done].
  intros [<- | []]. exists (String c ""). split; [done |]. simpl. by rewrite Hc.
Qed.

Lemma rep_loop_reads (body : string -> list string) (p : ascii -> bool) greedy :
  (forall s rest, In rest (body s) -> reads p s rest) ->
  forall fuel lo hi s rest,
    In rest (rep_loop body greedy fuel lo hi s) -> reads p s rest.
Proof.
  intros Hbody. induction fuel as [|fuel IH]; intros lo hi s rest; simpl; [done |].
  assert (Hstop : In rest (match lo with O => [s] | S _ => [] end) -> reads p s rest).
  { destruct lo; [intros [<- | []]; apply reads_refl | done]. }
  assert (Hagain : forall l,
             In rest
               (flat_map
                  (fun s' =>
                     match lo with
                     | S lo' => rep_loop body greedy fuel lo' (dec_hi hi) s'
                     | O =>
                         if (String.length s' <? String.length s)%nat
                         then rep_loop body greedy fuel O (dec_hi hi) s'
                         else []
                     end) l) ->
             (forall s', In s' l -> reads p s s') -> reads p s rest).
  { intros l Hin Hl. apply in_flat_map in Hin as (s' & Hs' & Hin).
    apply (reads_trans _ _ s'); [by apply Hl |].
    destruct lo; [| by eapply IH].
    destruct (_ <? _)%nat; [by eapply IH | done]. }
  destruct greedy; rewrite in_app_iff; intros [H | H]; auto;
    (destruct hi as [[|h]|]; [done | |]; eapply Hagain; eauto).
Qed.

Lemma matches_reads r : forall s rest, In rest (matches r s) -> reads (accepts r) s rest.
Proof.
  induction r as [|a|negated items|r1 IH1 r2 IH2|r1 IH1 r2 IH2|greedy lo hi r IH|r IH|];
    intros s rest; [simpl .. | | simpl | simpl].
  - intros [<- | []]. apply reads_refl.
  - apply char_step_reads.
  - apply char_step_reads.
  - intros Hin. apply in_flat_map in Hin as (s' & H1 & H2).
    apply (reads_trans _ _ s').
    + eapply reads_weaken; [| by apply IH1]. intros c ->. done.
    + eapply reads_weaken; [| by apply IH2]. intros c ->. apply orb_true_r.
  - rewrite in_app_iff. intros [H | H].
    + eapply reads_weaken; [| by apply IH1]. intros c ->. done.
    + eapply reads_weaken; [| by apply IH2]. intros c ->. apply orb_true_r.
  - exact (rep_loop_reads (matches r) (accepts r) greedy IH
             (S (lo + String.length s)) lo hi s rest).
  - destruct (matches r s); [done |]. intros [<- | []]. apply reads_refl.
  - destruct s as [|c s]; [intros [<- | []]; apply reads_refl |].
    destruct (Ascii.eqb c "010"); [intros [<- | []]; apply reads_refl | done].
Qed.

Lemma reads_length p s rest :
  reads p s rest -> (String.length rest <= String.length s)%nat.
Proof. intros (c & -> & _). rewrite length_append. lia. Qed.

Lemma flat_map_ext_In {A B} (f g : A -> list B) (l : list A) :
  (forall x, In x l -> f x = g x) -> flat_map f l = flat_map g l.
Proof.
  induction l as [|x l IH]; intros H; simpl; [done |].
  rewrite (H x) by (by left). rewrite IH; [done |]. intros y Hy. apply H. by right.
Qed.

(** The fuel given to the loop by [matches] is enough: more fuel gives
    the same matches. *)
Lemma rep_loop_fuel (body : string -> list string) greedy :
  (forall s rest, In rest (body s) -> (String.length rest <= String.length s)%nat) ->
  forall fuel1 fuel2 lo hi s,
    (lo + String.length s < fuel1)%nat ->
    (lo + String.length s < fuel2)%nat ->
    rep_loop body greedy fuel1 lo hi s = rep_loop body greedy fuel2 lo hi s.
Proof.
  intros Hbody. induction fuel1 as [|fuel1 IH]; intros fuel2 lo hi s H1 H2; [lia |].
  destruct fuel2 as [|fuel2]; [lia |]. simpl.
  assert (Hagain :
            flat_map
              (fun s' =>
                 match lo with
                 | S lo' => rep_loop body greedy fuel1 lo' (dec_hi hi) s'
                 | O =>
                     if (String.length s' <? String.length s)%nat
                     then rep_loop body greedy fuel1 O (dec_hi hi) s'
                     else []
                 end) (body s)
            = flat_map
                (fun s' =>
                   match lo with
                   | S lo' => rep_loop body greedy fuel2 lo' (dec_hi hi) s'
                   | O =>
                       if (String.length s' <? String.length s)%nat
                       then rep_loop body greedy fuel2 O (dec_hi hi) s'
                       else []
                   end) (body s)).
  { apply flat_map_ext_In. intros s' Hs'. apply Hbody in Hs'.
    destruct lo as [|lo'].
    - destruct (Nat.ltb_spec (String.length s') (String.length s)); [| done].
      apply IH; lia.
    - apply IH; lia. }
  by rewrite Hagain.
Qed.

Lemma matches_Rep_fuel greedy lo hi r s fuel :
  (lo + String.length s < fuel)%nat ->
  rep_loop (matches r) greedy fuel lo hi s = matches (Rep greedy lo hi r) s.
Proof.
  intros Hfuel. apply rep_loop_fuel; [| done | simpl; lia].
  intros s0 rest Hin. eapply reads_length, matches_reads, Hin.
Qed.

Lemma consumed_app c rest : consumed (c ++ rest) rest = c.
Proof.
  unfold consumed.
  assert (Hlen : (String.length (c ++ rest) - String.length rest)%nat = String.length c).
  { rewrite length_append. lia. }
  rewrite Hlen. clear Hlen. induction c as [|a c IH]; simpl.
  - by destruct rest.
  - by rewrite IH.
Qed.

(** The value of the group is made of characters that the group
    accepts. *)
Lemma match_at_group p s g :
  In g (match_at p s) -> all_chars (accepts (grp p)) g = true.
Proof.
  unfold match_at. intros Hin.
  apply in_flat_map in Hin as (s1 & _ & Hin).
  apply in_flat_map in Hin as (s2 & Hgrp & Hin).
  apply in_map_iff in Hin as (s3 & <- & _).
  apply matches_reads in Hgrp as (c & -> & Hc). by rewrite consumed_app.
Qed.

Lemma search_group p s g :
  search p s = Some g -> all_chars (accepts (grp p)) g = true.
Proof.
  induction s as [|c s IH]; simpl.
  - destruct (match_at p "") as [|g' l] eqn:Hm; [done |].
    intros [= <-]. apply (match_at_group p ""). rewrite Hm. by left.
  - destruct (match_at p (String c s)) as [|g' l] eqn:Hm; [exact IH |].
    intros [= <-]. apply (match_at_group p (String c s)). rewrite Hm. by left.
Qed.

End Matcher.

(** ** Rounding to a float keeps the sign *)

Section FloatSign.
Import PyFloat.

Lemma shr_1_nonneg mrs : 0 <= shr_m mrs -> 0 <= shr_m (shr_1 mrs).
Proof. destruct mrs as [m r s]. destruct m as [|[p|p|]|p]; simpl; lia. Qed.

Lemma iter_pos_shr_1_nonneg n : forall mrs,
  0 <= shr_m mrs -> 0 <= shr_m (SpecFloat.iter_pos shr_1 n mrs).
Proof.
  induction n as [n IH|n IH|]; intros mrs H; simpl.
  - by apply IH, IH, shr_1_nonneg.
  - by apply IH, IH.
  - by apply shr_1_nonneg.
Qed.

Lemma shr_fexp_nonneg m e l :
  0 <= m -> 0 <= shr_m (fst (shr_fexp prec emax m e l)).
Proof.
  intros Hm. unfold shr_fexp, shr.
  assert (H0 : 0 <= shr_m (shr_record_of_loc m l)).
  { by destruct l as [|[]]. }
  destruct (fexp prec emax (Zdigits2 m + e) - e); simpl; [done | | done].
  by apply iter_pos_shr_1_nonneg.
Qed.

Lemma round_nearest_even_nonneg m l : 0 <= m -> 0 <= round_nearest_even m l.
Proof. intros Hm. destruct l as [|[]]; simpl; [done | | done | lia].
       destruct (Z.even m); lia. Qed.

(** Rounding a magnitude that is zero or more gives a float that is zero
    or more, never a NaN. *)
Lemma binary_round_aux_nonneg m e l :
  0 <= m -> ge_int (binary_round_aux prec emax false m e l) 0 = true.
Proof.
  intros Hm. unfold binary_round_aux.
  pose proof (shr_fexp_nonneg m e l Hm) as H1.
  destruct (shr_fexp prec emax m e l) as [mrs' e'] eqn:E1. simpl in H1.
  pose proof (shr_fexp_nonneg
                (round_nearest_even (shr_m mrs') (loc_of_shr_record mrs')) e' loc_Exact
                (round_nearest_even_nonneg _ _ H1)) as H2.
  destruct (shr_fexp prec emax _ e' loc_Exact) as [mrs'' e''] eqn:E2. simpl in H2.
  destruct (shr_m mrs'') as [|p|p]; [done | | lia].
  destruct (e'' <=? emax - prec); [| done].
  unfold ge_int, compare_int. destruct (Z.leb_spec 0 e'') as [He | He].
  - assert (Hpos : 0 < Z.pos p * 2 ^ e'').
    { apply Z.mul_pos_pos; [done | by apply Z.pow_pos_nonneg]. }
    apply Z.lt_gt in Hpos. unfold Z.gt in Hpos. by rewrite Hpos.
  - by rewrite Z.mul_0_l.
Qed.

Lemma of_ratio_nonneg n d : ge_int (of_ratio false n d) 0 = true.
Proof.
  unfold of_ratio, SFdiv, SFdiv_core_binary.
  set (e' := Z.min _ _). set (m' := match 0 - 0 - e' with Z0 => _ | Zpos _ => _ | Zneg _ => _ end).
  assert (Hm' : 0 <= m').
  { subst m'. destruct (0 - 0 - e'); [done | | done]. by apply Z.shiftl_nonneg. }
  pose proof (Z.div_pos m' (Z.pos d) Hm' eq_refl) as Hq.
  unfold Z.div in Hq. destruct (Z.div_eucl m' (Z.pos d)) as [q r].
  by apply binary_round_aux_nonneg.
Qed.

Lemma of_decimal_nonneg n e : ge_int (of_decimal false n e) 0 = true.
Proof.
  unfold of_decimal. destruct n; [done | | done].
  destruct (0 <=? e); apply of_ratio_nonneg.
Qed.

End FloatSign.

(** ** [float] on a string of digits and dots *)

Section FloatOfDigits.
Import PyStr PyFloat.

Lemma all_chars_lstrip p q s :
  all_chars p s = true -> all_chars p (lstrip_by q s) = true.
Proof.
  induction s as [|c s IH]; simpl; [done |].
  destruct (q c); [| done]. rewrite andb_true_iff. intros [_ H]. auto.
Qed.

Lemma all_chars_rstrip p q s :
  all_chars p s = true -> all_chars p (rstrip_by q s) = true.
Proof.
  induction s as [|c s IH]; simpl; [done |].
  rewrite andb_true_iff. intros [Hc Hs]. specialize (IH Hs).
  destruct (rstrip_by q s) as [|d r].
  - destruct (q c); [done |]. simpl. by rewrite Hc.
  - simpl in *. by rewrite Hc.
Qed.

Lemma all_chars_strip_by p q s :
  all_chars p s = true -> all_chars p (strip_by q s) = true.
Proof. intros H. by apply all_chars_rstrip, all_chars_lstrip. Qed.

Lemma all_chars_strip p s : all_chars p s = true -> all_chars p (strip s) = true.
Proof. apply all_chars_strip_by. Qed.

Lemma all_chars_remove_char p a s :
  all_chars p s = true -> all_chars p (remove_char a s) = true.
Proof.
  induction s as [|c s IH]; simpl; [done |].
  rewrite andb_true_iff. intros [Hc Hs].
  destruct (Ascii.eqb c a); [auto |]. simpl. rewrite Hc. auto.
Qed.

Lemma parse_sign_amount s :
  all_chars amount_char s = true -> parse_sign s = (false, s).
Proof.
  destruct s as [|c s]; [done |]. simpl. rewrite andb_true_iff. intros [Hc _].
  destruct c as [[] [] [] [] [] [] [] []]; try discriminate Hc; reflexivity.
Qed.

Lemma lower_amount_not_nan s :
  all_chars amount_char s = true -> String.eqb (lower s) "nan" = false.
Proof.
  destruct s as [|c s]; [done |]. simpl. rewrite andb_true_iff. intros [Hc _].
  destruct c as [[] [] [] [] [] [] [] []]; try discriminate Hc; reflexivity.
Qed.

(** [float] of a string of digits, commas and dots is a float that is
    zero or more, when it is a float. *)
Lemma float_of_string_amount s f :
  all_chars amount_char s = true ->
  float_of_string s = Some f -> ge_int f 0 = true.
Proof.
  intros Hs. unfold float_of_string.
  rewrite (parse_sign_amount _ (all_chars_strip_by _ is_c_space _ Hs)).
  destruct (in_list _ _); [by intros [= <-] |].
  rewrite (lower_amount_not_nan _ (all_chars_strip_by _ is_c_space _ Hs)).
  destruct (parse_number _) as [[[n k] r]|]; [| done].
  destruct (parse_exponent r) as [e|]; [| done].
  intros [= <-]. apply of_decimal_nonneg.
Qed.

End FloatOfDigits.

(** ** [extract_fields] *)

Section Extract.
Import PyStr Re FieldExtractor.

Lemma store_field text (extracted : gmap string pyval) k p :
  match search p text with
  | Some g => <[k := PStr (strip g)]> extracted
  | None => <[k := PNone]> extracted
  end = <[k := field_value p text]> extracted.
Proof. unfold field_value. by destruct (search p text). Qed.

Lemma fold_patterns_other text (l : list (string * pattern)) :
  forall (acc : gmap string pyval) k,
    k ∉ l.*1 ->
    fold_left
      (fun extracted '(field_name, pattern) =>
         match search pattern text with
         | Some g => <[field_name := PStr (strip g)]> extracted
         | None => <[field_name := PNone]> extracted
         end) l acc !! k = acc !! k.
Proof.
  induction l as [|[k' p'] l IH]; intros acc k Hk; simpl; [done |].
  rewrite fmap_cons, not_elem_of_cons in Hk. destruct Hk as [Hne Hk].
  rewrite IH by done. rewrite store_field. by apply lookup_insert_ne.
Qed.

Lemma fold_patterns_lookup text (l : list (string * pattern)) :
  forall (acc : gmap string pyval) k p,
    NoDup l.*1 -> (k, p) ∈ l ->
    fold_left
      (fun extracted '(field_name, pattern) =>
         match search pattern text with
         | Some g => <[field_name := PStr (strip g)]> extracted
         | None => <[field_name := PNone]> extracted
         end) l acc !! k = Some (field_value p text).
Proof.
  induction l as [|[k' p'] l IH]; intros acc k p Hnd Hin; simpl.
  - by apply elem_of_nil in Hin.
  - rewrite fmap_cons, NoDup_cons in Hnd. destruct Hnd as [Hfresh Hnd].
    apply elem_of_cons in Hin as [[= -> ->] | Hin].
    + rewrite fold_patterns_other by done. rewrite store_field.
      apply lookup_insert_eq.
    + by apply IH.
Qed.

Lemma FIELD_PATTERNS_NoDup : NoDup FIELD_PATTERNS.*1.
Proof. apply (bool_decide_unpack _). by vm_compute. Qed.

(** After the loop, the mapping holds for each field what the search for
    its pattern gave. *)
Lemma match_patterns_lookup text k p :
  (k, p) ∈ FIELD_PATTERNS -> match_patterns text !! k = Some (field_value p text).
Proof. apply fold_patterns_lookup, FIELD_PATTERNS_NoDup. Qed.

Lemma match_patterns_incident_location text :
  match_patterns text !! "incident_location"
  = Some (field_value incident_location_re text).
Proof. apply match_patterns_lookup, (list_elem_of_lookup_2 _ 5%nat). reflexivity. Qed.

Lemma match_patterns_estimated_damage text :
  match_patterns text !! "estimated_damage"
  = Some (field_value estimated_damage_re text).
Proof. apply match_patterns_lookup, (list_elem_of_lookup_2 _ 15%nat). reflexivity. Qed.

Lemma match_patterns_accident_description text :
  match_patterns text !! "accident_description"
  = Some (field_value accident_description_re text).
Proof. apply match_patterns_lookup, (list_elem_of_lookup_2 _ 16%nat). reflexivity. Qed.

(** The fallback when the location is falsy and the description is a
    string. *)
Lemma location_fallback_eq (d : gmap string pyval) description :
  truthy (dict_get d "incident_location") = false ->
  d !! "accident_description" = Some (PStr description) ->
  location_fallback d
  = Ok (match fallback_location description with
        | Some l => <["incident_location" := PStr l]> d
        | None => d
        end).
Proof.
  intros Hloc Hdesc. unfold location_fallback, fallback_location, dict_get.
  rewrite Hdesc. fold (dict_get d "incident_location"). rewrite Hloc. simpl.
  destruct description as [|c description]; [reflexivity |].
  change (negb (String c description =? "")%string) with true. cbv iota.
  destruct (contains "driveway" _); [done |].
  destruct (contains "street" _); [by destruct (search street_pattern _) |].
  destruct (contains "parking" _); [done |].
  destruct (contains "intersection" _); [by destruct (search intersection_pattern _) |].
  done.
Qed.

(** The fallback raises nothing on the mapping built by the loop and
    changes the location only. *)
Lemma location_fallback_ok text :
  exists d, location_fallback (match_patterns text) = Ok d
            /\ forall k, k <> "incident_location" -> d !! k = match_patterns text !! k.
Proof.
  destruct (truthy (dict_get (match_patterns text) "incident_location")) eqn:Hloc.
  { exists (match_patterns text). split; [| done].
    unfold location_fallback. by rewrite Hloc. }
  pose proof (match_patterns_accident_description text) as Hdesc.
  unfold field_value in Hdesc.
  destruct (search accident_description_re text) as [g|].
  - rewrite (location_fallback_eq _ _ Hloc Hdesc).
    destruct (fallback_location _) as [l|]; eexists; (split; [done |]);
      intros k Hk; [by rewrite lookup_insert_ne | done].
  - exists (match_patterns text). split; [| done].
    unfold location_fallback, dict_get at 2. rewrite Hdesc.
    change (truthy (default PNone (Some PNone))) with false.
    by rewrite andb_false_r.
Qed.

Lemma damage_value_eq (d : gmap string pyval) text :
  d !! "estimated_damage" = Some (field_value estimated_damage_re text) ->
  damage_value d
  = Ok (<["estimated_damage_value" := parsed_amount (search estimated_damage_re text)]> d).
Proof.
  intros Hd. unfold damage_value, dict_get, parsed_amount. rewrite Hd.
  unfold field_value. destruct (search estimated_damage_re text) as [g|]; [| done].
  simpl. destruct (strip g) as [|c s] eqn:Hg; [done |]. simpl.
  by destruct (PyFloat.float_of_string _).
Qed.

(** [extract_fields] raises nothing; its result is the mapping of the loop
    with the location possibly replaced and the amount added. *)
Lemma extract_fields_ok text :
  exists d,
    location_fallback (match_patterns text) = Ok d
    /\ extract_fields text
       = Ok (<["estimated_damage_value" := parsed_amount (search estimated_damage_re text)]> d)
    /\ forall k, k <> "incident_location" -> d !! k = match_patterns text !! k.
Proof.
  destruct (location_fallback_ok text) as (d & Hd & Hother).
  exists d. split; [done |]. split; [| done].
  unfold extract_fields. rewrite Hd. simpl. apply damage_value_eq.
  rewrite Hother by done. apply match_patterns_estimated_damage.
Qed.

Lemma estimated_damage_group text g :
  search estimated_damage_re text = Some g -> all_chars amount_char g = true.
Proof.
  intros H. apply search_group in H. revert H. apply all_chars_weaken.
  intros c. destruct c as [[] [] [] [] [] [] [] []]; by vm_compute.
Qed.

Lemma parsed_amount_nonneg text : nonneg (parsed_amount (search estimated_damage_re text)).
Proof.
  unfold parsed_amount.
  destruct (search estimated_damage_re text) as [g|] eqn:Hg; [| done].
  destruct (PyFloat.float_of_string _) as [f|] eqn:Hf; [| done].
  simpl. apply float_of_string_amount in Hf; [done |].
  by apply all_chars_remove_char, all_chars_remove_char, all_chars_strip,
    (estimated_damage_group text).
Qed.

End Extract.

Section ExtractClaims.
Import PyStr Re FieldExtractor.

(** C4: for every text, the mapping returned by [extract_fields] holds
    under [estimated_damage_value] a number that is zero or more: when
    the damage was matched, the float parsed from the matched string
    without its dollar signs and commas, or 0 if the parse fails; 0 when
    the damage was not matched.  The string "12,345.67" gives the float
    12345.67. *)
Theorem estimated_damage_value_spec (text : string) :
  (exists extracted v,
      extract_fields text = Ok extracted
      /\ extracted !! "estimated_damage_value" = Some v
      /\ nonneg v
      /\ match search estimated_damage_re text with
         | Some g =>
             extracted !! "estimated_damage" = Some (PStr (strip g))
             /\ v = match PyFloat.float_of_string
                            (remove_char "$" (remove_char "," (strip g))) with
                    | Some f => PFloat f
                    | None => PInt 0
                    end
         | None =>
             extracted !! "estimated_damage" = Some PNone /\ v = PInt 0
         end)
  /\ extracted_values "ESTIMATED DAMAGE: $12,345.67"
       ["estimated_damage"; "estimated_damage_value"]
     = Ok [ Some (PStr "12,345.67");
            Some (PFloat (S754_finite false 6787103858842665 (-39))) ]
  /\ PyFloat.float_of_string "12345.67"
     = Some (S754_finite false 6787103858842665 (-39))
  /\ (exists q, Qvalue (PFloat (S754_finite false 6787103858842665 (-39))) = Some q
                /\ (Qabs (q - (1234567 # 100)) <= 1 # (2 ^ 40))%Q)
  /\ extracted_values "CLAIM TYPE: Auto"
       ["estimated_damage"; "estimated_damage_value"]
     = Ok [Some PNone; Some (PInt 0)].
Proof.
  split; [| split; [| split; [| split]]].
  - destruct (extract_fields_ok text) as (d & _ & Hex & Hother).
    eexists _, _. split; [exact Hex |]. split; [apply lookup_insert_eq |].
    split; [apply parsed_amount_nonneg |].
    pose proof (match_patterns_estimated_damage text) as Hm.
    unfold field_value in Hm. unfold parsed_amount.
    destruct (search estimated_damage_re text) as [g|];
      (split; [| done]); rewrite lookup_insert_ne by done;
      by rewrite Hother.
  - vm_compute. reflexivity.
  - vm_compute. reflexivity.
  - eexists. split; [reflexivity |]. vm_compute. discriminate.
  - vm_compute. reflexivity.
Qed.

(** C9: when the patterns leave the location absent and the description
    present, the heuristics are tried on the lower-cased description in
    the order driveway, street, parking, intersection, and only the first
    whose trigger occurs applies; with no trigger the location stays
    absent. *)
Theorem location_fallback_precedence (text description : string) :
  match_patterns text !! "incident_location" = Some PNone ->
  match_patterns text !! "accident_description" = Some (PStr description) ->
  exists extracted,
    extract_fields text = Ok extracted
    /\ (contains "driveway" (lower description) = true ->
        extracted !! "incident_location" = Some (PStr "Driveway"))
    /\ (contains "driveway" (lower description) = false ->
        contains "street" (lower description) = true ->
        extracted !! "incident_location"
        = Some (match search street_pattern (lower description) with
                | Some g => PStr (title g)
                | None => PNone
                end))
    /\ (contains "driveway" (lower description) = false ->
        contains "street" (lower description) = false ->
        contains "parking" (lower description) = true ->
        extracted !! "incident_location" = Some (PStr "Parking lot/garage"))
    /\ (contains "driveway" (lower description) = false ->
        contains "street" (lower description) = false ->
        contains "parking" (lower description) = false ->
        contains "intersection" (lower description) = true ->
        extracted !! "incident_location"
        = Some (match search intersection_pattern (lower description) with
                | Some g => PStr (title g)
                | None => PNone
                end))
    /\ (contains "driveway" (lower description) = false ->
        contains "street" (lower description) = false ->
        contains "parking" (lower description) = false ->
        contains "intersection" (lower description) = false ->
        extracted !! "incident_location" = Some PNone).
Proof.
  intros Hloc Hdesc.
  destruct (extract_fields_ok text) as (d & Hd & Hex & _).
  eexists. split; [exact Hex |].
  assert (Hfalsy : truthy (dict_get (match_patterns text) "incident_location") = false).
  { unfold dict_get. by rewrite Hloc. }
  rewrite (location_fallback_eq _ _ Hfalsy Hdesc) in Hd. injection Hd as <-.
  unfold fallback_location.
  repeat split; intros; rewrite lookup_insert_ne by done;
    repeat match goal with
           | H : contains _ _ = _ |- _ => rewrite H; clear H
           end;
    try (by rewrite lookup_insert_eq);
    try done;
    match goal with
    | |- context [option_map title (search ?p ?t)] =>
        by destruct (search p t); cbn [option_map]; [rewrite lookup_insert_eq |]
    end.
Qed.

Lemma location_fallback_precedence_witness :
  exists extracted,
    extract_fields "DESCRIPTION: collision occurred in the driveway" = Ok extracted
    /\ extracted !! "incident_location" = Some (PStr "Driveway").
Proof.
  destruct (location_fallback_precedence
              "DESCRIPTION: collision occurred in the driveway"
              "collision occurred in the driveway")
    as (extracted & Hex & Hdriveway & _).
  - vm_compute. reflexivity.
  - vm_compute. reflexivity.
  - exists extracted. split; [exact Hex |]. apply Hdriveway. vm_compute. reflexivity.
Defined.

End ExtractClaims.


(** ** The pipeline of [process_claim] *)

Section Pipeline.
Import PyStr Re FieldExtractor RoutingEngine.

Lemma match_patterns_claim_type text :
  match_patterns text !! "claim_type" = Some (field_value claim_type_re text).
Proof. apply match_patterns_lookup, (list_elem_of_lookup_2 _ 14%nat). reflexivity. Qed.

(** A decision returned by [determine_route] carries one of the five
    routes. *)
Lemma determine_route_known extracted missing fraud r :
  determine_route extracted missing fraud = Ok r ->
  In (recommendedRoute r) get_all_routes.
Proof.
  unfold determine_route.
  destruct (negb (bool_decide (missing = []))); [intros [= <-]; simpl; tauto |].
  destruct (negb (bool_decide (fraud = []))); [intros [= <-]; simpl; tauto |].
  destruct (as_str _) as [s|e]; simpl; [| done].
  destruct (_ || _); [intros [= <-]; simpl; tauto |].
  destruct (less_than _ _) as [low|e]; simpl; [| done].
  destruct (format_amount _) as [amount|e]; simpl; [| done].
  destruct low; intros [= <-]; simpl; tauto.
Qed.

(** On what the extractor, the validator and the fraud scanner compute
    from a text, [determine_route] raises nothing. *)
Lemma determine_route_on_extracted text :
  exists extracted r,
    extract_fields text = Ok extracted
    /\ determine_route extracted (validate_fields extracted)
         (check_for_fraud_indicators text) = Ok r
    /\ In (recommendedRoute r) get_all_routes.
Proof.
  destruct (extract_fields_ok text) as (d & _ & Hex & Hother).
  eexists. rewrite Hex.
  set (ex := <["estimated_damage_value" := _]> d) in *.
  assert (Hroute : exists r, determine_route ex (validate_fields ex)
                               (check_for_fraud_indicators text) = Ok r).
  { unfold determine_route.
    destruct (validate_fields ex) as [|f l] eqn:Hmissing; [| by eexists].
    destruct (check_for_fraud_indicators text) as [|k l]; [| by eexists].
    change (negb (bool_decide (@nil string = []))) with false. cbv iota.
    assert (Hct : exists s, dict_get_default ex "claim_type" (PStr "") = PStr s).
    { assert (Hin : ~ In "claim_type" (validate_fields ex)).
      { rewrite Hmissing. intros []. }
      rewrite validate_fields_In in Hin.
      assert (Hm : is_missing ex "claim_type" = false).
      { destruct (is_missing ex "claim_type"); [| done].
        exfalso. apply Hin. split; [| done]. vm_compute. tauto. }
      unfold is_missing in Hm. apply orb_false_iff in Hm as [Hm _].
      apply negb_false_iff in Hm. revert Hm.
      unfold dict_get, dict_get_default, ex.
      rewrite lookup_insert_ne by done. rewrite Hother by done.
      rewrite match_patterns_claim_type. unfold field_value.
      destruct (search claim_type_re text); [by eexists | done]. }
    destruct Hct as [s ->]. cbn [as_str mbind result_bind].
    destruct (_ || _); [by eexists |].
    assert (Hamount : is_amount (dict_get_default ex "estimated_damage_value" (PInt 0))).
    { unfold dict_get_default, ex. rewrite lookup_insert_eq.
      unfold parsed_amount. destruct (search estimated_damage_re text); [| done].
      by destruct (PyFloat.float_of_string _). }
    destruct (less_than_ok _ Hamount) as [low ->].
    destruct (format_amount_ok _ Hamount) as [amount ->]. cbn [mbind result_bind].
    destruct low; by eexists. }
  destruct Hroute as [r Hr]. exists r. split; [done |]. split; [done |].
  by eapply determine_route_known.
Qed.

(** [process_claim] returns a result with one of the five routes for every
    document and every state of the file system. *)
Lemma process_claim_total fs processed_count path :
  exists r n,
    ClaimsProcessingAgent.process_claim fs processed_count path = Ok (r, n)
    /\ In (ClaimsProcessingAgent.recommendedRoute r) get_all_routes.
Proof.
  unfold ClaimsProcessingAgent.process_claim.
  destruct (DocumentParser.parse_document fs path) as [e|text].
  - eexists _, _. split; [done |]. simpl. tauto.
  - destruct (determine_route_on_extracted text) as (ex & r & -> & Hr & Hin).
    cbn [mbind result_bind]. rewrite Hr. by eexists _, _.
Qed.

(** The end-to-end scenarios A to D of the specification. *)
Example scenario_A :
  route_of_text (scenario "Auto" "") = Ok ("FAST_TRACK", [], []).
Proof. vm_compute. reflexivity. Qed.

Example scenario_B :
  route_of_text (scenario "Bodily Injury" "") = Ok ("SPECIALIST_QUEUE", [], []).
Proof. vm_compute. reflexivity. Qed.

Example scenario_C :
  route_of_text "NAME OF INSURED: Jane Doe"
  = Ok ("MANUAL_REVIEW",
        [ "policy_number"; "incident_date"; "incident_location"; "claim_type";
          "estimated_damage" ],
        []).
Proof. vm_compute. reflexivity. Qed.

Example scenario_D :
  route_of_text (scenario "Auto" "REMARKS: the collision looked staged")
  = Ok ("INVESTIGATION_FLAG", [], ["staged"]).
Proof. vm_compute. reflexivity. Qed.

End Pipeline.


(** ** The matcher and the language of an expression *)

Section MatcherLanguage.
Import PyStr Re.

Lemma rep_loop_lang (body : string -> list string) (P : string -> Prop) greedy :
  (forall s rest, In rest (body s) -> exists c, s = c ++ rest /\ P c) ->
  forall fuel lo hi s rest,
    In rest (rep_loop body greedy fuel lo hi s) ->
    exists pieces, s = flatten pieces ++ rest
                   /\ (lo <= length pieces)%nat
                   /\ within hi (length pieces)
                   /\ Forall P pieces.
Proof.
  intros Hbody. induction fuel as [|fuel IH]; intros lo hi s rest; simpl; [done |].
  assert (Hstop : In rest (match lo with O => [s] | S _ => [] end) ->
                  exists pieces, s = flatten pieces ++ rest
                                 /\ (lo <= length pieces)%nat
                                 /\ within hi (length pieces)
                                 /\ Forall P pieces).
  { destruct lo; [| done]. intros [<- | []]. exists []. repeat split; [done | |].
    - destruct hi; simpl; [lia | done].
    - constructor. }
  assert (Hagain :
            In rest
              (match hi with
               | Some O => []
               | _ =>
                   flat_map
                     (fun s' =>
                        match lo with
                        | S lo' => rep_loop body greedy fuel lo' (dec_hi hi) s'
                        | O =>
                            if (String.length s' <? String.length s)%nat
                            then rep_loop body greedy fuel O (dec_hi hi) s'
                            else []
                        end) (body s)
               end) ->
            exists pieces, s = flatten pieces ++ rest
                           /\ (lo <= length pieces)%nat
                           /\ within hi (length pieces)
                           /\ Forall P pieces).
  { intros Hin.
    assert (Hhi : hi <> Some O /\ In rest
              (flat_map
                 (fun s' =>
                    match lo with
                    | S lo' => rep_loop body greedy fuel lo' (dec_hi hi) s'
                    | O =>
                        if (String.length s' <? String.length s)%nat
                        then rep_loop body greedy fuel O (dec_hi hi) s'
                        else []
                    end) (body s))).
    { destruct hi as [[|h]|]; [done | |]; by split. }
    destruct Hhi as [Hhi Hflat]. clear Hin.
    apply in_flat_map in Hflat as (s' & Hs' & Hin).
    destruct (Hbody _ _ Hs') as (c & -> & Hc).
    assert (Hrec : exists lo', In rest (rep_loop body greedy fuel lo' (dec_hi hi) s')
                               /\ (lo <= S lo')%nat).
    { destruct lo as [|lo']; [| exists lo'; split; [done | lia]].
      destruct (_ <? _)%nat; [| done]. exists O. split; [done | lia]. }
    destruct Hrec as (lo' & Hrec & Hlo).
    apply IH in Hrec as (pieces & -> & Hlen & Hwithin & Hall).
    exists (c :: pieces). simpl. repeat split.
    - by rewrite append_assoc.
    - lia.
    - destruct hi as [[|h]|]; simpl in *; [done | lia | done].
    - by constructor. }
  destruct greedy; rewrite in_app_iff; intros [H | H]; auto.
Qed.

(** The matcher is sound: what a match of [r] reads is a string of the
    language of [r]. *)
Lemma matches_lang r : forall s rest,
  In rest (matches r s) -> exists c, s = c ++ rest /\ lang r c.
Proof.
  induction r as [|a|negated items|r1 IH1 r2 IH2|r1 IH1 r2 IH2|greedy lo hi r IH|r IH|];
    intros s rest; [simpl .. | | simpl | simpl].
  - intros [<- | []]. by exists "".
  - destruct s as [|x s]; simpl; [done |]. destruct (lit_match a x) eqn:Hx; [| done].
    intros [<- | []]. exists (String x ""). split; [done |]. by exists x.
  - destruct s as [|x s]; simpl; [done |].
    destruct (cls_match negated items x) eqn:Hx; [| done].
    intros [<- | []]. exists (String x ""). split; [done |]. by exists x.
  - intros Hin. apply in_flat_map in Hin as (s' & H1 & H2).
    apply IH1 in H1 as (c1 & -> & Hc1). apply IH2 in H2 as (c2 & -> & Hc2).
    exists (c1 ++ c2). split; [by rewrite append_assoc |]. by exists c1, c2.
  - rewrite in_app_iff. intros [H | H].
    + apply IH1 in H as (c & -> & Hc). exists c. split; [done | by left].
    + apply IH2 in H as (c & -> & Hc). exists c. split; [done | by right].
  - intros Hin.
    apply (rep_loop_lang (matches r) (lang r) greedy IH) in Hin
      as (pieces & -> & Hlo & Hhi & Hall).
    exists (flatten pieces). split; [done |]. by exists pieces.
  - destruct (matches r s); [done |]. intros [<- | []]. by exists "".
  - destruct s as [|c s]; [intros [<- | []]; by exists "" |].
    destruct (Ascii.eqb c "010"); [intros [<- | []]; by exists "" | done].
Qed.

(** The value of the group of a pattern found by [search] is a string of
    the language of the group. *)
Lemma search_lang p s g : search p s = Some g -> lang (grp p) g.
Proof.
  assert (Hat : forall s0 g0, In g0 (match_at p s0) -> lang (grp p) g0).
  { intros s0 g0 Hin. unfold match_at in Hin.
    apply in_flat_map in Hin as (s1 & _ & Hin).
    apply in_flat_map in Hin as (s2 & Hgrp & Hin).
    apply in_map_iff in Hin as (s3 & <- & _).
    apply matches_lang in Hgrp as (c & -> & Hc). by rewrite consumed_app. }
  induction s as [|c s IH]; simpl.
  - destruct (match_at p "") as [|g' l] eqn:Hm; [done |].
    intros [= <-]. apply (Hat ""). rewrite Hm. by left.
  - destruct (match_at p (String c s)) as [|g' l] eqn:Hm; [exact IH |].
    intros [= <-]. apply (Hat (String c s)). rewrite Hm. by left.
Qed.

Lemma rep_loop_first (body : string -> list string) (nul : bool)
    (fst : ascii -> bool) greedy :
  (forall s rest, In rest (body s) -> exists c, s = c ++ rest /\ starts_in nul fst c) ->
  forall fuel lo hi s rest,
    In rest (rep_loop body greedy fuel lo hi s) ->
    exists c, s = c ++ rest
              /\ starts_in (match lo with O => true | S _ => nul end) fst c.
Proof.
  intros Hbody. induction fuel as [|fuel IH]; intros lo hi s rest; simpl; [done |].
  assert (Hstop : In rest (match lo with O => [s] | S _ => [] end) ->
                  exists c, s = c ++ rest
                            /\ starts_in (match lo with O => true | S _ => nul end) fst c).
  { destruct lo; [| done]. intros [<- | []]. by exists "". }
  assert (Hagain :
            In rest
              (match hi with
               | Some O => []
               | _ =>
                   flat_map
                     (fun s' =>
                        match lo with
                        | S lo' => rep_loop body greedy fuel lo' (dec_hi hi) s'
                        | O =>
                            if (String.length s' <? String.length s)%nat
                            then rep_loop body greedy fuel O (dec_hi hi) s'
                            else []
                        end) (body s)
               end) ->
            exists c, s = c ++ rest
                      /\ starts_in (match lo with O => true | S _ => nul end) fst c).
  { intros Hin.
    assert (Hflat : In rest
              (flat_map
                 (fun s' =>
                    match lo with
                    | S lo' => rep_loop body greedy fuel lo' (dec_hi hi) s'
                    | O =>
                        if (String.length s' <? String.length s)%nat
                        then rep_loop body greedy fuel O (dec_hi hi) s'
                        else []
                    end) (body s))).
    { by destruct hi as [[|h]|]. }
    clear Hin. apply in_flat_map in Hflat as (s' & Hs' & Hin).
    destruct (Hbody _ _ Hs') as (c1 & -> & Hc1).
    assert (Hrec : exists lo', In rest (rep_loop body greedy fuel lo' (dec_hi hi) s')).
    { destruct lo as [|lo']; [| by exists lo'].
      destruct (_ <? _)%nat; [by exists O | done]. }
    destruct Hrec as (lo' & Hrec).
    apply IH in Hrec as (c2 & -> & Hc2).
    exists (c1 ++ c2). split; [by rewrite append_assoc |].
    destruct c1 as [|x c1]; [| exact Hc1]. simpl in Hc1. subst nul.
    rewrite append_nil. destruct c2 as [|y c2]; [by destruct lo | exact Hc2]. }
  destruct greedy; rewrite in_app_iff; intros [H | H]; auto.
Qed.

Lemma matches_first r : forall s rest,
  In rest (matches r s) ->
  exists c, s = c ++ rest /\ starts_in (nullable r) (first r) c.
Proof.
  induction r as [|a|negated items|r1 IH1 r2 IH2|r1 IH1 r2 IH2|greedy lo hi r IH|r IH|];
    intros s rest; [simpl .. | | simpl | simpl].
  - intros [<- | []]. by exists "".
  - destruct s as [|x s]; simpl; [done |]. destruct (lit_match a x) eqn:Hx; [| done].
    intros [<- | []]. by exists (String x "").
  - destruct s as [|x s]; simpl; [done |].
    destruct (cls_match negated items x) eqn:Hx; [| done].
    intros [<- | []]. by exists (String x "").
  - intros Hin. apply in_flat_map in Hin as (s' & H1 & H2).
    apply IH1 in H1 as (c1 & -> & Hc1). apply IH2 in H2 as (c2 & -> & Hc2).
    exists (c1 ++ c2). split; [by rewrite append_assoc |].
    destruct c1 as [|x c1]; simpl in *.
    + rewrite Hc1, append_nil. destruct c2 as [|y c2]; simpl in *; [done |].
      rewrite Hc2. apply orb_true_r.
    + by rewrite Hc1.
  - rewrite in_app_iff. intros [H | H].
    + apply IH1 in H as (c & -> & Hc). exists c. split; [done |].
      destruct c; simpl in *; by rewrite Hc.
    + apply IH2 in H as (c & -> & Hc). exists c. split; [done |].
      destruct c; simpl in *; rewrite Hc; apply orb_true_r.
  - exact (rep_loop_first (matches r) (nullable r) (first r) greedy IH
             (S (lo + String.length s)) lo hi s rest).
  - destruct (matches r s); [done |]. intros [<- | []]. by exists "".
  - destruct s as [|c s]; [intros [<- | []]; by exists "" |].
    destruct (Ascii.eqb c "010"); [intros [<- | []]; by exists "" | done].
Qed.

(** A pattern whose prefix is not nullable finds nothing in a text without
    any character of the first set of the prefix. *)
Lemma search_needs_first p s :
  nullable (pre p) = false ->
  all_chars (fun c => negb (first (pre p) c)) s = true ->
  search p s = None.
Proof.
  intros Hnul.
  assert (Hat : forall s0, match_at p s0 <> [] ->
                           exists x t, s0 = String x t /\ first (pre p) x = true).
  { intros s0 Hne. destruct (match_at p s0) as [|g l] eqn:Hm; [done |].
    assert (Hin : In g (match_at p s0)) by (rewrite Hm; by left).
    unfold match_at in Hin. apply in_flat_map in Hin as (s1 & Hpre & _).
    apply matches_first in Hpre as (c & -> & Hc).
    destruct c as [|x c]; simpl in Hc; [congruence |]. by exists x, (c ++ s1). }
  induction s as [|c s IH]; simpl.
  - intros _. destruct (match_at p "") eqn:Hm; [done |].
    destruct (Hat "") as (x & t & Hx & _); [by rewrite Hm | done].
  - rewrite andb_true_iff, negb_true_iff. intros [Hc Hs].
    destruct (match_at p (String c s)) eqn:Hm; [by apply IH |].
    destruct (Hat (String c s)) as (x & t & [= <- <-] & Hx); [by rewrite Hm |].
    congruence.
Qed.

End MatcherLanguage.


(** ** The amount of the damage always parses *)

Section AmountParses.
Import PyStr PyFloat Re FieldExtractor.

Lemma digit_class c : cls_match false [Range "0" "9"] c = is_digit c.
Proof. destruct c as [[] [] [] [] [] [] [] []]; reflexivity. Qed.

Lemma lit_match_comma x : lit_match "," x = true -> x = ","%char.
Proof. destruct x as [[] [] [] [] [] [] [] []]; by try discriminate. Qed.

Lemma lit_match_dot x : lit_match "." x = true -> x = "."%char.
Proof. destruct x as [[] [] [] [] [] [] [] []]; by try discriminate. Qed.

Lemma flatten_length_chars (p : ascii -> bool) pieces :
  Forall (fun c => exists x, c = String x "" /\ p x = true) pieces ->
  String.length (flatten pieces) = length pieces
  /\ all_chars p (flatten pieces) = true.
Proof.
  induction 1 as [|c pieces (x & -> & Hx) _ [IHlen IHall]]; simpl; [done |].
  rewrite ?append_cons, ?append_nil. simpl. by rewrite IHlen, Hx, IHall.
Qed.

(** A repetition of a character class denotes strings of characters of
    the class, as many as the bounds say. *)
Lemma lang_rep_class greedy lo hi negated items c :
  lang (Rep greedy lo hi (Cls negated items)) c ->
  (lo <= String.length c)%nat
  /\ within hi (String.length c)
  /\ all_chars (cls_match negated items) c = true.
Proof.
  intros (pieces & -> & Hlo & Hhi & Hall).
  destruct (flatten_length_chars (cls_match negated items) pieces Hall) as [Hlen Hchars].
  by rewrite Hlen.
Qed.

Lemma lang_digits greedy lo hi c :
  lang (Rep greedy lo hi digit) c ->
  (lo <= String.length c)%nat
  /\ within hi (String.length c)
  /\ all_chars is_digit c = true.
Proof.
  intros H. apply lang_rep_class in H as (Hlo & Hhi & Hall).
  split; [done |]. split; [done |].
  revert Hall. apply all_chars_weaken. intros x. by rewrite digit_class.
Qed.

Lemma remove_char_app a s t :
  remove_char a (s ++ t) = remove_char a s ++ remove_char a t.
Proof.
  induction s as [|c s IH]; [done |]. rewrite append_cons. simpl.
  destruct (Ascii.eqb c a); [done |]. by rewrite append_cons, IH.
Qed.

Lemma remove_char_digits a s :
  is_digit a = false -> all_chars is_digit s = true -> remove_char a s = s.
Proof.
  intros Ha. induction s as [|c s IH]; simpl; [done |].
  rewrite andb_true_iff. intros [Hc Hs].
  destruct (Ascii.eqb_spec c a) as [-> | _]; [congruence |]. by rewrite IH.
Qed.

(** Without its commas, the thousands part is a string of digits. *)
Lemma thousands_digits pieces :
  Forall (lang (seqs [Lit ","; times 3 digit])) pieces ->
  all_chars is_digit (remove_char "," (flatten pieces)) = true.
Proof.
  induction 1 as [|c pieces (c1 & c2 & -> & (x & -> & Hx) & Hc2) _ IH]; [done |].
  apply lit_match_comma in Hx as ->. apply lang_digits in Hc2 as (_ & _ & Hd).
  change (flatten ((String "," "" ++ c2) :: pieces))
    with (String "," (c2 ++ flatten pieces)).
  change (remove_char "," (String "," (c2 ++ flatten pieces)))
    with (remove_char "," (c2 ++ flatten pieces)).
  rewrite remove_char_app, (remove_char_digits "," c2) by done.
  by rewrite all_chars_app, Hd, IH.
Qed.

(** The group of the damage pattern without its commas and dollar signs
    is the text of a plain decimal. *)
Lemma damage_group_decimal g :
  lang (grp estimated_damage_re) g ->
  all_chars amount_char g = true
  /\ exists int_part frac_part,
      plain_decimal int_part frac_part
      /\ remove_char "$" (remove_char "," g) = decimal_text int_part frac_part.
Proof.
  intros (d & rest & -> & Hd & (m & f & -> & (pieces & -> & _ & _ & Hm) & Hf)).
  apply lang_digits in Hd as (Hlo & _ & Hd).
  pose proof (thousands_digits pieces Hm) as Hmd.
  assert (Hfrac : f = "" \/ exists f2, f = String "." f2 /\ f2 <> ""
                                       /\ all_chars is_digit f2 = true).
  { destruct Hf as (ps & -> & _ & Hhi & Hall). simpl in Hhi.
    destruct ps as [|c1 [|c2 ps]]; [by left | | simpl in Hhi; lia].
    right. apply Forall_cons in Hall as [(c & f2 & -> & (x & -> & Hx) & Hf2) _].
    apply lit_match_dot in Hx as ->. apply lang_digits in Hf2 as (Hlo2 & _ & Hf2).
    exists f2. split; [| split; [| done]].
    - change (flatten [String "." "" ++ f2]) with ((String "." "" ++ f2) ++ "").
      by rewrite append_empty_r.
    - intros ->. simpl in Hlo2. lia. }
  assert (Hamount : forall t, all_chars is_digit t = true ->
                              all_chars amount_char t = true).
  { intros t. apply all_chars_weaken. intros c Hc. unfold amount_char. by rewrite Hc. }
  assert (Hint : all_chars is_digit (d ++ remove_char "," (flatten pieces)) = true).
  { by rewrite all_chars_app, Hd, Hmd. }
  assert (Hne : d ++ remove_char "," (flatten pieces) <> "").
  { destruct d; [simpl in Hlo; lia | done]. }
  assert (Hraw : all_chars amount_char (flatten pieces) = true).
  { clear -Hm Hamount. induction Hm as [|c ps (c1 & c2 & -> & (x & -> & Hx) & Hc2) _ IH];
      [done |].
    apply lit_match_comma in Hx as ->. apply lang_digits in Hc2 as (_ & _ & Hc2).
    change (flatten ((String "," "" ++ c2) :: ps))
      with (String "," (c2 ++ flatten ps)).
    change (all_chars amount_char (String "," (c2 ++ flatten ps)))
      with (all_chars amount_char (c2 ++ flatten ps)).
    by rewrite all_chars_app, (Hamount _ Hc2), IH. }
  split.
  - rewrite !all_chars_app, (Hamount _ Hd), Hraw. simpl.
    destruct Hfrac as [-> | (f2 & -> & _ & Hf2)]; [done |].
    simpl. by rewrite (Hamount _ Hf2).
  - exists (d ++ remove_char "," (flatten pieces)).
    destruct Hfrac as [-> | (f2 & -> & Hf2ne & Hf2)].
    + exists "". split; [done |]. unfold decimal_text.
      rewrite append_empty_r, remove_char_app, (remove_char_digits "," d) by done.
      by apply remove_char_digits.
    + exists f2. split; [done |]. unfold decimal_text.
      destruct f2 as [|c2 f2]; [done |].
      rewrite !remove_char_app, (remove_char_digits "," d) by done.
      change (remove_char "," (String "." (String c2 f2)))
        with (String "." (remove_char "," (String c2 f2))).
      rewrite (remove_char_digits "," (String c2 f2)) by done.
      rewrite (remove_char_digits "$" d), (remove_char_digits "$" _ eq_refl Hmd) by done.
      change (remove_char "$" (String "." (String c2 f2)))
        with (String "." (remove_char "$" (String c2 f2))).
      by rewrite (remove_char_digits "$" (String c2 f2)), append_assoc.
Qed.

Lemma lstrip_by_id p s :
  all_chars (fun c => negb (p c)) s = true -> lstrip_by p s = s.
Proof.
  destruct s as [|c s]; simpl; [done |]. rewrite andb_true_iff, negb_true_iff.
  by intros [-> _].
Qed.

Lemma rstrip_by_id p s :
  all_chars (fun c => negb (p c)) s = true -> rstrip_by p s = s.
Proof.
  induction s as [|c s IH]; simpl; [done |]. rewrite andb_true_iff, negb_true_iff.
  intros [Hc Hs]. rewrite IH by done. destruct s; [by rewrite Hc | done].
Qed.

(** Stripping a string without any character to strip changes nothing. *)
Lemma strip_by_id p s :
  all_chars (fun c => negb (p c)) s = true -> strip_by p s = s.
Proof. intros H. unfold strip_by. by rewrite lstrip_by_id, rstrip_by_id. Qed.

Lemma amount_char_not_space s :
  all_chars amount_char s = true ->
  all_chars (fun c => negb (is_space c)) s = true
  /\ all_chars (fun c => negb (is_c_space c)) s = true.
Proof.
  intros H. split; revert H; apply all_chars_weaken;
    intros c; destruct c as [[] [] [] [] [] [] [] []]; by vm_compute.
Qed.

Lemma decimal_from_app acc s t :
  decimal_from acc (s ++ t) = decimal_from (decimal_from acc s) t.
Proof.
  revert acc. induction s as [|c s IH]; intros acc; [done |].
  rewrite append_cons. simpl. apply IH.
Qed.

(** Reading digits stops at the end of the text or at a dot. *)
Lemma digits_from_digits acc n s rest :
  all_chars is_digit s = true ->
  rest = "" \/ (exists r, rest = String "." r) ->
  digits_from acc n (s ++ rest)
  = (decimal_from acc s, n + Z.of_nat (String.length s), rest).
Proof.
  intros Hs Hrest. revert acc n Hs.
  induction s as [|c s IH]; intros acc n Hs.
  - rewrite append_nil. simpl. rewrite Z.add_0_r.
    destruct Hrest as [-> | (r & ->)]; reflexivity.
  - rewrite append_cons. simpl in Hs. apply andb_true_iff in Hs as [Hc Hs].
    cbn [digits_from decimal_from String.length]. rewrite Hc, IH by done.
    f_equal. f_equal. lia.
Qed.

Lemma digitpart_digits acc c s rest :
  is_digit c = true -> all_chars is_digit s = true ->
  rest = "" \/ (exists r, rest = String "." r) ->
  digitpart acc (String c s ++ rest)
  = Some (decimal_from acc (String c s),
          Z.of_nat (String.length (String c s)), rest).
Proof.
  intros Hc Hs Hrest. rewrite append_cons. unfold digitpart. rewrite Hc.
  rewrite digits_from_digits by done. cbn [decimal_from String.length].
  do 3 f_equal. lia.
Qed.

Lemma lower_digit_not_inf c s :
  is_digit c = true -> in_list (lower (String c s)) ["inf"; "infinity"] = false.
Proof. destruct c as [[] [] [] [] [] [] [] []]; by try discriminate. Qed.

(** [float] of the text of a plain decimal is the float nearest to the
    number that the text writes. *)
Lemma float_of_decimal_text int_part frac_part :
  plain_decimal int_part frac_part ->
  float_of_string (decimal_text int_part frac_part)
  = Some (of_decimal false (decimal_from 0 (int_part ++ frac_part))
            (- Z.of_nat (String.length frac_part))).
Proof.
  intros (Hne & Hint & Hfrac).
  destruct int_part as [|c ip]; [done |].
  simpl in Hint. apply andb_true_iff in Hint as [Hc Hip].
  assert (Hamount : all_chars amount_char (decimal_text (String c ip) frac_part) = true).
  { assert (Hd : forall t, all_chars is_digit t = true -> all_chars amount_char t = true).
    { intros t. apply all_chars_weaken. intros x Hx. unfold amount_char. by rewrite Hx. }
    unfold decimal_text. destruct frac_part as [|d fp].
    - apply Hd. simpl. by rewrite Hc, Hip.
    - rewrite all_chars_app. rewrite (Hd (String c ip)) by (simpl; by rewrite Hc, Hip).
      change (all_chars amount_char (String "." (String d fp)))
        with (all_chars amount_char (String d fp)).
      by rewrite (Hd (String d fp)). }
  unfold float_of_string.
  rewrite (strip_by_id is_c_space) by (by apply amount_char_not_space).
  rewrite (parse_sign_amount _ Hamount).
  assert (Hinf : in_list (lower (decimal_text (String c ip) frac_part))
                   ["inf"; "infinity"] = false).
  { unfold decimal_text. destruct frac_part; [| rewrite append_cons];
      by apply lower_digit_not_inf. }
  rewrite Hinf, (lower_amount_not_nan _ Hamount).
  unfold decimal_text, parse_number. destruct frac_part as [|d fp].
  - rewrite <- (append_empty_r (String c ip)) at 1.
    rewrite digitpart_digits by (done || by left).
    rewrite append_empty_r. cbn [parse_exponent]. by rewrite Z.sub_0_r.
  - rewrite digitpart_digits by (done || (right; by eexists)).
    simpl in Hfrac. apply andb_true_iff in Hfrac as [Hd Hfp].
    rewrite <- (append_empty_r (String d fp)) at 1.
    rewrite digitpart_digits by (done || by left).
    cbn [parse_exponent]. by rewrite decimal_from_app, Z.sub_0_l.
Qed.

End AmountParses.


(** ** More on [extract_fields] *)

Section ExtractMore.
Import PyStr Re FieldExtractor.

Lemma all_ascii_spec p : all_ascii p = true -> forall c, p c = true.
Proof.
  unfold all_ascii. rewrite forallb_forall. intros H c.
  rewrite <- (ascii_nat_embedding c). apply H, in_seq.
  pose proof (nat_ascii_bounded c). lia.
Qed.

Lemma fold_patterns_keys text (l : list (string * pattern)) :
  forall (acc : gmap string pyval) k,
    is_Some
      (fold_left
         (fun extracted '(field_name, pattern) =>
            match search pattern text with
            | Some g => <[field_name := PStr (strip g)]> extracted
            | None => <[field_name := PNone]> extracted
            end) l acc !! k)
    <-> is_Some (acc !! k) \/ In k l.*1.
Proof.
  induction l as [|[k' p'] l IH]; intros acc k; simpl; [tauto |].
  rewrite IH, store_field, lookup_insert_is_Some. 
  destruct (decide (k' = k)) as [-> | Hne]; [tauto |].
  split; [intros [[? | [_ ?]] | ?]; tauto | intros [? | [? | ?]]; tauto].
Qed.

(** The fallback returns the mapping of the loop, possibly with a new
    location when the loop left the location falsy. *)
Lemma location_fallback_cases text :
  exists d, location_fallback (match_patterns text) = Ok d
            /\ (d = match_patterns text
                \/ exists l, d = <["incident_location" := PStr l]> (match_patterns text)
                             /\ truthy (field_value incident_location_re text) = false).
Proof.
  destruct (truthy (dict_get (match_patterns text) "incident_location")) eqn:Hloc.
  { exists (match_patterns text). split; [| by left].
    unfold location_fallback. by rewrite Hloc. }
  pose proof (match_patterns_accident_description text) as Hdesc.
  unfold field_value in Hdesc.
  assert (Hfalsy : truthy (field_value incident_location_re text) = false).
  { revert Hloc. unfold dict_get. by rewrite match_patterns_incident_location. }
  destruct (search accident_description_re text) as [g|].
  - rewrite (location_fallback_eq _ _ Hloc Hdesc).
    destruct (fallback_location _) as [l|]; eexists; (split; [done |]);
      [right; by exists l | by left].
  - exists (match_patterns text). split; [| by left].
    unfold location_fallback, dict_get at 2. rewrite Hdesc.
    change (truthy (default PNone (Some PNone))) with false.
    by rewrite andb_false_r.
Qed.

(** X1: for every text, [extract_fields] raises nothing and returns a
    mapping that has exactly the seventeen names of [FIELD_PATTERNS] and
    [estimated_damage_value]. *)
Theorem extract_fields_keys (text : string) :
  exists extracted,
    extract_fields text = Ok extracted
    /\ (forall k, is_Some (extracted !! k) <-> In k EXTRACTED_KEYS)
    /\ EXTRACTED_KEYS = (FIELD_PATTERNS.*1 ++ ["estimated_damage_value"])%list.
Proof.
  destruct (location_fallback_cases text) as (d & Hd & Hcases).
  exists (<["estimated_damage_value" := parsed_amount (search estimated_damage_re text)]> d).
  split; [| split; [| reflexivity]].
  - unfold extract_fields. rewrite Hd. cbn [mbind result_bind].
    apply damage_value_eq.
    destruct Hcases as [-> | (l & -> & _)];
      [| rewrite lookup_insert_ne by done]; apply match_patterns_estimated_damage.
  - intros k. rewrite lookup_insert_is_Some.
    assert (Hmp : is_Some (d !! k) <-> In k FIELD_PATTERNS.*1).
    { assert (Hkeys : is_Some (match_patterns text !! k) <-> In k FIELD_PATTERNS.*1).
      { unfold match_patterns. rewrite fold_patterns_keys, lookup_empty.
        split; [intros [[x [=]] | ?]; done | by right]. }
      destruct Hcases as [-> | (l & -> & _)]; [done |].
      rewrite lookup_insert_is_Some, Hkeys.
      split; [intros [<- | [_ ?]]; [| done] |].
      - simpl. repeat (first [left; reflexivity | right]).
      - destruct (decide ("incident_location" = k)); tauto. }
    change EXTRACTED_KEYS with (FIELD_PATTERNS.*1 ++ ["estimated_damage_value"])%list.
    rewrite in_app_iff, Hmp. simpl.
    destruct (decide ("estimated_damage_value" = k)) as [<- | Hne]; [tauto |].
    split; [intros [? | [_ ?]]; tauto | intros [? | [? | []]]; tauto].
Qed.

(** A field other than the location holds what the loop stored. *)
Lemma extract_fields_match text k p :
  In (k, p) FIELD_PATTERNS ->
  k <> "incident_location" ->
  exists extracted,
    extract_fields text = Ok extracted
    /\ extracted !! k = Some (field_value p text).
Proof.
  intros Hin Hne.
  destruct (extract_fields_ok text) as (d & Hd & Hex & Hother).
  eexists. split; [exact Hex |].
  assert (Hk : k <> "estimated_damage_value").
  { intros ->. revert Hin. unfold FIELD_PATTERNS. simpl.
    intros H. repeat (destruct H as [[=] | H]). done. }
  rewrite lookup_insert_ne by done. rewrite Hother by done.
  by apply match_patterns_lookup, list_elem_of_In.
Qed.

(** X2: after the loop only the location can change, and only when the
    loop left it absent or empty: every other field, and a non-empty
    location, holds in the result what the search for its pattern gave
    ([None], or the stripped value of the group). *)
Theorem extract_fields_keeps_matches (text : string) (k : string) (p : pattern) :
  In (k, p) FIELD_PATTERNS ->
  k <> "incident_location" \/ truthy (field_value p text) = true ->
  exists extracted,
    extract_fields text = Ok extracted
    /\ extracted !! k = Some (field_value p text).
Proof.
  intros Hin Hkeep.
  destruct (extract_fields_ok text) as (d & Hd & Hex & Hother).
  eexists. split; [exact Hex |].
  assert (Hk : k <> "estimated_damage_value").
  { intros ->. revert Hin. unfold FIELD_PATTERNS. simpl.
    intros H. repeat (destruct H as [[=] | H]). done. }
  rewrite lookup_insert_ne by done.
  apply list_elem_of_In in Hin.
  destruct (decide (k = "incident_location")) as [-> | Hne];
    [| rewrite Hother by done; by apply match_patterns_lookup].
  destruct Hkeep as [? | Htruthy]; [done |].
  assert (Hp : field_value p text = field_value incident_location_re text).
  { pose proof (match_patterns_lookup text _ _ Hin) as H1.
    rewrite match_patterns_incident_location in H1. congruence. }
  destruct (location_fallback_cases text) as (d' & Hd' & Hcases).
  rewrite Hd in Hd'. injection Hd' as <-.
  destruct Hcases as [-> | (l & -> & Hfalsy)]; [by apply match_patterns_lookup |].
  congruence.
Qed.

Lemma extract_fields_keeps_matches_witness :
  exists extracted,
    extract_fields "ADDRESS: 12 Elm Rd; DESCRIPTION: hit in the driveway" = Ok extracted
    /\ extracted !! "incident_location"
       = Some (field_value incident_location_re
                 "ADDRESS: 12 Elm Rd; DESCRIPTION: hit in the driveway").
Proof.
  apply (extract_fields_keeps_matches
           "ADDRESS: 12 Elm Rd; DESCRIPTION: hit in the driveway"
           "incident_location" incident_location_re).
  - simpl. repeat (first [left; reflexivity | right]).
  - right. vm_compute. reflexivity.
Defined.

(** X3: the conversion of a matched damage never fails: when the damage
    is matched, its value (which is stored as it is, having no white space
    around it) without commas is the text of a plain decimal, and
    [estimated_damage_value] is the float nearest to that decimal; the
    integer 0 is stored only when the damage is not matched. *)
Theorem estimated_damage_value_is_float (text : string) :
  exists extracted,
    extract_fields text = Ok extracted
    /\ match search estimated_damage_re text with
       | Some g =>
           exists int_part frac_part,
             plain_decimal int_part frac_part
             /\ remove_char "$" (remove_char "," g) = decimal_text int_part frac_part
             /\ extracted !! "estimated_damage" = Some (PStr g)
             /\ extracted !! "estimated_damage_value"
                = Some (PFloat (PyFloat.of_decimal false
                                  (decimal_from 0 (int_part ++ frac_part))
                                  (- Z.of_nat (String.length frac_part))))
       | None =>
           extracted !! "estimated_damage" = Some PNone
           /\ extracted !! "estimated_damage_value" = Some (PInt 0)
       end.
Proof.
  destruct (extract_fields_ok text) as (d & _ & Hex & Hother).
  eexists. split; [exact Hex |].
  pose proof (match_patterns_estimated_damage text) as Hm. unfold field_value in Hm.
  destruct (search estimated_damage_re text) as [g|] eqn:Hg.
  - apply search_lang in Hg.
    destruct (damage_group_decimal g Hg) as (Hchars & ip & fp & Hplain & Hclean).
    assert (Hstrip : strip g = g).
    { by apply strip_by_id, amount_char_not_space. }
    exists ip, fp. split; [done |]. split; [done |]. split.
    + rewrite lookup_insert_ne by done. rewrite Hother by done. by rewrite Hm, Hstrip.
    + rewrite lookup_insert_eq. unfold parsed_amount.
      by rewrite Hstrip, Hclean, float_of_decimal_text.
  - split; [| by rewrite lookup_insert_eq].
    rewrite lookup_insert_ne by done. by rewrite Hother.
Qed.

Lemma first_sets_are_letters :
  forallb
    (fun kp => negb (nullable (pre kp.2))
               && all_ascii (fun c => implb (first (pre kp.2) c) (is_alpha c)))
    FIELD_PATTERNS = true.
Proof. vm_compute. reflexivity. Qed.

(** No pattern matches in a text without letters: every label starts with
    a letter. *)
Lemma search_no_letter text k p :
  In (k, p) FIELD_PATTERNS -> no_letter text = true -> search p text = None.
Proof.
  intros Hin Htext.
  pose proof first_sets_are_letters as Hall. rewrite forallb_forall in Hall.
  specialize (Hall _ Hin). simpl in Hall.
  apply andb_true_iff in Hall as [Hnul Hfirst]. apply negb_true_iff in Hnul.
  apply search_needs_first; [done |].
  revert Htext. apply all_chars_weaken. intros c Hc.
  pose proof (all_ascii_spec _ Hfirst c) as Himp. simpl in Himp.
  destruct (first (pre p) c); [| done]. simpl in Himp. by rewrite Himp in Hc.
Qed.

(** From a text without any letter the loop finds nothing and the
    fallback changes nothing. *)
Lemma no_letter_extracted text :
  no_letter text = true ->
  extract_fields text = Ok (<["estimated_damage_value" := PInt 0]> (match_patterns text))
  /\ forall k, In k FIELD_PATTERNS.*1 -> match_patterns text !! k = Some PNone.
Proof.
  intros Htext.
  destruct (extract_fields_ok text) as (d & Hd & Hex & Hother).
  assert (Hmp : forall k, In k FIELD_PATTERNS.*1 -> match_patterns text !! k = Some PNone).
  { intros k Hk. apply in_map_iff in Hk as ([k' p] & <- & Hin). simpl.
    rewrite (match_patterns_lookup _ _ p) by (by apply list_elem_of_In).
    unfold field_value. by rewrite (search_no_letter text k' p). }
  destruct (location_fallback_cases text) as (d' & Hd' & Hcases).
  rewrite Hd in Hd'. injection Hd' as <-.
  assert (Hsame : d = match_patterns text).
  { destruct Hcases as [-> | (l & -> & _)]; [done |]. exfalso.
    revert Hd. unfold location_fallback, dict_get.
    rewrite !Hmp by (simpl; repeat (first [left; reflexivity | right])).
    simpl. intros [= H].
    assert (Hl : match_patterns text !! "incident_location" = Some (PStr l)).
    { rewrite H. apply lookup_insert_eq. }
    rewrite Hmp in Hl by (simpl; repeat (first [left; reflexivity | right])). done. }
  subst d. split; [| exact Hmp]. rewrite Hex.
  assert (Hdamage : search estimated_damage_re text = None).
  { apply (search_no_letter text "estimated_damage"); [| done].
    simpl. repeat (first [left; reflexivity | right]). }
  by rewrite Hdamage.
Qed.

(** X4: from a text without any letter (an empty text, blank lines, bare
    numbers) [extract_fields] extracts nothing: the seventeen fields are
    [None], the damage value is 0 and [validate_fields] reports the six
    mandatory fields. *)
Theorem extract_fields_no_letter (text : string) :
  no_letter text = true ->
  exists extracted,
    extract_fields text = Ok extracted
    /\ (forall k, In k FIELD_PATTERNS.*1 -> extracted !! k = Some PNone)
    /\ extracted !! "estimated_damage_value" = Some (PInt 0)
    /\ validate_fields extracted = MANDATORY_FIELDS.
Proof.
  intros Htext. destruct (no_letter_extracted text Htext) as [Hex Hmp].
  eexists. split; [exact Hex |].
  assert (Hkeys : forall k, In k FIELD_PATTERNS.*1 ->
            <["estimated_damage_value" := PInt 0]> (match_patterns text) !! k
            = Some PNone).
  { intros k Hk. rewrite lookup_insert_ne; [by apply Hmp |].
    intros <-. revert Hk. simpl. intros H. repeat (destruct H as [[=] | H]). done. }
  split; [exact Hkeys |]. split; [apply lookup_insert_eq |].
  rewrite validate_fields_filter. unfold MANDATORY_FIELDS, is_missing, dict_get.
  cbn [List.filter].
  rewrite !Hkeys by (simpl; repeat (first [left; reflexivity | right])).
  reflexivity.
Qed.

Lemma extract_fields_no_letter_witness :
  exists extracted,
    extract_fields (String "010" " 12,500.00 ") = Ok extracted
    /\ (forall k, In k FIELD_PATTERNS.*1 -> extracted !! k = Some PNone)
    /\ extracted !! "estimated_damage_value" = Some (PInt 0)
    /\ validate_fields extracted = MANDATORY_FIELDS.
Proof. apply (extract_fields_no_letter (String "010" " 12,500.00 ")). reflexivity. Defined.

(** A field whose group reads no white space is stored as the group
    matched, a string of the language of the group. *)
Lemma stored_group text k p :
  In (k, p) FIELD_PATTERNS ->
  k <> "incident_location" ->
  all_ascii (fun c => implb (accepts (grp p) c) (negb (is_space c))) = true ->
  exists extracted,
    extract_fields text = Ok extracted
    /\ (extracted !! k = Some PNone
        \/ exists g, extracted !! k = Some (PStr g)
                     /\ lang (grp p) g
                     /\ all_chars (accepts (grp p)) g = true).
Proof.
  intros Hin Hk Hspace.
  destruct (extract_fields_match text k p Hin Hk) as (extracted & Hex & Hlookup).
  exists extracted. split; [done |]. rewrite Hlookup. unfold field_value.
  destruct (search p text) as [g|] eqn:Hg; [right | by left].
  pose proof (search_group _ _ _ Hg) as Hchars.
  exists g. split; [| split; [by eapply search_lang | done]].
  do 2 f_equal. apply strip_by_id. revert Hchars. apply all_chars_weaken.
  intros c Hc. pose proof (all_ascii_spec _ Hspace c) as Himp. simpl in Himp.
  by rewrite Hc in Himp.
Qed.

Lemma lang_times_digit n c :
  lang (times n digit) c -> String.length c = n /\ all_chars is_digit c = true.
Proof.
  intros H. apply lang_digits in H as (Hlo & Hhi & Hd). simpl in Hhi.
  split; [lia | done].
Qed.

Lemma date_separator x :
  cls_match false [One "/"; One "-"] x = true ->
  Ascii.eqb x "/" || Ascii.eqb x "-" = true.
Proof. destruct x as [[] [] [] [] [] [] [] []]; by try discriminate. Qed.

Lemma lang_date_shape g : lang date_re g -> date_shape g = true.
Proof.
  intros (c1 & r1 & -> & H1 & (c2 & r2 & -> & (x & -> & Hx)
          & (c3 & r3 & -> & H3 & (c4 & c5 & -> & (y & -> & Hy) & H5)))).
  apply lang_times_digit in H1 as [L1 D1]. apply lang_times_digit in H3 as [L3 D3].
  apply lang_times_digit in H5 as [L5 D5].
  apply date_separator in Hx, Hy.
  destruct c1 as [|a [|b [|]]]; try discriminate L1.
  destruct c3 as [|c [|d [|]]]; try discriminate L3.
  destruct c5 as [|e [|f [|g [|h [|]]]]]; try discriminate L5.
  simpl in D1, D3, D5.
  repeat match goal with
         | H : _ && _ = true |- _ => apply andb_true_iff in H as [? ?]
         end.
  cbv [String.append date_shape forallb].
  repeat match goal with
         | H : is_digit _ = true |- _ => rewrite H; clear H
         end.
  by rewrite Hx, Hy.
Qed.

(** X5: a stored date ([effective_date], [incident_date]) is [None] or a
    string of ten characters: two digits, a slash or a hyphen, two digits,
    a slash or a hyphen and four digits. *)
Theorem extracted_dates_shape (text : string) (k : string) :
  In k ["effective_date"; "incident_date"] ->
  exists extracted,
    extract_fields text = Ok extracted
    /\ (extracted !! k = Some PNone
        \/ exists s, extracted !! k = Some (PStr s) /\ date_shape s = true).
Proof.
  intros Hk.
  assert (Hp : exists p, In (k, p) FIELD_PATTERNS /\ grp p = date_re
                         /\ k <> "incident_location").
  { simpl in Hk. destruct Hk as [<- | [<- | []]].
    - exists effective_date_re. split; [| done].
      simpl. repeat (first [left; reflexivity | right]).
    - exists incident_date_re. split; [| done].
      simpl. repeat (first [left; reflexivity | right]). }
  destruct Hp as (p & Hin & Hgrp & Hne).
  destruct (stored_group text k p Hin Hne) as (extracted & Hex & Hcases).
  { rewrite Hgrp. vm_compute. reflexivity. }
  exists extracted. split; [done |].
  destruct Hcases as [? | (g & Hg & Hlang & _)]; [by left | right].
  exists g. split; [done |]. apply lang_date_shape. by rewrite <- Hgrp.
Qed.

Lemma extracted_dates_shape_witness :
  exists extracted,
    extract_fields "DATE OF LOSS: 01/02/2024" = Ok extracted
    /\ (extracted !! "incident_date" = Some PNone
        \/ exists s, extracted !! "incident_date" = Some (PStr s)
                     /\ date_shape s = true).
Proof.
  apply (extracted_dates_shape "DATE OF LOSS: 01/02/2024" "incident_date").
  right. left. reflexivity.
Defined.

Lemma vin_class c :
  cls_match false
    [Range "A" "H"; Range "J" "N"; One "P"; Range "R" "Z"; Range "0" "9"] c
  = vin_char c.
Proof. destruct c as [[] [] [] [] [] [] [] []]; reflexivity. Qed.

Lemma policy_class c :
  cls_match false [Range "0" "9"; Range "A" "Z"; Range "a" "z"; One "-"] c
  = policy_char c.
Proof. destruct c as [[] [] [] [] [] [] [] []]; reflexivity. Qed.

(** X6: a stored [vehicle_vin] is [None] or a string of exactly seventeen
    characters, each a digit or a letter other than I, O and Q (in either
    case); a stored [policy_number] is [None] or a non-empty string of
    letters, digits and hyphens. *)
Theorem extracted_identifiers_shape (text : string) :
  exists extracted,
    extract_fields text = Ok extracted
    /\ (extracted !! "vehicle_vin" = Some PNone
        \/ exists s, extracted !! "vehicle_vin" = Some (PStr s)
                     /\ String.length s = 17%nat
                     /\ all_chars vin_char s = true)
    /\ (extracted !! "policy_number" = Some PNone
        \/ exists s, extracted !! "policy_number" = Some (PStr s)
                     /\ s <> ""
                     /\ all_chars policy_char s = true).
Proof.
  destruct (stored_group text "vehicle_vin" vehicle_vin_re)
    as (extracted & Hex & Hvin);
    [simpl; repeat (first [left; reflexivity | right]) | done
    | vm_compute; reflexivity |].
  destruct (stored_group text "policy_number" policy_number_re)
    as (extracted' & Hex' & Hpol);
    [simpl; repeat (first [left; reflexivity | right]) | done
    | vm_compute; reflexivity |].
  rewrite Hex in Hex'. injection Hex' as <-.
  exists extracted. split; [done |]. split.
  - destruct Hvin as [? | (g & Hg & Hlang & _)]; [by left | right].
    exists g. split; [done |].
    apply lang_rep_class in Hlang as (Hlo & Hhi & Hall). simpl in Hhi.
    split; [lia |]. revert Hall. apply all_chars_weaken.
    intros c. by rewrite vin_class.
  - destruct Hpol as [? | (g & Hg & Hlang & _)]; [by left | right].
    exists g. split; [done |].
    apply lang_rep_class in Hlang as (Hlo & _ & Hall).
    split; [intros ->; simpl in Hlo; lia |]. revert Hall. apply all_chars_weaken.
    intros c. by rewrite policy_class.
Qed.

Lemma decimal_from_bound s :
  all_chars is_digit s = true ->
  forall acc, 0 <= acc ->
    0 <= decimal_from acc s < (acc + 1) * 10 ^ Z.of_nat (String.length s).
Proof.
  induction s as [|c s IH]; intros Hs acc Hacc.
  - simpl. lia.
  - simpl in Hs. apply andb_true_iff in Hs as [Hc Hs].
    assert (Hd : 0 <= PyFloat.digit_val c <= 9).
    { revert Hc. destruct c as [[] [] [] [] [] [] [] []]; by vm_compute. }
    cbn [decimal_from String.length]. rewrite Nat2Z.inj_succ, Z.pow_succ_r by lia.
    specialize (IH Hs (acc * 10 + PyFloat.digit_val c) ltac:(lia)).
    assert (0 < 10 ^ Z.of_nat (String.length s)) by (apply Z.pow_pos_nonneg; lia).
    nia.
Qed.

Lemma lang_thousands pieces :
  Forall (lang (seqs [Lit ","; times 3 digit])) pieces ->
  Forall thousands_group pieces.
Proof.
  intros Hall. eapply Forall_impl; [exact Hall |].
  intros g (c1 & c2 & -> & (x & -> & Hx) & Hc2).
  apply lit_match_comma in Hx as ->. apply lang_digits in Hc2 as (Hlo & Hhi & Hd).
  exists c2. split; [done |]. split; [simpl in Hhi; lia | done].
Qed.

(** X20: a stored [estimated_damage] is [None] or one to three digits,
    then groups of a comma and three digits, then nothing or a dot and two
    digits.  So the digits before the first comma are read as a number
    below 1000: of an amount written without separators of thousands (as
    in 50000) no more than the three leading digits are stored. *)
Theorem extracted_damage_grouping (text : string) :
  exists extracted,
    extract_fields text = Ok extracted
    /\ (extracted !! "estimated_damage" = Some PNone
        \/ exists lead groups cents,
             extracted !! "estimated_damage"
             = Some (PStr (lead ++ flatten groups ++ cents))
             /\ (1 <= String.length lead <= 3)%nat
             /\ all_chars is_digit lead = true
             /\ Forall thousands_group groups
             /\ cents_part cents
             /\ 0 <= decimal_from 0 lead < 1000).
Proof.
  destruct (extract_fields_ok text) as (d & _ & Hex & Hother).
  eexists. split; [exact Hex |].
  rewrite lookup_insert_ne by done. rewrite Hother by done.
  rewrite match_patterns_estimated_damage. unfold field_value.
  destruct (search estimated_damage_re text) as [g|] eqn:Hg; [| by left].
  right. apply search_lang in Hg.
  destruct (damage_group_decimal g Hg) as (Hchars & _).
  assert (Hstrip : strip g = g) by (by apply strip_by_id, amount_char_not_space).
  rewrite Hstrip. clear Hstrip Hchars.
  destruct Hg as (lead & rest & -> & Hlead & (m & f & -> & (pieces & -> & _ & _ & Hm) & Hf)).
  apply lang_digits in Hlead as (Hlo & Hhi & Hd). simpl in Hhi.
  exists lead, pieces, f. split; [done |]. split; [lia |]. split; [done |].
  split; [by apply lang_thousands |]. split.
  - destruct Hf as (ps & -> & _ & Hps & Hall). simpl in Hps.
    destruct ps as [|c1 [|c2 ps]]; [by left | | simpl in Hps; lia].
    right. apply Forall_cons in Hall as [(c & f2 & -> & (x & -> & Hx) & Hf2) _].
    apply lit_match_dot in Hx as ->. apply lang_digits in Hf2 as (Hlo2 & Hhi2 & Hf2).
    exists f2. simpl in Hhi2. split; [| split; [lia | done]].
    change (flatten [String "." "" ++ f2]) with ((String "." "" ++ f2) ++ "").
    by rewrite append_empty_r.
  - pose proof (decimal_from_bound lead Hd 0 ltac:(lia)) as Hbound.
    assert (10 ^ Z.of_nat (String.length lead) <= 10 ^ 3)
      by (apply Z.pow_le_mono_r; lia).
    lia.
Qed.

(** A damage written without separators: the three leading digits are
    stored. *)
Example unseparated_damage :
  extracted_values "ESTIMATED DAMAGE: 50000" ["estimated_damage"]
  = Ok [Some (PStr "500")]
  /\ route_of_text
       ("POLICY NUMBER: ABC123" ++ String nl
        ("NAME OF INSURED: Jane Doe" ++ String nl
        ("DATE OF LOSS: 01/02/2024" ++ String nl
        ("LOCATION OF LOSS: 123 Main St" ++ String nl
        ("CLAIM TYPE: Auto" ++ String nl "ESTIMATED DAMAGE: 50000")))))
     = Ok ("FAST_TRACK", [], []).
Proof. split; vm_compute; reflexivity. Qed.

End ExtractMore.


(** ** More on [determine_route] *)

Section RoutingMore.
Import PyStr RoutingEngine.

Lemma less_than_iff_below v z b : less_than v z = Ok b -> (below v z <-> b = true).
Proof.
  intros H. destruct (less_than_below _ _ _ H) as [[Hb _] | ->]; [done |].
  injection H as <-. simpl. split; [intros (q & [=] & _) | done].
Qed.

Lemma empty_test {A} `{EqDecision A} (l : list A) :
  negb (bool_decide (l = [])) = false <-> l = [].
Proof. rewrite negb_false_iff, bool_decide_eq_true. tauto. Qed.

(** The equation of rules 3 and 4. *)
Lemma determine_route_rules34 extracted :
  determine_route extracted [] []
  = (s ← FieldExtractor.as_str (dict_get_default extracted "claim_type" (PStr ""));
     if is_injury_type s then
       Ok (Decision_ "SPECIALIST_QUEUE"
             "Claim type requires specialist handling (injury/bodily harm involved)")
     else
       low ← less_than (dict_get_default extracted "estimated_damage_value" (PInt 0))
                FAST_TRACK_THRESHOLD;
       amount ← format_amount (dict_get_default extracted "estimated_damage_value" (PInt 0));
       if (low : bool) then
         Ok (Decision_ "FAST_TRACK"
               ("Low damage amount ($" ++ amount ++ " < $"
                  ++ PyFloat.format_int FAST_TRACK_THRESHOLD
                  ++ "). Eligible for expedited processing."))
       else
         Ok (Decision_ "STANDARD_REVIEW"
               ("High damage amount ($" ++ amount ++ " >= $"
                  ++ PyFloat.format_int FAST_TRACK_THRESHOLD
                  ++ "). Requires standard review."))).
Proof. reflexivity. Qed.

(** One line of the decision table, once the rule that fired is known. *)
Ltac table_case :=
  intros;
  repeat match goal with
         | H : _ /\ _ |- _ => destruct H
         | H : exists _, _ |- _ => destruct H
         end;
  simplify_eq;
  first
    [ done
    | congruence
    | by eexists
    | match goal with
      | Hlow : below _ _ <-> _ |- _ =>
          first [ by apply Hlow
                | let Hb := fresh "Hb" in
                  intros Hb; apply Hlow in Hb; discriminate Hb
                | match goal with
                  | Hn : ~ below _ _ |- _ => exfalso; apply Hn; by apply Hlow
                  | Hb : below _ _ |- _ => apply Hlow in Hb; discriminate Hb
                  end ]
      end ].

(** X7: the decision table of [determine_route].  When it returns, the
    route is MANUAL_REVIEW exactly when a field is missing,
    INVESTIGATION_FLAG exactly when no field is missing and a fraud
    indicator was found, SPECIALIST_QUEUE exactly when both lists are empty
    and the claim type is an injury type, and otherwise FAST_TRACK exactly
    when the damage value is below 25000 and STANDARD_REVIEW when it is
    not; the reasoning is never empty. *)
Theorem determine_route_table (extracted_fields : gmap string pyval)
    (missing_fields fraud_indicators : list string) (r : decision) :
  determine_route extracted_fields missing_fields fraud_indicators = Ok r ->
  (recommendedRoute r = "MANUAL_REVIEW" <-> missing_fields <> [])
  /\ (recommendedRoute r = "INVESTIGATION_FLAG"
      <-> missing_fields = [] /\ fraud_indicators <> [])
  /\ (recommendedRoute r = "SPECIALIST_QUEUE"
      <-> missing_fields = [] /\ fraud_indicators = []
          /\ exists s, dict_get_default extracted_fields "claim_type" (PStr "") = PStr s
                       /\ is_injury_type s = true)
  /\ (recommendedRoute r = "FAST_TRACK"
      <-> missing_fields = [] /\ fraud_indicators = []
          /\ (exists s, dict_get_default extracted_fields "claim_type" (PStr "") = PStr s
                        /\ is_injury_type s = false)
          /\ below (dict_get_default extracted_fields "estimated_damage_value" (PInt 0))
                   25000)
  /\ (recommendedRoute r = "STANDARD_REVIEW"
      <-> missing_fields = [] /\ fraud_indicators = []
          /\ (exists s, dict_get_default extracted_fields "claim_type" (PStr "") = PStr s
                        /\ is_injury_type s = false)
          /\ ~ below (dict_get_default extracted_fields "estimated_damage_value" (PInt 0))
                     25000)
  /\ reasoning r <> "".
Proof.
  destruct missing_fields as [|x m].
  2:{ intros [= <-]. simpl. repeat split; try done; table_case. }
  destruct fraud_indicators as [|y f].
  2:{ intros [= <-]. simpl. repeat split; try done; table_case. }
  rewrite determine_route_rules34.
  destruct (dict_get_default extracted_fields "claim_type" (PStr "")) as [|s| |];
    try discriminate. cbn [FieldExtractor.as_str mbind result_bind].
  destruct (is_injury_type s) eqn:Hinj.
  { intros [= <-]. simpl. repeat split; try done; table_case. }
  destruct (less_than _ _) as [low|e] eqn:Hlow; [| discriminate].
  cbn [mbind result_bind].
  destruct (format_amount _) as [amount|e]; [| discriminate].
  cbn [mbind result_bind].
  apply less_than_iff_below in Hlow.
  destruct low; intros [= <-]; simpl; repeat split; try done; table_case.
Qed.

Lemma determine_route_table_witness :
  recommendedRoute
    (Decision_ "INVESTIGATION_FLAG" "Potential fraud indicators detected: staged")
  = "INVESTIGATION_FLAG"
  <-> @nil string = [] /\ ["staged"] <> [].
Proof.
  apply (determine_route_table {[ "claim_type" := PStr "Auto" ]} [] ["staged"]).
  reflexivity.
Defined.

(** X8: the errors of [determine_route].  It raises only when both
    lists are empty: [AttributeError] when the stored claim type is not a
    string, and, for a claim type that is not an injury type, [TypeError]
    when the damage value is [None] or a string and [OverflowError] when
    it is an integer too large for a float.  In every other case it
    returns. *)
Theorem determine_route_errors (extracted_fields : gmap string pyval)
    (missing_fields fraud_indicators : list string) (e : exn) :
  determine_route extracted_fields missing_fields fraud_indicators = Raise e
  <-> missing_fields = [] /\ fraud_indicators = []
      /\ ((e = AttributeError
           /\ forall s, dict_get_default extracted_fields "claim_type" (PStr "") <> PStr s)
          \/ exists s,
               dict_get_default extracted_fields "claim_type" (PStr "") = PStr s
               /\ is_injury_type s = false
               /\ ((e = TypeError
                    /\ (dict_get_default extracted_fields "estimated_damage_value" (PInt 0)
                        = PNone
                        \/ exists t,
                             dict_get_default extracted_fields "estimated_damage_value"
                               (PInt 0) = PStr t))
                   \/ (e = OverflowError
                       /\ exists z,
                            dict_get_default extracted_fields "estimated_damage_value"
                              (PInt 0) = PInt z
                            /\ ~ is_amount (PInt z)))).
Proof.
  destruct missing_fields as [|x m]; [| split; [done | by intros [[=] _]]].
  destruct fraud_indicators as [|y f]; [| split; [done | by intros (_ & [=] & _)]].
  rewrite determine_route_rules34.
  destruct (dict_get_default extracted_fields "claim_type" (PStr "")) as [|s| |] eqn:Hct;
    cbn [FieldExtractor.as_str mbind result_bind];
    try (split;
         [ intros [= <-]; split; [done |]; split; [done |]; left; by split
         | intros (_ & _ & [[-> _] | (s' & [=] & _)]); done ]).
  destruct (is_injury_type s) eqn:Hinj.
  { split; [done |]. intros (_ & _ & [[_ H] | (s' & [= <-] & H & _)]); [| congruence].
    by destruct (H s). }
  destruct (dict_get_default extracted_fields "estimated_damage_value" (PInt 0))
    as [|t|z|fl] eqn:Hv; cbn [less_than format_amount mbind result_bind].
  - split.
    + intros [= <-]. split; [done |]. split; [done |]. right. exists s.
      split; [done |]. split; [done |]. left. split; [done |]. by left.
    + intros (_ & _ & [[_ H] | (s' & _ & _ & [[-> _] | [_ (z & [=] & _)]])]);
        [by destruct (H s) | done].
  - split.
    + intros [= <-]. split; [done |]. split; [done |]. right. exists s.
      split; [done |]. split; [done |]. left. split; [done |]. right. by exists t.
    + intros (_ & _ & [[_ H] | (s' & _ & _ & [[-> _] | [_ (z & [=] & _)]])]);
        [by destruct (H s) | done].
  - unfold is_amount. split.
    + intros He. split; [done |]. split; [done |]. right. exists s.
      split; [done |]. split; [done |]. right.
      destruct (PyFloat.of_int z) eqn:Hz; cbn [mbind result_bind] in He;
        try (by destruct (z <? FAST_TRACK_THRESHOLD)).
      injection He as <-. split; [done |]. exists z. split; [done |].
      rewrite Hz. tauto.
    + intros (_ & _ & [[_ H] | (s' & _ & _ & [[_ [[=] | (t' & [=])]]
                                              | [-> (z' & [= <-] & Hz')]])]);
        [by destruct (H s) |].
      destruct (PyFloat.of_int z); try (exfalso; by apply Hz'). reflexivity.
  - destruct (PyFloat.lt_int fl FAST_TRACK_THRESHOLD);
      (split; [done |]);
      intros (_ & _ & [[_ H] | (s' & _ & _ & [[_ [[=] | (t' & [=])]]
                                              | [_ (z' & [=] & _)]])]);
      by destruct (H s).
Qed.

Lemma In_join x sep l :
  In x l -> exists before after, join sep l = before ++ x ++ after.
Proof.
  induction l as [|y l IH]; [done |]. intros [-> | Hin].
  - destruct l as [|z l].
    + exists "", "". by rewrite append_nil, append_empty_r.
    + exists "", (sep ++ join sep (z :: l)). by rewrite append_nil.
  - destruct (IH Hin) as (before & after & Heq). destruct l as [|z l]; [done |].
    exists (y ++ sep ++ before), after.
    change (join sep (y :: z :: l)) with (y ++ sep ++ join sep (z :: l)).
    by rewrite Heq, !append_assoc.
Qed.

(** X9: the reasoning names what fired the rule: every missing field
    occurs in the reasoning of a MANUAL_REVIEW decision, and every fraud
    indicator in the reasoning of an INVESTIGATION_FLAG decision. *)
Theorem determine_route_reasoning_names (extracted_fields : gmap string pyval)
    (missing_fields fraud_indicators : list string) (r : decision) :
  determine_route extracted_fields missing_fields fraud_indicators = Ok r ->
  (forall field, In field missing_fields -> contains field (reasoning r) = true)
  /\ (missing_fields = [] ->
      forall keyword, In keyword fraud_indicators ->
                      contains keyword (reasoning r) = true).
Proof.
  destruct missing_fields as [|x m].
  - intros Hr. split; [done |]. intros _ keyword Hin.
    destruct fraud_indicators as [|y f]; [done |].
    assert (r = Decision_ "INVESTIGATION_FLAG"
                  ("Potential fraud indicators detected: " ++ join ", " (y :: f)))
      as -> by (by injection Hr as <-).
    cbn [reasoning]. apply contains_spec.
    destruct (In_join keyword ", " (y :: f) Hin) as (before & after & ->).
    exists ("Potential fraud indicators detected: " ++ before), after.
    by rewrite !append_assoc.
  - intros Hr.
    assert (r = Decision_ "MANUAL_REVIEW"
                  ("Missing mandatory fields: " ++ join ", " (x :: m)))
      as -> by (by injection Hr as <-).
    split; [| done]. intros field Hin. cbn [reasoning]. apply contains_spec.
    destruct (In_join field ", " (x :: m) Hin) as (before & after & ->).
    exists ("Missing mandatory fields: " ++ before), after.
    by rewrite !append_assoc.
Qed.

Lemma determine_route_reasoning_names_witness :
  contains "incident_date"
    "Missing mandatory fields: policy_number, incident_date" = true.
Proof.
  refine (proj1 (determine_route_reasoning_names ∅ ["policy_number"; "incident_date"] []
                   (Decision_ "MANUAL_REVIEW"
                      "Missing mandatory fields: policy_number, incident_date") _)
            "incident_date" _).
  - reflexivity.
  - right. left. reflexivity.
Defined.

End RoutingMore.


(** ** More on [process_claim] *)

Section AgentMore.
Import PyStr Re FieldExtractor RoutingEngine DocumentParser ClaimsProcessingAgent.

Lemma rstrip_by_cons p c s :
  rstrip_by p (String c s)
  = match rstrip_by p s with
    | EmptyString => if p c then EmptyString else String c EmptyString
    | r => String c r
    end.
Proof. reflexivity. Qed.

Lemma rstrip_by_idemp p s : rstrip_by p (rstrip_by p s) = rstrip_by p s.
Proof.
  induction s as [|c s IH]; [done |]. rewrite rstrip_by_cons.
  destruct (rstrip_by p s) as [|d r] eqn:Hr.
  - destruct (p c) eqn:Hc; [done |]. rewrite rstrip_by_cons. simpl. by rewrite Hc.
  - by rewrite rstrip_by_cons, IH.
Qed.

Lemma lstrip_by_cases p s :
  lstrip_by p s = "" \/ exists c t, lstrip_by p s = String c t /\ p c = false.
Proof.
  induction s as [|c s IH]; [by left |]. simpl.
  destruct (p c) eqn:Hc; [done |]. right. by exists c, s.
Qed.

Lemma strip_by_idemp p s : strip_by p (strip_by p s) = strip_by p s.
Proof.
  unfold strip_by. destruct (lstrip_by_cases p s) as [-> | (c & t & -> & Hc)]; [done |].
  assert (Hhead : exists r, rstrip_by p (String c t) = String c r).
  { cbn [rstrip_by]. destruct (rstrip_by p t); [rewrite Hc |]; by eexists. }
  destruct Hhead as [r Hr]. rewrite Hr. cbn [lstrip_by]. rewrite Hc, <- Hr.
  apply rstrip_by_idemp.
Qed.

Lemma match_patterns_keys text k :
  is_Some (match_patterns text !! k) <-> In k FIELD_PATTERNS.*1.
Proof.
  unfold match_patterns. rewrite fold_patterns_keys, lookup_empty.
  split; [intros [[v [=]] | H]; exact H | by right].
Qed.

(** What [extract_fields] stores under a name of [FIELD_PATTERNS]. *)
Lemma extract_fields_values text :
  exists extracted,
    extract_fields text = Ok extracted
    /\ (forall k v, extracted !! k = Some v -> k <> "estimated_damage_value" ->
                    In k FIELD_PATTERNS.*1
                    /\ (v = PNone
                        \/ exists s, v = PStr s
                                     /\ (k <> "incident_location" -> strip s = s)))
    /\ forall k, In k FIELD_PATTERNS.*1 -> is_Some (extracted !! k).
Proof.
  destruct (extract_fields_ok text) as (d & Hd & Hex & Hother).
  eexists. split; [exact Hex |].
  assert (Hloop : forall k v, match_patterns text !! k = Some v ->
                              In k FIELD_PATTERNS.*1
                              /\ (v = PNone \/ exists s, v = PStr s /\ strip s = s)).
  { intros k v Hk.
    assert (Hin : In k FIELD_PATTERNS.*1) by (apply (match_patterns_keys text); by eexists).
    split; [done |]. apply in_map_iff in Hin as ([k' p] & <- & Hin).
    apply list_elem_of_In in Hin. rewrite (match_patterns_lookup _ _ _ Hin) in Hk.
    injection Hk as <-. unfold field_value. destruct (search p text) as [g|]; [| by left].
    right. eexists. split; [done |]. apply strip_by_idemp. }
  assert (Hloc : d !! "incident_location" = match_patterns text !! "incident_location"
                 \/ exists l, d !! "incident_location" = Some (PStr l)).
  { destruct (location_fallback_cases text) as (d' & Hd' & Hcases).
    rewrite Hd in Hd'. injection Hd' as <-.
    destruct Hcases as [Heq | (l & Heq & _)]; rewrite Heq; [by left |].
    right. exists l. apply lookup_insert_eq. }
  assert (Hlocin : In "incident_location" FIELD_PATTERNS.*1).
  { apply (match_patterns_keys text). rewrite match_patterns_incident_location. by eexists. }
  split.
  - intros k v Hk Hne. rewrite lookup_insert_ne in Hk by done.
    destruct (decide (k = "incident_location")) as [-> | Hk'].
    + split; [done |]. destruct Hloc as [Heq | (l & Heq)]; rewrite Heq in Hk.
      * destruct (Hloop _ _ Hk) as [_ [-> | (s & -> & _)]]; [by left |].
        right. by exists s.
      * injection Hk as <-. right. by exists l.
    + rewrite Hother in Hk by done. destruct (Hloop _ _ Hk) as [Hin Hv].
      split; [done |]. destruct Hv as [-> | (s & -> & Hs)]; [by left |].
      right. by exists s.
  - intros k Hin.
    assert (Hm : is_Some (match_patterns text !! k)) by by apply match_patterns_keys.
    assert (Hne : k <> "estimated_damage_value").
    { intros ->. apply in_map_iff in Hin as ([k' p] & Hk' & Hin). simpl in Hk'. subst k'.
      revert Hin. unfold FIELD_PATTERNS. simpl. intuition congruence. }
    rewrite lookup_insert_ne by done.
    destruct (decide (k = "incident_location")) as [-> | Hk']; [| by rewrite Hother].
    destruct Hloc as [-> | (l & ->)]; [done | by eexists].
Qed.

Lemma clean_lookup (m : gmap string pyval) k v :
  _clean_extracted_fields m !! k = Some v
  <-> m !! k = Some v /\ v <> PNone /\ endswith "_value" k = false.
Proof.
  unfold _clean_extracted_fields. rewrite map_lookup_filter_Some. cbn [fst snd].
  rewrite andb_True, !negb_True, !Is_true_true.
  assert (Hnone : is_none v = true <-> v = PNone) by (by destruct v).
  rewrite Hnone. destruct (endswith "_value" k); intuition congruence.
Qed.

(** X10: [process_claim] raises nothing, whatever the document and the
    file system are: it returns a result whose status is SUCCESS when the
    parser returned a text and FAILED otherwise, whose route is one of the
    five routes, which has an error exactly when it failed, and it counts
    the document exactly when it succeeded. *)
Theorem process_claim_returns (fs : env) (processed_count : nat) (path : string) :
  exists r,
    process_claim fs processed_count path
    = Ok (r, if succeeded r then S processed_count else processed_count)
    /\ (status r = "SUCCESS" \/ status r = "FAILED")
    /\ (status r = "SUCCESS" <-> exists text, parse_document fs path = inr text)
    /\ (status r = "SUCCESS" <-> error r = None)
    /\ (status r = "SUCCESS" ->
        document_path r = Some path /\ is_Some (fraudIndicators r))
    /\ In (recommendedRoute r) get_all_routes.
Proof.
  unfold process_claim.
  destruct (parse_document fs path) as [e|text].
  - match goal with |- exists r, Ok (?x, _) = _ /\ _ => exists x end.
    split; [reflexivity |].
    cbn [status error document_path fraudIndicators recommendedRoute].
    split; [by right |]. split; [split; [done | by intros [text [=]]] |].
    split; [done |]. split; [done |]. vm_compute. tauto.
  - destruct (determine_route_on_extracted text) as (ex & r & -> & Hr & Hin).
    cbn [mbind result_bind]. rewrite Hr. cbn [mbind result_bind].
    match goal with |- exists r, Ok (?x, _) = _ /\ _ => exists x end.
    split; [reflexivity |].
    cbn [status error document_path fraudIndicators recommendedRoute].
    split; [by left |]. split; [split; [by exists text | done] |].
    split; [done |]. split; [| done]. intros _. split; [done | by eexists].
Qed.

(** A value reported in a result is a string. *)
Lemma process_claim_reports_fields fs processed_count path r n k v :
  process_claim fs processed_count path = Ok (r, n) ->
  extractedFields r !! k = Some v ->
  exists s, v = PStr s.
Proof.
  unfold process_claim. destruct (parse_document fs path) as [e|text].
  - intros [= <- _]. cbn. by rewrite lookup_empty.
  - destruct (extract_fields_values text) as (ex & Hex & Hvalues & _). rewrite Hex.
    cbn [mbind result_bind].
    destruct (determine_route _ _ _) as [d|e]; cbn [mbind result_bind]; [| done].
    intros [= <- _]. cbn [extractedFields]. rewrite clean_lookup.
    intros (Hk & Hv & He).
    assert (Hne : k <> "estimated_damage_value") by (intros ->; done).
    destruct (Hvalues k v Hk Hne) as [Hin [-> | (s & -> & _)]]; [done | by exists s].
Qed.

(** X11: the fields reported in a result are strings found in the
    document: [extractedFields] has no [None], no number and no name
    ending in [_value] (so never [estimated_damage_value]), its names are
    names of [FIELD_PATTERNS], and every value but the location has no
    white space at either end. *)
Theorem process_claim_reports_strings (fs : env) (processed_count : nat)
    (path : string) (r : claim_result) (n : nat) (k : string) (v : pyval) :
  process_claim fs processed_count path = Ok (r, n) ->
  extractedFields r !! k = Some v ->
  In k FIELD_PATTERNS.*1
  /\ endswith "_value" k = false
  /\ exists s, v = PStr s /\ (k <> "incident_location" -> strip s = s).
Proof.
  unfold process_claim. destruct (parse_document fs path) as [e|text].
  - intros [= <- _]. cbn. by rewrite lookup_empty.
  - destruct (extract_fields_values text) as (ex & Hex & Hvalues & _). rewrite Hex.
    cbn [mbind result_bind].
    destruct (determine_route _ _ _) as [d|e]; cbn [mbind result_bind]; [| done].
    intros [= <- _]. cbn [extractedFields]. rewrite clean_lookup.
    intros (Hk & Hv & He).
    assert (Hne : k <> "estimated_damage_value") by (intros ->; done).
    destruct (Hvalues k v Hk Hne) as [Hin [-> | Hs]]; done.
Qed.

Lemma process_claim_reports_strings_witness :
  In "policy_number" FIELD_PATTERNS.*1
  /\ endswith "_value" "policy_number" = false
  /\ exists s, PStr "ABC123" = PStr s
               /\ ("policy_number" <> "incident_location" -> strip s = s).
Proof.
  assert (H : exists r n,
             process_claim (txt_fs (scenario "Auto" "")) 0 "claim.txt" = Ok (r, n)
             /\ extractedFields r !! "policy_number" = Some (PStr "ABC123")).
  { vm_compute. eexists _, _. split; reflexivity. }
  destruct H as (r & n & Hr & Hk).
  exact (process_claim_reports_strings _ _ _ r n _ _ Hr Hk).
Defined.

Lemma validate_fields_ext (m1 m2 : gmap string pyval) :
  (forall field, In field MANDATORY_FIELDS -> dict_get m1 field = dict_get m2 field) ->
  validate_fields m1 = validate_fields m2.
Proof.
  intros Hget. rewrite !validate_fields_filter. apply List.filter_ext_in.
  intros field Hin. unfold is_missing. by rewrite Hget.
Qed.

(** Dropping the [None] values does not change what [get] returns. *)
Lemma clean_get (m : gmap string pyval) field :
  endswith "_value" field = false ->
  dict_get (_clean_extracted_fields m) field = dict_get m field.
Proof.
  intros Hend. unfold dict_get.
  destruct (_clean_extracted_fields m !! field) as [v|] eqn:Hclean.
  - apply clean_lookup in Hclean as (-> & _). done.
  - destruct (m !! field) as [v|] eqn:Hm; [| done].
    assert (Hv : v = PNone \/ v <> PNone) by (destruct v; first [by left | by right]).
    destruct Hv as [-> | Hv]; [done |].
    assert (Hc : _clean_extracted_fields m !! field = Some v) by by apply clean_lookup.
    by rewrite Hclean in Hc.
Qed.

(** The two shapes of a result. *)
Lemma process_claim_cases fs processed_count path r n :
  process_claim fs processed_count path = Ok (r, n) ->
  (exists e, parse_document fs path = inl e
             /\ extractedFields r = ∅ /\ missingFields r = MANDATORY_FIELDS)
  \/ exists text extracted d,
       parse_document fs path = inr text
       /\ extract_fields text = Ok extracted
       /\ determine_route extracted (validate_fields extracted)
            (check_for_fraud_indicators text) = Ok d
       /\ r = ClaimResult None "SUCCESS" (Some path)
                (_clean_extracted_fields extracted) (validate_fields extracted)
                (Some (check_for_fraud_indicators text))
                (RoutingEngine.recommendedRoute d) (RoutingEngine.reasoning d)
       /\ n = S processed_count.
Proof.
  unfold process_claim. destruct (parse_document fs path) as [e|text].
  - intros [= <- _]. left. exists e. repeat split.
  - destruct (extract_fields text) as [ex|e] eqn:Hex; cbn [mbind result_bind]; [| done].
    destruct (determine_route _ _ _) as [d|e] eqn:Hd; cbn [mbind result_bind]; [| done].
    intros [= <- <-]. right. by exists text, ex, d.
Qed.

(** X12: the missing fields of a result can be computed again from the
    fields it reports, although the validation ran before [None] values
    were dropped: [missingFields] is [validate_fields] of
    [extractedFields], and a mandatory field is missing exactly when the
    result does not report it, or reports the empty string or a
    placeholder. *)
Theorem process_claim_missing_consistent (fs : env) (processed_count : nat)
    (path : string) (r : claim_result) (n : nat) :
  process_claim fs processed_count path = Ok (r, n) ->
  missingFields r = validate_fields (extractedFields r)
  /\ forall field,
       In field (missingFields r)
       <-> In field MANDATORY_FIELDS
           /\ (extractedFields r !! field = None
               \/ exists s, extractedFields r !! field = Some (PStr s)
                            /\ (s = ""
                                \/ in_list (strip (lower s)) placeholder_values = true)).
Proof.
  intros Hr.
  assert (Heq : missingFields r = validate_fields (extractedFields r)).
  { destruct (process_claim_cases _ _ _ _ _ Hr)
      as [(e & _ & -> & ->) | (text & ex & d & _ & _ & _ & -> & _)]; [done |].
    cbn [missingFields extractedFields]. apply validate_fields_ext.
    intros field Hin. symmetry. apply clean_get.
    revert Hin. unfold MANDATORY_FIELDS. simpl.
    intros H. by repeat (destruct H as [<- | H]). }
  split; [exact Heq |]. intros field. rewrite Heq, validate_fields_In.
  apply and_iff_compat_l. unfold is_missing, dict_get.
  destruct (extractedFields r !! field) as [v|] eqn:Hv; cbn [default]; [| by split; [left |]].
  destruct (process_claim_reports_fields _ _ _ _ _ _ _ Hr Hv) as (s & ->).
  cbn [truthy is_placeholder id]. rewrite orb_true_iff, negb_involutive, String.eqb_eq.
  split.
  - intros H. right. by exists s.
  - by intros [[=] | (s' & [= <-] & H)].
Qed.

Lemma process_claim_missing_consistent_witness :
  exists r n,
    process_claim (txt_fs "NAME OF INSURED: Jane Doe") 0 "claim.txt" = Ok (r, n)
    /\ missingFields r = validate_fields (extractedFields r).
Proof.
  assert (H : exists r n,
             process_claim (txt_fs "NAME OF INSURED: Jane Doe") 0 "claim.txt"
             = Ok (r, n)).
  { vm_compute. eexists _, _. reflexivity. }
  destruct H as (r & n & Hr). exists r, n. split; [exact Hr |].
  exact (proj1 (process_claim_missing_consistent _ _ _ r n Hr)).
Defined.

Lemma lower_no_letter text : no_letter text = true -> lower text = text.
Proof.
  unfold no_letter, lower. induction text as [|c text IH]; [done |]. simpl.
  rewrite andb_true_iff, negb_true_iff. intros [Hc Htext]. rewrite IH by done.
  unfold lower_char. unfold is_alpha in Hc. apply orb_false_iff in Hc as [-> _]. done.
Qed.

Lemma contains_no_letter keyword text :
  match keyword with
  | String c _ => is_alpha c
  | EmptyString => false
  end = true ->
  no_letter text = true ->
  contains keyword (lower text) = false.
Proof.
  destruct keyword as [|c rest]; [done |].
  intros Hc Htext. rewrite lower_no_letter by done.
  destruct (contains (String c rest) text) eqn:Hin; [| done].
  apply contains_spec in Hin as (before & after & ->).
  unfold no_letter in Htext. rewrite all_chars_app in Htext.
  apply andb_true_iff in Htext as [_ Htext]. simpl in Htext. by rewrite Hc in Htext.
Qed.

Lemma determine_route_all_missing extracted fraud :
  determine_route extracted MANDATORY_FIELDS fraud
  = Ok (Decision_ "MANUAL_REVIEW" all_missing_reasoning).
Proof. reflexivity. Qed.

Lemma bind_Ok {A B} (x : A) (k : A -> result B) : (Ok x ≫= k) = k x.
Proof. reflexivity. Qed.


Lemma none_insert (m : gmap string pyval) :
  (forall k, In k FIELD_PATTERNS.*1 -> m !! k = Some PNone) ->
  forall k, In k FIELD_PATTERNS.*1 ->
            <["estimated_damage_value" := PInt 0]> m !! k = Some PNone.
Proof.
  intros Hm k Hk. rewrite lookup_insert_ne; [by apply Hm |].
  intros <-. revert Hk. simpl. intros H. repeat (destruct H as [[=] | H]). done.
Qed.

Lemma none_validate (m : gmap string pyval) :
  (forall k, In k FIELD_PATTERNS.*1 -> m !! k = Some PNone) ->
  validate_fields m = MANDATORY_FIELDS.
Proof.
  intros Hm. rewrite validate_fields_filter. unfold MANDATORY_FIELDS, is_missing, dict_get.
  cbn [List.filter].
  rewrite !Hm by (simpl; repeat (first [left; reflexivity | right])).
  reflexivity.
Qed.

Lemma none_clean (m : gmap string pyval) :
  (forall k, is_Some (m !! k) <-> In k FIELD_PATTERNS.*1) ->
  (forall k, In k FIELD_PATTERNS.*1 -> m !! k = Some PNone) ->
  _clean_extracted_fields (<["estimated_damage_value" := PInt 0]> m) = ∅.
Proof.
  intros Hkeys Hm. apply map_eq. intros k. rewrite lookup_empty.
  destruct (_clean_extracted_fields _ !! k) as [v|] eqn:Hk; [| done].
  apply clean_lookup in Hk as (Hk & Hv & Hend).
  assert (Hne : k <> "estimated_damage_value") by (by intros ->).
  rewrite lookup_insert_ne in Hk by done.
  assert (Hin : In k FIELD_PATTERNS.*1) by (apply Hkeys; by eexists).
  rewrite Hm in Hk by done. by injection Hk as <-.
Qed.

Lemma none_fraud text : no_letter text = true -> check_for_fraud_indicators text = [].
Proof.
  intros Htext.
  rewrite check_for_fraud_indicators_filter. unfold fraud_keywords. cbn [List.filter].
  by rewrite !contains_no_letter by first [exact Htext | reflexivity].
Qed.

(** X13: a document whose text has no letter (an empty file, a scanned
    PDF whose pages give no text) is processed with status SUCCESS: it is
    counted, nothing is extracted, the six mandatory fields are missing,
    no fraud indicator is found and the route is MANUAL_REVIEW. *)
Theorem process_claim_no_letter (fs : env) (processed_count : nat)
    (path text : string) :
  parse_document fs path = inr text ->
  no_letter text = true ->
  process_claim fs processed_count path
  = Ok (ClaimResult None "SUCCESS" (Some path) ∅ MANDATORY_FIELDS (Some [])
          "MANUAL_REVIEW" all_missing_reasoning,
        S processed_count).
Proof.
  intros Hparse Htext. unfold process_claim. rewrite Hparse.
  destruct (no_letter_extracted text Htext) as [Hex Hmp].
  rewrite Hex, bind_Ok, (none_validate _ (none_insert _ Hmp)),
    (none_clean _ (match_patterns_keys text) Hmp), (none_fraud _ Htext),
    determine_route_all_missing, bind_Ok.
  reflexivity.
Qed.

Lemma process_claim_no_letter_witness :
  process_claim (pdf_fs [None; None]) 0 "scan.pdf"
  = Ok (ClaimResult None "SUCCESS" (Some "scan.pdf") ∅ MANDATORY_FIELDS (Some [])
          "MANUAL_REVIEW" all_missing_reasoning,
        1%nat).
Proof.
  apply (process_claim_no_letter (pdf_fs [None; None]) 0 "scan.pdf"
           (String "010" (String "010" ""))); reflexivity.
Defined.

Lemma process_claim_txt text route missing fraud :
  route_of_text text = Ok (route, missing, fraud) ->
  exists fs path processed_count r n,
    process_claim fs processed_count path = Ok (r, n)
    /\ ClaimsProcessingAgent.recommendedRoute r = route.
Proof.
  unfold route_of_text. intros Hroute.
  exists (txt_fs text), "claim.txt", O. unfold process_claim.
  change (parse_document (txt_fs text) "claim.txt") with (@inr doc_error string text).
  cbv iota. destruct (extract_fields text) as [ex|e]; cbn [mbind result_bind] in *; [| done].
  destruct (determine_route _ _ _) as [d|e]; cbn [mbind result_bind] in *; [| done].
  injection Hroute as <- _ _. by eexists _, _.
Qed.

(** X14: [get_all_routes] lists exactly the routes that [process_claim]
    can recommend: every result carries one of the five, and each of the
    five is the route of some document. *)
Theorem get_all_routes_reached (route : string) :
  In route get_all_routes
  <-> exists fs path processed_count r n,
        process_claim fs processed_count path = Ok (r, n)
        /\ ClaimsProcessingAgent.recommendedRoute r = route.
Proof.
  split.
  - unfold get_all_routes. simpl. intros [<- | [<- | [<- | [<- | [<- | []]]]]].
    + exact (process_claim_txt _ _ _ _ scenario_A).
    + apply (process_claim_txt costly_scenario _ [] []). vm_compute. reflexivity.
    + exact (process_claim_txt _ _ _ _ scenario_C).
    + exact (process_claim_txt _ _ _ _ scenario_D).
    + exact (process_claim_txt _ _ _ _ scenario_B).
  - intros (fs & path & processed_count & r & n & Hr & <-).
    destruct (process_claim_total fs processed_count path) as (r' & n' & Hr' & Hin).
    rewrite Hr in Hr'. by injection Hr' as <- _.
Qed.

End AgentMore.


(** ** The parser and the directories *)

Section ParserMore.
Import PyStr FieldExtractor RoutingEngine DocumentParser ClaimsProcessingAgent.

(** X15: [is_supported_format] is the test [parse_document] makes on a
    file that exists: it holds exactly of the suffixes [.pdf] and [.txt]
    (in any case, the suffix being lower-cased), a text is returned only
    for a file that exists and passes it, and a file that exists raises
    the error of an unsupported format exactly when it fails; a file that
    does not exist is reported as not found whatever its suffix. *)
Theorem parse_document_supported (fs : env) (path : string) :
  (is_supported_format fs path = true
   <-> path_suffix fs path = ".pdf" \/ path_suffix fs path = ".txt")
  /\ (forall text, parse_document fs path = inr text ->
                   path_exists fs path = true /\ is_supported_format fs path = true)
  /\ (path_exists fs path = true ->
      (is_supported_format fs path = false
       <-> parse_document fs path
           = inl (DocError UnsupportedFormat
                    ("Unsupported file format: " ++ path_suffix fs path))))
  /\ (path_exists fs path = false ->
      parse_document fs path
      = inl (DocError FileNotFoundError ("Document not found: " ++ path))).
Proof.
  unfold is_supported_format, SUPPORTED_FORMATS, in_list. cbn [existsb].
  rewrite orb_false_r. split; [by rewrite orb_true_iff, !String.eqb_eq |].
  unfold parse_document. destruct (path_exists fs path); cbn [negb]; [| done].
  destruct (String.eqb_spec (path_suffix fs path) ".txt") as [Htxt | Htxt].
  - rewrite orb_true_r. split; [done |]. split; [| done]. intros _. split; [done |].
    unfold _parse_txt. by destruct (read_text fs path).
  - rewrite orb_false_r.
    destruct (String.eqb_spec (path_suffix fs path) ".pdf") as [Hpdf | Hpdf].
    + split; [done |]. split; [| done]. intros _. split; [done |].
      unfold _parse_pdf. destruct (HAS_PDFPLUMBER fs); [| done].
      by destruct (pdf_pages fs path).
    + split; [done |]. split; [| done]. done.
Qed.

Lemma fold_pages (pages : list (option string)) (text : string) :
  fold_left (fun text page => text ++ default "" page ++ String "010" "") pages text
  = text ++ flatten (map page_text pages).
Proof.
  revert text. induction pages as [|page pages IH]; intros text; simpl.
  - by rewrite append_empty_r.
  - rewrite IH. unfold page_text at 2. by rewrite !append_assoc.
Qed.

(** X16: the text of a PDF is made of the texts of its pages, in order,
    each followed by a line feed; a page without text gives the line feed
    alone and no error, so that every text of a page occurs in the text of
    the document and a PDF without any text in its pages gives a text
    without any letter. *)
Theorem parse_pdf_pages (fs : env) (path : string) (pages : list (option string)) :
  HAS_PDFPLUMBER fs = true ->
  pdf_pages fs path = inr pages ->
  _parse_pdf fs path = inr (flatten (map page_text pages))
  /\ (forall text, In (Some text) pages ->
                   contains text (flatten (map page_text pages)) = true)
  /\ (Forall (fun page => page = None) pages ->
      no_letter (flatten (map page_text pages)) = true).
Proof.
  intros Hhas Hpages. unfold _parse_pdf. rewrite Hhas, Hpages. cbn [negb].
  rewrite fold_pages, append_nil. split; [done |]. split.
  - intros text Hin. apply contains_spec.
    induction pages as [|page pages IH] in Hin |- *; [done |].
    destruct Hin as [-> | Hin].
    + exists "", (String nl "" ++ flatten (map page_text pages)).
      cbn [map flatten]. unfold page_text at 1. cbn [default].
      by rewrite append_nil, !append_assoc.
    + destruct (IH Hin) as (before & after & Heq).
      exists (page_text page ++ before), after. cbn [map flatten].
      by rewrite Heq, !append_assoc.
  - intros Hnone. clear Hpages.
    induction pages as [|page pages IH]; [done |].
    apply Forall_cons in Hnone as [-> Hnone].
    cbn [map flatten]. unfold no_letter in *. rewrite all_chars_app, IH by done. done.
Qed.

Lemma parse_pdf_pages_witness :
  _parse_pdf (pdf_fs [Some "POLICY NUMBER: ABC123"; None]) "claim.pdf"
  = inr (flatten (map page_text [Some "POLICY NUMBER: ABC123"; None])).
Proof.
  apply (parse_pdf_pages (pdf_fs [Some "POLICY NUMBER: ABC123"; None]) "claim.pdf");
    reflexivity.
Defined.

(** The counter does not change the result, and the result says how the
    counter moves. *)
Lemma process_claim_count fs processed_count path :
  exists r,
    process_claim fs 0 path = Ok (r, if succeeded r then 1%nat else 0%nat)
    /\ process_claim fs processed_count path
       = Ok (r, (processed_count + if succeeded r then 1 else 0)%nat).
Proof.
  unfold process_claim. destruct (parse_document fs path) as [e|text].
  - eexists (ClaimResult _ "FAILED" _ _ _ _ _ _). split; [reflexivity |].
    unfold succeeded. cbn. by rewrite Nat.add_0_r.
  - destruct (determine_route_on_extracted text) as (ex & d & Hex & Hd & _).
    rewrite Hex, !bind_Ok, Hd, !bind_Ok.
    eexists (ClaimResult _ "SUCCESS" _ _ _ _ _ _). split; [reflexivity |].
    unfold succeeded. cbn. by rewrite Nat.add_1_r.
Qed.

Lemma process_files_results fs files :
  forall processed_count,
  exists results,
    process_files fs processed_count files
    = Ok (results, (processed_count + length (List.filter succeeded results))%nat)
    /\ Forall2 (fun file r => exists k, process_claim fs 0 file = Ok (r, k)) files results.
Proof.
  induction files as [|file files IH]; intros processed_count.
  - exists []. split; [| constructor]. simpl. by rewrite Nat.add_0_r.
  - destruct (process_claim_count fs processed_count file) as (r & Hr0 & Hr).
    destruct (IH (processed_count + if succeeded r then 1 else 0)%nat)
      as (results & Hrest & Hall).
    exists (r :: results). split; [| constructor; [by eexists | done]].
    cbn [process_files]. rewrite Hr, bind_Ok. cbn beta iota. rewrite Hrest, bind_Ok.
    cbn beta iota. cbn [List.filter]. f_equal. f_equal.
    destruct (succeeded r); cbn [length]; lia.
Qed.

(** X17: [process_multiple_claims] raises ValueError when the path is not
    a directory and otherwise raises nothing: it returns one result for
    each file found, those of the pattern [*.pdf] before those of [*.txt],
    each being the result of [process_claim] on that file, and the counter
    grows by the number of results with status SUCCESS. *)
Theorem process_multiple_claims_results (fs : env) (ds : dirs)
    (processed_count : nat) (directory_path : string) :
  if isdir ds directory_path then
    exists results,
      process_multiple_claims fs ds processed_count directory_path
      = Ok (results, (processed_count + length (List.filter succeeded results))%nat)
      /\ Forall2 (fun file r => exists k, process_claim fs 0 file = Ok (r, k))
           (glob ds directory_path "*.pdf" ++ glob ds directory_path "*.txt")%list
           results
  else
    process_multiple_claims fs ds processed_count directory_path = Raise ValueError.
Proof.
  unfold process_multiple_claims. destruct (isdir ds directory_path); [| done].
  cbn [negb]. unfold SUPPORTED_FORMATS. cbn [flat_map]. rewrite app_nil_r.
  change ("*" ++ ".pdf") with "*.pdf". change ("*" ++ ".txt") with "*.txt".
  case_bool_decide as Hfiles; [| apply process_files_results].
  rewrite Hfiles. exists []. split; [| constructor]. cbn. by rewrite Nat.add_0_r.
Qed.

Lemma lower_upper_char c : lower_char (upper_char c) = lower_char c.
Proof. destruct c as [[] [] [] [] [] [] [] []]; reflexivity. Qed.

Lemma lower_lower_char c : lower_char (lower_char c) = lower_char c.
Proof. destruct c as [[] [] [] [] [] [] [] []]; reflexivity. Qed.

Lemma map_chars_compose f g s : map_chars f (map_chars g s) = map_chars (fun c => f (g c)) s.
Proof. induction s as [|c s IH]; simpl; [done | by rewrite IH]. Qed.

Lemma map_chars_ext f g s : (forall c, f c = g c) -> map_chars f s = map_chars g s.
Proof. intros Hfg. induction s as [|c s IH]; simpl; [done | by rewrite IH, Hfg]. Qed.

Lemma filter_sublist_weaken {A} (p q : A -> bool) (l : list A) :
  (forall x, p x = true -> q x = true) ->
  sublist (List.filter p l) (List.filter q l).
Proof.
  intros Hpq. induction l as [|x l IH]; simpl; [constructor |].
  destruct (p x) eqn:Hp.
  - rewrite (Hpq _ Hp). by constructor.
  - destruct (q x); [by constructor | done].
Qed.

(** X19: the fraud scan does not depend on the case of the text, and it
    is monotone: the indicators found in a text are found, in the same
    order, in every text that contains it. *)
Theorem check_for_fraud_indicators_stable (text before after : string) :
  check_for_fraud_indicators (upper text) = check_for_fraud_indicators text
  /\ check_for_fraud_indicators (lower text) = check_for_fraud_indicators text
  /\ sublist (check_for_fraud_indicators text)
             (check_for_fraud_indicators (before ++ text ++ after)).
Proof.
  rewrite !check_for_fraud_indicators_filter.
  assert (Hupper : lower (upper text) = lower text).
  { unfold lower, upper. rewrite map_chars_compose. apply map_chars_ext, lower_upper_char. }
  assert (Hlower : lower (lower text) = lower text).
  { unfold lower. rewrite map_chars_compose. apply map_chars_ext, lower_lower_char. }
  rewrite Hupper, Hlower. split; [done |]. split; [done |].
  apply filter_sublist_weaken. intros keyword. rewrite !contains_spec.
  intros (b & a & Heq). unfold lower. rewrite !map_chars_app. fold (lower text).
  rewrite Heq. exists (map_chars lower_char before ++ b), (a ++ map_chars lower_char after).
  by rewrite !append_assoc.
Qed.

End ParserMore.


(** ** The summary *)

Section SummaryMore.
Import PyStr ClaimsProcessingAgent.

Lemma ascii_compare_lt_trans a b c :
  Ascii.compare a b = Lt -> Ascii.compare b c = Lt -> Ascii.compare a c = Lt.
Proof. unfold Ascii.compare. rewrite !N.compare_lt_iff. lia. Qed.

Lemma string_compare_lt_trans s1 :
  forall s2 s3,
    String.compare s1 s2 = Lt -> String.compare s2 s3 = Lt -> String.compare s1 s3 = Lt.
Proof.
  induction s1 as [|a s1 IH]; intros [|b s2] [|c s3]; simpl; try done.
  destruct (Ascii.compare a b) eqn:Hab; [| | done].
  - apply Ascii.compare_eq_iff in Hab as ->.
    destruct (Ascii.compare b c); [apply IH | done | done].
  - intros _. destruct (Ascii.compare b c) eqn:Hbc; [| | done].
    + apply Ascii.compare_eq_iff in Hbc as <-. by rewrite Hab.
    + by rewrite (ascii_compare_lt_trans _ _ _ Hab Hbc).
Qed.

Lemma string_compare_refl s : String.compare s s = Eq.
Proof.
  induction s as [|a s IH]; simpl; [done |].
  unfold Ascii.compare. by rewrite N.compare_refl.
Qed.

#[local] Instance item_le_trans : Transitive item_le.
Proof.
  intros [a x] [b y] [c z]. unfold item_le. simpl.
  destruct (String.compare a b) eqn:Hab; [| | done].
  - apply String.compare_eq_iff in Hab as ->.
    destruct (String.compare b c); [lia | done | done].
  - intros _. destruct (String.compare b c) eqn:Hbc; [| | done].
    + apply String.compare_eq_iff in Hbc as <-. by rewrite Hab.
    + by rewrite (string_compare_lt_trans _ _ _ Hab Hbc).
Qed.

#[local] Instance item_le_total : Total item_le.
Proof.
  intros [a x] [b y]. unfold item_le. simpl.
  rewrite (String.compare_antisym b a).
  destruct (String.compare a b); simpl; [lia | by left | by right].
Qed.

Lemma count_routes_lookup results route :
  forall routes : gmap string nat,
    fold_left
      (fun routes result =>
         let route := default "UNKNOWN" result in
         <[route := (default 0 (routes !! route) + 1)%nat]> routes)
      results routes !! route
    = if (with_route route results =? 0)%nat then routes !! route
      else Some (default 0 (routes !! route) + with_route route results)%nat.
Proof.
  unfold with_route.
  induction results as [|result results IH]; intros routes; [done |].
  cbn [fold_left List.filter]. rewrite IH. cbv zeta.
  destruct (String.eqb_spec (default "UNKNOWN" result) route) as [-> | Hne].
  - rewrite lookup_insert_eq. cbn [length default Nat.eqb].
    destruct (length _ =? 0)%nat eqn:Hlen.
    + apply Nat.eqb_eq in Hlen. rewrite Hlen. unfold id. f_equal; lia.
    + unfold id. f_equal; lia.
  - by rewrite lookup_insert_ne.
Qed.

Lemma count_routes_spec results route n :
  count_routes results !! route = Some n
  <-> (0 < n)%nat /\ n = with_route route results.
Proof.
  unfold count_routes. rewrite count_routes_lookup, lookup_empty.
  destruct (with_route route results =? 0)%nat eqn:Hzero.
  - apply Nat.eqb_eq in Hzero. split; [done | lia].
  - apply Nat.eqb_neq in Hzero. simpl. split; [intros [= <-]; lia | by intros [_ ->]].
Qed.

Lemma list_sum_cons x l : list_sum (x :: l) = (x + list_sum l)%nat.
Proof. reflexivity. Qed.

Lemma list_sum_perm (l1 l2 : list (string * nat)) :
  l1 ≡ₚ l2 -> list_sum l1.*2 = list_sum l2.*2.
Proof.
  induction 1 as [|x l l' _ IH|x y l|l l' l'' _ IH1 _ IH2];
    rewrite ?fmap_cons, ?list_sum_cons; lia.
Qed.

(** The sum of the numbers of a mapping. *)
Lemma sum_insert (routes : gmap string nat) route :
  list_sum (map_to_list (<[route := (default 0 (routes !! route) + 1)%nat]> routes)).*2
  = S (list_sum (map_to_list routes).*2).
Proof.
  destruct (routes !! route) as [n|] eqn:Hroute; cbn [default].
  - rewrite <- insert_delete_eq.
    rewrite (list_sum_perm _ _ (map_to_list_insert _ _ _ (lookup_delete_eq routes route))).
    rewrite <- (list_sum_perm _ _ (map_to_list_delete _ _ _ Hroute)).
    rewrite !fmap_cons, !list_sum_cons. cbn [snd]. unfold id. lia.
  - rewrite (list_sum_perm _ _ (map_to_list_insert _ _ _ Hroute)).
    rewrite !fmap_cons, !list_sum_cons. cbn [snd]. unfold id. lia.
Qed.

Lemma count_routes_sum results :
  forall routes : gmap string nat,
    list_sum
      (map_to_list
         (fold_left
            (fun routes result =>
               let route := default "UNKNOWN" result in
               <[route := (default 0 (routes !! route) + 1)%nat]> routes)
            results routes)).*2
    = (list_sum (map_to_list routes).*2 + length results)%nat.
Proof.
  induction results as [|result results IH]; intros routes; simpl; [lia |].
  rewrite IH, sum_insert. lia.
Qed.

Lemma sorted_strict (l : list (string * nat)) :
  StronglySorted item_le l -> NoDup l.*1 ->
  StronglySorted (fun a b => String.compare a.1 b.1 = Lt) l.
Proof.
  induction 1 as [|a l Hl IH Ha]; intros Hnodup; [constructor |].
  simpl in Hnodup. apply NoDup_cons in Hnodup as [Hnotin Hnodup].
  constructor; [by apply IH |].
  rewrite Forall_forall in Ha |- *. intros b Hb. specialize (Ha b Hb).
  unfold item_le in Ha. destruct (String.compare a.1 b.1) eqn:Hab; [| done | done].
  apply String.compare_eq_iff in Hab. exfalso. apply Hnotin. rewrite Hab.
  apply list_elem_of_fmap. by exists b.
Qed.

(** X18: the summary printed by [print_summary] has, between its fixed
    lines, one line for each route that occurs among the results and no
    other, each with the number of results that carry the route (a result
    without a route counting as UNKNOWN), in strictly increasing order of
    the routes; the numbers of the lines add up to the total printed. *)
Theorem print_summary_counts (results : list (option string)) :
  exists items,
    print_summary results
    = app [ String "010" rule60; "CLAIMS PROCESSING SUMMARY"; rule60;
            "Total documents processed: " ++ str_of_nat (length results);
            String "010" "Routing Distribution:" ]
          (app (map route_line items) [rule60 ++ String "010" ""])
    /\ (forall route n,
          In (route, n) items <-> (0 < n)%nat /\ n = with_route route results)
    /\ StronglySorted (fun a b => String.compare a.1 b.1 = Lt) items
    /\ list_sum items.*2 = length results.
Proof.
  exists (merge_sort item_le (map_to_list (count_routes results))).
  pose proof (merge_sort_Permutation item_le (map_to_list (count_routes results))) as Hperm.
  split; [done |]. split; [| split].
  - intros route n. rewrite <- list_elem_of_In, Hperm, elem_of_map_to_list.
    apply count_routes_spec.
  - apply sorted_strict; [by apply (StronglySorted_merge_sort _) |].
    rewrite Hperm. apply NoDup_fst_map_to_list.
  - transitivity (list_sum (map_to_list (count_routes results)).*2).
    + by apply list_sum_perm.
    + unfold count_routes. rewrite count_routes_sum, map_to_list_empty. done.
Qed.

End SummaryMore.


(** ** The form *)

Section FormMore.
Import PyStr PyFloat FieldExtractor RoutingEngine ApiServer.

Lemma all_chars_lstrip_inv (p q : ascii -> bool) s :
  (forall c, p c = true -> q c = true) ->
  all_chars q (lstrip_by p s) = true -> all_chars q s = true.
Proof.
  intros Hpq. induction s as [|c s IH]; [done |]. simpl.
  destruct (p c) eqn:Hc; [| done]. intros H. by rewrite (Hpq _ Hc), IH.
Qed.

Lemma all_chars_rstrip_inv (p q : ascii -> bool) s :
  (forall c, p c = true -> q c = true) ->
  all_chars q (rstrip_by p s) = true -> all_chars q s = true.
Proof.
  intros Hpq. induction s as [|c s IH]; [done |]. rewrite rstrip_by_cons.
  destruct (rstrip_by p s) as [|d r] eqn:Hr.
  - destruct (p c) eqn:Hc.
    + intros _. simpl. by rewrite (Hpq _ Hc), IH.
    + simpl. rewrite andb_true_r. intros ->. by rewrite IH.
  - cbn [all_chars]. rewrite andb_true_iff. intros [-> H]. by rewrite IH.
Qed.

Lemma float_char_digit c : is_digit c = true -> float_char c = true.
Proof. unfold float_char. intros ->. by rewrite !orb_true_r. Qed.

Lemma digits_from_chars s :
  forall acc n v k r,
    digits_from acc n s = (v, k, r) ->
    all_chars float_char r = true -> all_chars float_char s = true.
Proof.
  assert (H : forall len s, (String.length s < len)%nat ->
              forall acc n v k r,
                digits_from acc n s = (v, k, r) ->
                all_chars float_char r = true -> all_chars float_char s = true);
    [| apply (H (S (String.length s))); lia].
  clear s. induction len as [|len IH]; [lia |].
  intros s Hlen acc n v k r. destruct s as [|c s]; [by intros [= _ _ <-] |].
  cbn [digits_from]. cbn [String.length] in Hlen. destruct (is_digit c) eqn:Hc.
  - intros Hrec Hr. cbn [all_chars]. rewrite (float_char_digit _ Hc).
    eapply IH; [| exact Hrec | exact Hr]. lia.
  - destruct (Ascii.eqb_spec c "_") as [-> | Hne]; [| by intros [= _ _ <-]].
    destruct s as [|d s]; [by intros [= _ _ <-] |].
    destruct (is_digit d) eqn:Hd; [| by intros [= _ _ <-]].
    intros Hrec Hr. cbn [all_chars]. rewrite (float_char_digit _ Hd).
    change (float_char "_") with true. cbn [andb]. cbn [String.length] in Hlen.
    eapply IH; [| exact Hrec | exact Hr]. lia.
Qed.

Lemma digitpart_chars acc s v k r :
  digitpart acc s = Some (v, k, r) ->
  all_chars float_char r = true -> all_chars float_char s = true.
Proof.
  destruct s as [|c s]; [done |]. cbn [digitpart].
  destruct (is_digit c) eqn:Hc; [| done]. intros [= Hrec] Hr.
  cbn [all_chars]. rewrite (float_char_digit _ Hc). by eapply digits_from_chars.
Qed.

Lemma parse_number_chars s v k r :
  parse_number s = Some (v, k, r) ->
  all_chars float_char r = true -> all_chars float_char s = true.
Proof.
  unfold parse_number. destruct (digitpart 0 s) as [[[ip n] t]|] eqn:Hip.
  - assert (Hdot : forall t', t = String "." t' ->
                              all_chars float_char t' = true ->
                              all_chars float_char s = true).
    { intros t' -> Ht'. eapply digitpart_chars; [exact Hip |]. done. }
    destruct t as [|c t'].
    { intros [= _ _ <-] _. by eapply digitpart_chars. }
    destruct (Ascii.eqb_spec c ".") as [-> | Hne].
    + destruct (digitpart ip t') as [[[v' k'] r']|] eqn:Hfp.
      * intros [= _ _ <-] Hr. eapply Hdot; [done |]. by eapply digitpart_chars.
      * intros [= _ _ <-] Hr. by eapply Hdot.
    + intros Hsome Hr.
      assert (Hr' : r = String c t').
      { revert Hsome. destruct c as [[] [] [] [] [] [] [] []];
          try (by intros [= _ _ <-]); by destruct Hne. }
      subst r. by eapply digitpart_chars.
  - destruct s as [|c s]; [done |].
    destruct (Ascii.eqb_spec c ".") as [-> | Hne].
    + intros Hfp Hr. cbn [all_chars]. change (float_char ".") with true.
      by eapply digitpart_chars.
    + intros Hsome. exfalso. revert Hsome.
      destruct c as [[] [] [] [] [] [] [] []]; try done; by destruct Hne.
Qed.

Lemma parse_exponent_chars s e :
  parse_exponent s = Some e -> all_chars float_char s = true.
Proof.
  destruct s as [|c r]; [done |]. cbn [parse_exponent].
  destruct (Ascii.eqb_spec (lower_char c) "e") as [Hc | Hc]; [| done].
  assert (Hfc : float_char c = true).
  { revert Hc. destruct c as [[] [] [] [] [] [] [] []]; by vm_compute. }
  cbn [all_chars]. rewrite Hfc. cbn [andb].
  assert (Hsign : exists sign, r = sign ++ (parse_sign r).2
                               /\ all_chars float_char sign = true).
  { destruct r as [|x r']; [by exists "" |].
    destruct (Ascii.eqb_spec x "-") as [-> | Hm]; [by exists "-" |].
    destruct (Ascii.eqb_spec x "+") as [-> | Hp]; [by exists "+" |].
    exists "". split; [| done].
    destruct x as [[] [] [] [] [] [] [] []]; try done;
      first [by destruct Hm | by destruct Hp]. }
  destruct Hsign as (sign & Hr & Hsign). destruct (parse_sign r) as [neg r'].
  cbn [snd] in Hr. destruct (digitpart 0 r') as [[[v k] t]|] eqn:Hd; [| done].
  destruct t; [| done]. intros _. rewrite Hr, all_chars_app, Hsign.
  by eapply digitpart_chars.
Qed.

Lemma is_alpha_lower c : is_alpha (lower_char c) = is_alpha c.
Proof. destruct c as [[] [] [] [] [] [] [] []]; reflexivity. Qed.

Lemma all_alpha_lower s : all_chars is_alpha (lower s) = all_chars is_alpha s.
Proof.
  unfold lower. induction s as [|c s IH]; simpl; [done | by rewrite is_alpha_lower, IH].
Qed.

(** Every character of a text that [float] reads is one of
    [float_char]. *)
Lemma float_of_string_chars s f :
  float_of_string s = Some f -> all_chars float_char s = true.
Proof.
  unfold float_of_string. intros Hf.
  assert (Hspace : forall c, is_c_space c = true -> float_char c = true).
  { intros c Hc. unfold float_char. by rewrite Hc. }
  apply (all_chars_lstrip_inv is_c_space); [done |].
  apply (all_chars_rstrip_inv is_c_space); [done |].
  fold (strip_by is_c_space s). set (t := strip_by is_c_space s) in *. clearbody t.
  assert (Hsign : exists sign, t = sign ++ (parse_sign t).2
                               /\ all_chars float_char sign = true).
  { destruct t as [|x t']; [by exists "" |].
    destruct (Ascii.eqb_spec x "-") as [-> | Hm]; [by exists "-" |].
    destruct (Ascii.eqb_spec x "+") as [-> | Hp]; [by exists "+" |].
    exists "". split; [| done].
    destruct x as [[] [] [] [] [] [] [] []]; try done;
      first [by destruct Hm | by destruct Hp]. }
  destruct Hsign as (sign & Ht & Hsign). destruct (parse_sign t) as [neg body].
  cbn [snd] in Ht. rewrite Ht, all_chars_app, Hsign. cbn [andb].
  assert (Halpha : all_chars is_alpha (lower body) = true ->
                   all_chars float_char body = true).
  { rewrite all_alpha_lower. apply all_chars_weaken. intros c Hc.
    unfold float_char. by rewrite Hc, orb_true_r. }
  destruct (in_list (lower body) ["inf"; "infinity"]) eqn:Hinf.
  { apply Halpha. unfold in_list in Hinf. cbn [existsb] in Hinf.
    rewrite orb_false_r, orb_true_iff, !String.eqb_eq in Hinf.
    by destruct Hinf as [-> | ->]. }
  destruct (String.eqb_spec (lower body) "nan") as [Hnan | _].
  { apply Halpha. by rewrite Hnan. }
  destruct (parse_number body) as [[[n k] r]|] eqn:Hnum; [| done].
  destruct (parse_exponent r) as [e|] eqn:Hexp; [| done].
  eapply parse_number_chars; [exact Hnum |]. by eapply parse_exponent_chars.
Qed.

(** [float] reads no text with a comma or a dollar sign. *)
Lemma float_of_string_separators s :
  contains "," s || contains "$" s = true -> float_of_string s = None.
Proof.
  intros Hsep. destruct (float_of_string s) as [f|] eqn:Hf; [| done].
  apply float_of_string_chars in Hf.
  apply orb_true_iff in Hsep as [Hc | Hc]; apply contains_spec in Hc as (b & a & ->);
    rewrite !all_chars_app in Hf; apply andb_true_iff in Hf as [_ Hf];
    apply andb_true_iff in Hf as [Hf _]; done.
Qed.

Lemma form_fields_lookup data k :
  In k MANDATORY_FIELDS \/ k = "accident_description" ->
  form_fields data !! k = Some (dict_get_default data k (PStr "")).
Proof.
  unfold form_fields, MANDATORY_FIELDS. simpl.
  intros [[<- | [<- | [<- | [<- | [<- | [<- | []]]]]]] | ->];
    by rewrite ?lookup_insert_ne by done; rewrite lookup_insert_eq.
Qed.

Lemma size_nonempty (data : gmap string pyval) k v :
  data !! k = Some v -> (size data =? 0)%nat = false.
Proof.
  intros Hk. apply Nat.eqb_neq. rewrite map_size_empty_iff.
  intros ->. by rewrite lookup_empty in Hk.
Qed.

(** X21: the form does not clean the damage as the extractor does: a
    damage given as a string with a comma or a dollar sign is not read by
    [float] and counts as 0.  When the form is otherwise complete (nothing
    is missing, the description has no fraud indicator, the claim type is
    not an injury type) the claim is fast-tracked with the amount 0.00,
    whatever amount was written. *)
Theorem process_form_separated_damage (data : gmap string pyval)
    (damage claim_type description : string) :
  data !! "estimated_damage" = Some (PStr damage) ->
  contains "," damage || contains "$" damage = true ->
  data !! "claim_type" = Some (PStr claim_type) ->
  is_injury_type claim_type = false ->
  dict_get_default data "accident_description" (PStr "") = PStr description ->
  check_for_fraud_indicators description = [] ->
  validate_fields (form_fields data) = [] ->
  process_form data
  = Processed (<["estimated_damage_value" := PInt 0]> (form_fields data)) [] []
      "FAST_TRACK"
      "Low damage amount ($0.00 < $25,000). Eligible for expedited processing.".
Proof.
  intros Hdamage Hsep Htype Hinjury Hdesc Hfraud Hmissing.
  unfold process_form. rewrite (size_nonempty _ _ _ Hdamage), Hdesc.
  cbn [as_str]. rewrite bind_Ok, Hfraud, Hmissing.
  unfold dict_get_default at 1. rewrite Hdamage. cbn [default to_float id].
  rewrite (float_of_string_separators _ Hsep), bind_Ok, determine_route_rules34.
  assert (Hct : dict_get_default
                  (<["estimated_damage_value" := PInt 0]> (form_fields data))
                  "claim_type" (PStr "") = PStr claim_type).
  { unfold dict_get_default at 1. rewrite lookup_insert_ne by done.
    rewrite form_fields_lookup by (left; unfold MANDATORY_FIELDS; simpl; tauto).
    unfold dict_get_default. by rewrite Htype. }
  assert (Hdv : dict_get_default
                  (<["estimated_damage_value" := PInt 0]> (form_fields data))
                  "estimated_damage_value" (PInt 0) = PInt 0).
  { unfold dict_get_default. by rewrite lookup_insert_eq. }
  rewrite Hct, Hdv. cbn [as_str]. rewrite bind_Ok, Hinjury. reflexivity.
Qed.

Lemma process_form_separated_damage_witness :
  process_form (auto_form (PStr "$50,000"))
  = Processed
      (<["estimated_damage_value" := PInt 0]> (form_fields (auto_form (PStr "$50,000"))))
      [] [] "FAST_TRACK"
      "Low damage amount ($0.00 < $25,000). Eligible for expedited processing.".
Proof.
  apply (process_form_separated_damage (auto_form (PStr "$50,000")) "$50,000" "Auto" "");
    vm_compute; reflexivity.
Defined.



End FormMore.
